(** * Beacon SDK: relay selection, Matrix state store and P2P pairing client

    A shallow embedding of
    - [P2PCommunicationClient] (relay selection, pairing descriptors, room
      routing, encrypted send with forbidden-recovery, join polling), and
    - [MatrixClientStore] (in-memory state, merge on update, persistence of
      the preserved fields),
    followed by the properties the specification states about them.

    Conventions.  JavaScript [undefined] is [None]; a JavaScript string is a
    [string]; a JavaScript number that the code uses as a counter or as a
    time in milliseconds is a [Z].  Code that awaits, throws and mutates is
    written in the monad [M]: a state transformer over [World] that returns
    either a value or the thrown error. *)

From stdpp Require Import base option list strings gmap pretty.
From Stdlib Require Import Ascii ZArith Lia.
From Equations Require Import Equations.

Local Open Scope Z_scope.

(* ===================================================================== *)
(** * JavaScript values: truthiness and errors *)
(* ===================================================================== *)

Module Js.

(** [Boolean(s)] for a string: only the empty string is falsy. *)
Definition truthyString (s : string) : bool :=
  match s with
  | EmptyString => false
  | String _ _ => true
  end.

(** [Boolean(n)] for a number (NaN is not represented). *)
Definition truthyNumber (n : Z) : bool := negb (n =? 0).

(** [a || b] where [a] may be undefined or a falsy string. *)
Definition orString (a b : option string) : option string :=
  match a with
  | Some s => if truthyString s then Some s else b
  | None => b
  end.

(** [a || b] where [a] may be undefined or a falsy number, [b] defined. *)
Definition orNumber (a : option Z) (b : Z) : Z :=
  match a with
  | Some n => if truthyNumber n then n else b
  | None => b
  end.

(** [a || b] where both [a] and [b] may be undefined numbers. *)
Definition orOptNumber (a b : option Z) : option Z :=
  match a with
  | Some n => if truthyNumber n then Some n else b
  | None => b
  end.

(** [a || b] where [a] may be undefined or [false]. *)
Definition orBool (a : option bool) (b : bool) : bool :=
  match a with
  | Some true => true
  | _ => b
  end.

(** [Boolean(x)] for an optional string ([if (x) ...]). *)
Definition truthyOptString (a : option string) : bool :=
  match a with
  | Some s => truthyString s
  | None => false
  end.

(** [Boolean(x)] for an optional number and an optional boolean. *)
Definition truthyOptNumber (a : option Z) : bool :=
  match a with
  | Some n => truthyNumber n
  | None => false
  end.

Definition truthyOptBool (a : option bool) : bool :=
  match a with
  | Some b => b
  | None => false
  end.

(** The double-quote character (code 34), for messages that quote a word. *)
Definition dquote : string :=
  String (Ascii.Ascii false true false false false true false false) EmptyString.

(** An [Error] object: its message and, for errors of the chat server,
    the [errcode] property. *)
Record Error := mkError { message : string; errcode : option string }.

Definition newError (msg : string) : Error :=
  {| message := msg; errcode := None |}.

(** [error.errcode === code] *)
Definition hasErrcode (e : Error) (code : string) : bool :=
  match errcode e with
  | Some c => String.eqb c code
  | None => false
  end.

End Js.

(* ===================================================================== *)
(** * bignumber.js on hexadecimal integers *)
(* ===================================================================== *)

Module BigNumber.

(** A [BigNumber] holding an integer; [None] is [NaN]. *)
Abbreviation t := (option Z).

Definition digitLower (c : ascii) : option Z :=
  let n := Z.of_N (Ascii.N_of_ascii c) in
  if (48 <=? n) && (n <=? 57) then Some (n - 48)
  else if (97 <=? n) && (n <=? 102) then Some (n - 87)
  else None.

Definition digitUpper (c : ascii) : option Z :=
  let n := Z.of_N (Ascii.N_of_ascii c) in
  if (48 <=? n) && (n <=? 57) then Some (n - 48)
  else if (65 <=? n) && (n <=? 70) then Some (n - 55)
  else None.

Fixpoint digits (digit : ascii -> option Z) (acc : Z) (s : string) : option Z :=
  match s with
  | EmptyString => Some acc
  | String c rest =>
      match digit c with
      | Some d => digits digit (16 * acc + d) rest
      | None => None
      end
  end.

(** [new BigNumber(`0x${s}`)].  The library reads the digits after the
    prefix in base 16, in lower case or, when that fails, in upper case (a
    string that mixes the two is [NaN], and so is the bare prefix).
    Strings that are not made of hexadecimal digits only are [NaN] here. *)
Definition ofHex (s : string) : t :=
  match s with
  | EmptyString => None
  | _ =>
      match digits digitLower 0 s with
      | Some n => Some n
      | None => digits digitUpper 0 s
      end
  end.

Definition minus (a b : t) : t :=
  match a, b with
  | Some x, Some y => Some (x - y)
  | _, _ => None
  end.

Definition absoluteValue (a : t) : t := Z.abs <$> a.

(** [a.isLessThan(b)]: false as soon as one side is [NaN]. *)
Definition isLessThan (a b : t) : bool :=
  match a, b with
  | Some x, Some y => x <? y
  | _, _ => false
  end.

End BigNumber.

(* ===================================================================== *)
(** * Matrix models: rooms, messages and the object heap *)
(* ===================================================================== *)

Module Matrix.

Inductive MatrixRoomStatus := UNKNOWN | JOINED | INVITED | LEFT.

Inductive MatrixMessageType := TEXT | OTHER.

Record MatrixMessage := mkMessage {
  msgType : MatrixMessageType;
  sender : string;
  content : string;
  timestamp : Z
}.

(** A room object.  [id] and [status] are the constructor's fields; the
    client reads [members] and the store assigns [messages]. *)
Record MatrixRoom := mkRoom {
  id : string;
  status : MatrixRoomStatus;
  members : list string;
  messages : list MatrixMessage
}.

(** [room.messages = []] *)
Definition clearMessages (r : MatrixRoom) : MatrixRoom :=
  {| id := id r; status := status r; members := members r; messages := [] |}.

(** Room objects are shared by reference: the state, the update and the
    copy made for serialisation each hold references into one heap.  A
    reference is the index of the object in the heap. *)
Abbreviation loc := nat.
Abbreviation Heap := (list MatrixRoom).

(** [new] object: appended, so every older reference keeps its meaning. *)
Definition alloc (h : Heap) (r : MatrixRoom) : Heap * loc :=
  (h ++ [r], length h).

(** Assignment to a field of the object at [l]. *)
Definition modify (f : MatrixRoom -> MatrixRoom) (l : loc) (h : Heap) : Heap :=
  match h !! l with
  | Some r => <[l := f r]> h
  | None => h
  end.

(** A JavaScript object used as a record from room id to room
    ([Record<string, MatrixRoom>]): the properties in insertion order. *)
Abbreviation RoomRecord := (list (string * loc)).

(** [rooms[key]] *)
Fixpoint recordGet (rooms : RoomRecord) (key : string) : option loc :=
  match rooms with
  | [] => None
  | (k, l) :: rest => if String.eqb k key then Some l else recordGet rest key
  end.

(** [rooms[key] = l]: an existing property keeps its place. *)
Fixpoint recordSet (rooms : RoomRecord) (key : string) (l : loc) : RoomRecord :=
  match rooms with
  | [] => [(key, l)]
  | (k, l0) :: rest =>
      if String.eqb k key then (k, l) :: rest else (k, l0) :: recordSet rest key l
  end.

(** [Object.values(rooms)] *)
Definition recordValues (rooms : RoomRecord) : list loc := rooms.*2.

(** What the state holds under a key, as a dynamically typed value. *)
Inductive JsValue :=
| VBool (b : bool)
| VNum (n : Z)
| VStr (s : string)
| VRoomArray (rs : list loc)
| VRoomRecord (rs : RoomRecord).

(** [Boolean(value)]: arrays and objects are truthy, also when empty. *)
Definition truthy (v : JsValue) : bool :=
  match v with
  | VBool b => b
  | VNum n => Js.truthyNumber n
  | VStr s => Js.truthyString s
  | VRoomArray _ => true
  | VRoomRecord _ => true
  end.

(** An object literal: own properties in order; a property can be present
    with the value undefined. *)
Abbreviation JsObject := (list (string * option JsValue)).

(** [obj[key]] *)
Fixpoint objGet (obj : JsObject) (key : string) : option JsValue :=
  match obj with
  | [] => None
  | (k, v) :: rest => if String.eqb k key then v else objGet rest key
  end.

(** JSON text, as the tree it denotes.  Room objects are serialised with
    all their fields. *)
Inductive Json :=
| JBool (b : bool)
| JNum (n : Z)
| JStr (s : string)
| JRoomArray (rs : list MatrixRoom)
| JRoomRecord (rs : list (string * MatrixRoom)).

Abbreviation JsonObject := (list (string * Json)).

Definition jsonKeys (o : JsonObject) : list string := o.*1.

(** The rooms a JSON object carries under [rooms]. *)
Definition jsonRooms (o : JsonObject) : list MatrixRoom :=
  flat_map (fun kv =>
    match kv with
    | (k, JRoomRecord rs) => if String.eqb k "rooms" then rs.*2 else []
    | (k, JRoomArray rs) => if String.eqb k "rooms" then rs else []
    | _ => []
    end) o.

(** [JSON.stringify] of a value: references are followed into the heap. *)
Definition stringifyValue (h : Heap) (v : JsValue) : Json :=
  match v with
  | VBool b => JBool b
  | VNum n => JNum n
  | VStr s => JStr s
  | VRoomArray ls => JRoomArray (omap (fun l => h !! l) ls)
  | VRoomRecord rs =>
      JRoomRecord (omap (fun kl => (fun r => (kl.1, r)) <$> h !! kl.2) rs)
  end.

(** [JSON.stringify(obj)]: a property whose value is undefined is left out. *)
Definition JSON_stringify (h : Heap) (obj : JsObject) : JsonObject :=
  omap (fun kv => (fun v => (kv.1, stringifyValue h v)) <$> kv.2) obj.

(** Allocation of the objects [JSON.parse] creates. *)
Fixpoint allocArray (h : Heap) (rs : list MatrixRoom) : Heap * list loc :=
  match rs with
  | [] => (h, [])
  | r :: rest =>
      let '(h1, l) := alloc h r in
      let '(h2, ls) := allocArray h1 rest in
      (h2, l :: ls)
  end.

Fixpoint allocRecord (h : Heap) (rs : list (string * MatrixRoom)) : Heap * RoomRecord :=
  match rs with
  | [] => (h, [])
  | (k, r) :: rest =>
      let '(h1, l) := alloc h r in
      let '(h2, ls) := allocRecord h1 rest in
      (h2, (k, l) :: ls)
  end.

Definition parseValue (h : Heap) (j : Json) : Heap * JsValue :=
  match j with
  | JBool b => (h, VBool b)
  | JNum n => (h, VNum n)
  | JStr s => (h, VStr s)
  | JRoomArray rs => let '(h1, ls) := allocArray h rs in (h1, VRoomArray ls)
  | JRoomRecord rs => let '(h1, ls) := allocRecord h rs in (h1, VRoomRecord ls)
  end.

(** [JSON.parse(text)]: every object of the result is new. *)
Fixpoint JSON_parse (h : Heap) (o : JsonObject) : Heap * JsObject :=
  match o with
  | [] => (h, [])
  | (k, j) :: rest =>
      let '(h1, v) := parseValue h j in
      let '(h2, obj) := JSON_parse h1 rest in
      (h2, (k, Some v) :: obj)
  end.

End Matrix.

(* ===================================================================== *)
(** * Persistent key-value storage *)
(* ===================================================================== *)

Module Storage.
Import Matrix.

(** The three keys the core uses.  [get] of the peer-room map yields the
    empty object when nothing was stored. *)
Record t := mk {
  MATRIX_PRESERVED_STATE : option JsonObject;
  MATRIX_PEER_ROOM_IDS : gmap string string;
  MATRIX_ROOM_STANDBY : option string
}.

Definition empty : t :=
  {| MATRIX_PRESERVED_STATE := None;
     MATRIX_PEER_ROOM_IDS := ∅;
     MATRIX_ROOM_STANDBY := None |}.

Definition setPreservedState (blob : JsonObject) (s : t) : t :=
  {| MATRIX_PRESERVED_STATE := Some blob;
     MATRIX_PEER_ROOM_IDS := MATRIX_PEER_ROOM_IDS s;
     MATRIX_ROOM_STANDBY := MATRIX_ROOM_STANDBY s |}.

Definition setPeerRoomIds (ids : gmap string string) (s : t) : t :=
  {| MATRIX_PRESERVED_STATE := MATRIX_PRESERVED_STATE s;
     MATRIX_PEER_ROOM_IDS := ids;
     MATRIX_ROOM_STANDBY := MATRIX_ROOM_STANDBY s |}.

Definition setStandby (room : option string) (s : t) : t :=
  {| MATRIX_PRESERVED_STATE := MATRIX_PRESERVED_STATE s;
     MATRIX_PEER_ROOM_IDS := MATRIX_PEER_ROOM_IDS s;
     MATRIX_ROOM_STANDBY := room |}.

End Storage.

(* ===================================================================== *)
(** * MatrixClientStore *)
(* ===================================================================== *)

Module MatrixClientStore.
Import Matrix.

(** [MatrixStateStore]: the state with [rooms] as a record by room id. *)
Record MatrixStateStore := mkState {
  isRunning : bool;
  userId : option string;
  deviceId : option string;
  txnNo : Z;
  accessToken : option string;
  syncToken : option string;
  pollingTimeout : option Z;
  pollingRetries : Z;
  rooms : RoomRecord
}.

(** [rooms] of an update: an array, or a record (after [JSON.parse]). *)
Inductive RoomsArg :=
| RoomsArray (rs : list loc)
| RoomsRecord (rs : RoomRecord).

(** [Partial<MatrixState>]: a field that is absent, or present with the
    value undefined, is [None]. *)
Record PartialState := mkPartial {
  p_isRunning : option bool;
  p_userId : option string;
  p_deviceId : option string;
  p_txnNo : option Z;
  p_accessToken : option string;
  p_syncToken : option string;
  p_pollingTimeout : option Z;
  p_pollingRetries : option Z;
  p_rooms : option RoomsArg
}.

(** The object literal [{}]. *)
Definition emptyPartial : PartialState :=
  mkPartial None None None None None None None None None.

Definition PRESERVED_FIELDS : list string := ["syncToken"; "rooms"].

Definition initialState : MatrixStateStore :=
  {| isRunning := false; userId := None; deviceId := None; txnNo := 0;
     accessToken := None; syncToken := None; pollingTimeout := None;
     pollingRetries := 0; rooms := [] |}.

Definition roomsValue (a : RoomsArg) : JsValue :=
  match a with
  | RoomsArray rs => VRoomArray rs
  | RoomsRecord rs => VRoomRecord rs
  end.

Definition prop {A} (key : string) (inj : A -> JsValue) (v : option A)
  : option (string * JsValue) :=
  (fun x => (key, inj x)) <$> v.

(** [Object.entries(stateUpdate)], restricted to the properties whose
    value is defined, in the order of the interface. *)
Definition entries (p : PartialState) : list (string * JsValue) :=
  omap (fun x => x)
    [ prop "isRunning" VBool (p_isRunning p);
      prop "userId" VStr (p_userId p);
      prop "deviceId" VStr (p_deviceId p);
      prop "txnNo" VNum (p_txnNo p);
      prop "accessToken" VStr (p_accessToken p);
      prop "syncToken" VStr (p_syncToken p);
      prop "pollingTimeout" VNum (p_pollingTimeout p);
      prop "pollingRetries" VNum (p_pollingRetries p);
      prop "rooms" roomsValue (p_rooms p) ].

(** [this.state[key]] *)
Definition stateGet (st : MatrixStateStore) (key : string) : option JsValue :=
  if String.eqb key "isRunning" then Some (VBool (isRunning st))
  else if String.eqb key "userId" then VStr <$> userId st
  else if String.eqb key "deviceId" then VStr <$> deviceId st
  else if String.eqb key "txnNo" then Some (VNum (txnNo st))
  else if String.eqb key "accessToken" then VStr <$> accessToken st
  else if String.eqb key "syncToken" then VStr <$> syncToken st
  else if String.eqb key "pollingTimeout" then VNum <$> pollingTimeout st
  else if String.eqb key "pollingRetries" then Some (VNum (pollingRetries st))
  else if String.eqb key "rooms" then Some (VRoomRecord (rooms st))
  else None.

Definition asBool (v : option JsValue) : option bool :=
  match v with Some (VBool b) => Some b | _ => None end.
Definition asNum (v : option JsValue) : option Z :=
  match v with Some (VNum n) => Some n | _ => None end.
Definition asStr (v : option JsValue) : option string :=
  match v with Some (VStr s) => Some s | _ => None end.
Definition asRooms (v : option JsValue) : option RoomsArg :=
  match v with
  | Some (VRoomArray rs) => Some (RoomsArray rs)
  | Some (VRoomRecord rs) => Some (RoomsRecord rs)
  | _ => None
  end.

(** A parsed object read as a [Partial<MatrixState>] (a property of
    another type than the interface declares reads as undefined). *)
Definition asPartial (obj : JsObject) : PartialState :=
  {| p_isRunning := asBool (objGet obj "isRunning");
     p_userId := asStr (objGet obj "userId");
     p_deviceId := asStr (objGet obj "deviceId");
     p_txnNo := asNum (objGet obj "txnNo");
     p_accessToken := asStr (objGet obj "accessToken");
     p_syncToken := asStr (objGet obj "syncToken");
     p_pollingTimeout := asNum (objGet obj "pollingTimeout");
     p_pollingRetries := asNum (objGet obj "pollingRetries");
     p_rooms := asRooms (objGet obj "rooms") |}.

(** A call of a state-change listener, with the heap it runs in. *)
Record Notification := mkNotification {
  listener : nat;
  oldState : MatrixStateStore;
  newState : MatrixStateStore;
  stateChange : PartialState;
  heapSeen : Heap
}.

(** The store object together with the heap of room objects, the storage
    it writes to, the values it passed to [storage.set] and the listener
    calls it made (latest last). *)
Record t := mkStore {
  heap : Heap;
  state : MatrixStateStore;
  onStateChangedListeners : gmap string nat;
  storage : Storage.t;
  written : list JsonObject;
  notified : list Notification
}.

Definition withHeap (h : Heap) (w : t) : t :=
  mkStore h (state w) (onStateChangedListeners w) (storage w) (written w) (notified w).
Definition withState (st : MatrixStateStore) (w : t) : t :=
  mkStore (heap w) st (onStateChangedListeners w) (storage w) (written w) (notified w).
Definition withListeners (ls : gmap string nat) (w : t) : t :=
  mkStore (heap w) (state w) ls (storage w) (written w) (notified w).
Definition withNotified (ns : list Notification) (w : t) : t :=
  mkStore (heap w) (state w) (onStateChangedListeners w) (storage w) (written w) ns.

(** [this.storage.set(StorageKey.MATRIX_PRESERVED_STATE, blob)] *)
Definition storageSet (blob : JsonObject) (w : t) : t :=
  mkStore (heap w) (state w) (onStateChangedListeners w)
    (Storage.setPreservedState blob (storage w)) (written w ++ [blob]) (notified w).

(** [get(key)] *)
Definition get (key : string) (w : t) : option JsValue := stateGet (state w) key.

(** [onStateChanged(listener, ...subscribed)] *)
Definition onStateChanged (l : nat) (subscribed : list string) (w : t) : t :=
  if 0 <? Z.of_nat (length subscribed)
  then withListeners
         (foldl (fun m key => <[key := l]> m) (onStateChangedListeners w) subscribed) w
  else withListeners (<["all" := l]> (onStateChangedListeners w)) w.

(** The deep copy [JSON.parse(JSON.stringify(toStore))]. *)
Definition jsonCopy (h : Heap) (obj : JsObject) : Heap * JsObject :=
  JSON_parse h (JSON_stringify h obj).

(** [Object.values(toStoreCopy.rooms || {})] *)
Definition roomsOf (obj : JsObject) : list loc :=
  match objGet obj "rooms" with
  | Some (VRoomRecord rs) => recordValues rs
  | Some (VRoomArray rs) => rs
  | _ => []
  end.

(** [prepareData(toStore)]: returns the object to serialise; the heap
    carries the assignments to [room.messages]. *)
Definition prepareData (toStore : JsObject) (h : Heap) : Heap * JsObject :=
  let requiresPreparation := ["rooms"] in
  let '(h1, toStoreCopy) :=
    if existsb (fun key => bool_decide (is_Some (objGet toStore key))) requiresPreparation
    then jsonCopy h toStore
    else (h, toStore) in
  (foldl (fun hp room => modify clearMessages room hp) h1 (roomsOf toStoreCopy),
   toStoreCopy).

(** [updateStorage(stateUpdate)] *)
Definition updateStorage (stateUpdate : PartialState) (w : t) : t :=
  let updatedCachedFields :=
    List.filter (fun kv => existsb (String.eqb kv.1) PRESERVED_FIELDS && truthy kv.2)
                (entries stateUpdate) in
  if 0 <? Z.of_nat (length updatedCachedFields) then
    let filteredState : JsObject :=
      (fun key => (key, stateGet (state w) key)) <$> PRESERVED_FIELDS in
    let '(h1, prepared) := prepareData filteredState (heap w) in
    storageSet (JSON_stringify h1 prepared) (withHeap h1 w)
  else w.

(** [keys(stateChange).filter((key) => stateChange[key] !== undefined)
      .forEach(...)], after the listener registered for ['all']. *)
Definition notifyListeners (old new : MatrixStateStore) (change : PartialState)
    (w : t) : t :=
  let call l := mkNotification l old new change (heap w) in
  let listenForAll := onStateChangedListeners w !! "all" in
  let forAll := match listenForAll with Some l => [call l] | None => [] end in
  let perKey :=
    omap (fun key => call <$> onStateChangedListeners w !! key) (entries change).*1 in
  withNotified (notified w ++ forAll ++ perKey) w.

Section WithMerge.

(** [MatrixRoom.merge(newState, previousState?)], a static function of
    the room class. *)
Variable merge : MatrixRoom -> option MatrixRoom -> MatrixRoom.

(** The body of [newRooms.forEach] in [mergeRooms]: the merged room is
    a new object. *)
Definition mergeRoom (oldRooms : RoomRecord) (acc : Heap * RoomRecord) (newRoom : loc)
  : Heap * RoomRecord :=
  let '(h, merged) := acc in
  match h !! newRoom with
  | Some r =>
      let previous := recordGet oldRooms (id r) ≫= (fun l => h !! l) in
      let '(h1, l) := alloc h (merge r previous) in
      (h1, recordSet merged (id r) l)
  | None => (h, merged)
  end.

(** [mergeRooms(oldRooms, _newRooms)] *)
Definition mergeRooms (oldRooms : RoomRecord) (_newRooms : option RoomsArg) (h : Heap)
  : Heap * RoomRecord :=
  match _newRooms with
  | None => (h, oldRooms)
  | Some arg =>
      let newRooms :=
        match arg with
        | RoomsArray rs => rs
        | RoomsRecord rs => recordValues rs
        end in
      foldl (mergeRoom oldRooms) (h, oldRooms) newRooms
  end.

(** [setState(partialState)] *)
Definition setState (partialState : PartialState) (w : t) : t :=
  let st := state w in
  let '(h1, merged) := mergeRooms (rooms st) (p_rooms partialState) (heap w) in
  withState
    {| isRunning := Js.orBool (p_isRunning partialState) (isRunning st);
       userId := Js.orString (p_userId partialState) (userId st);
       deviceId := Js.orString (p_deviceId partialState) (deviceId st);
       txnNo := Js.orNumber (p_txnNo partialState) (txnNo st);
       accessToken := Js.orString (p_accessToken partialState) (accessToken st);
       syncToken := Js.orString (p_syncToken partialState) (syncToken st);
       pollingTimeout :=
         Js.orOptNumber (p_pollingTimeout partialState) (pollingTimeout st);
       pollingRetries := Js.orNumber (p_pollingRetries partialState) (pollingRetries st);
       rooms := merged |}
    (withHeap h1 w).

(** [initFromStorage()] *)
Definition initFromStorage (w : t) : t :=
  match Storage.MATRIX_PRESERVED_STATE (storage w) with
  | Some preserved =>
      let '(h1, parsed) := JSON_parse (heap w) preserved in
      setState (asPartial parsed) (withHeap h1 w)
  | None => setState emptyPartial w
  end.

(** [new MatrixClientStore(storage)], with the hydration that every
    [update] awaits. *)
Definition create (h : Heap) (s : Storage.t) : t :=
  initFromStorage (mkStore h initialState ∅ s [] []).

(** [update(stateUpdate)], on a hydrated store. *)
Definition update (stateUpdate : PartialState) (w : t) : t :=
  let oldState := state w in
  let w1 := setState stateUpdate w in
  let w2 := updateStorage stateUpdate w1 in
  notifyListeners oldState (state w2) stateUpdate w2.

End WithMerge.

End MatrixClientStore.

(* ===================================================================== *)
(** * P2PCommunicationClient: data, collaborators and the effect monad *)
(* ===================================================================== *)

Module P2P.
Import Matrix.

(** [sodium.KeyPair]: raw key bytes. *)
Record KeyPair := mkKeyPair { publicKey : string; privateKey : string }.

(** [P2PPairingRequest] and [P2PPairingResponse] have the same fields.
    [version] is undefined in a request of protocol version 1;
    [relayServer] is what [getRelayServer] resolved to. *)
Record PeerInfo := mkPeerInfo {
  info_id : string;
  info_type : string;
  info_name : string;
  info_version : option string;
  info_publicKey : string;
  info_relayServer : option string;
  info_icon : option string;
  info_appUrl : option string
}.

(** A [MatrixClientEvent<MESSAGE>]. *)
Record MessageEvent := mkMessageEvent {
  ev_roomId : string;
  ev_message : MatrixMessage;
  ev_timestamp : option Z
}.

(** The closures the client subscribes, as data. *)
Inductive Listener :=
| InitialListener
| InviteListener
| EncryptedMessageListener (senderPublicKey sharedRx : string) (messageCallback : nat)
| ChannelOpeningListener (messageCallback : nat).

Inductive EventType := MESSAGE | INVITE.

(** What the client does to the outside, in order. *)
Inductive Effect :=
| Log (args : list string) (error : option Js.Error)
| JoinRooms (roomIds : list string)
| CreateTrustedPrivateRoom (invitees : list string)
| InviteToRooms (user : string) (roomIds : list string)
| SendTextMessage (roomId message : string)
| GetRoomById (roomId : string)
| ClientStart (userId password deviceId : string)
| ClientStop
| Subscribe (type : EventType) (l : Listener)
| Unsubscribe (type : EventType) (l : option Listener)
| SetTimeout (ms : Z)
| MessageCallback (callback : nat) (payload : string)
| PairingCallback (callback : nat) (response : PeerInfo) (senderId : string)
| UnhandledRejection (error : Js.Error).

Abbreviation Trace := (list Effect).

Record SessionKeys := mkSessionKeys { sharedRx : string; sharedTx : string }.

(** The collaborators of the client: the crypto helpers, the constants
    and the chat server.  What the chat server answers may depend on
    everything the client did before the call. *)
Record Env := mkEnv {
  getHexHash : string -> string;
  toHex : string -> string;
  fromHex : string -> string;
  createCryptoBoxClient : string -> string -> SessionKeys;
  createCryptoBoxServer : string -> string -> SessionKeys;
  encryptCryptoboxPayload : string -> string -> nat -> string;
  decryptCryptoboxPayload : string -> string -> option string;
  openCryptobox : string -> string -> string -> option string;
  encryptMessageAsymmetric : string -> string -> nat -> string;
  crypto_generichash : string -> string;
  crypto_sign_detached : string -> string -> string;
  generateGUID : nat -> string;
  getSenderId : string -> string;
  BEACON_VERSION : string;
  stringifyPeerInfo : PeerInfo -> string;
  parsePeerInfo : string -> option PeerInfo;
  joinRooms : Trace -> list string -> option Js.Error;
  createTrustedPrivateRoom : Trace -> list string -> Js.Error + string;
  inviteToRooms : Trace -> string -> list string -> option Js.Error;
  sendTextMessage : Trace -> string -> string -> option Js.Error;
  getRoomById : Trace -> string -> MatrixRoom;
  joinedRooms : Trace -> list MatrixRoom;
  invitedRooms : Trace -> list string;
  clientStart : Trace -> option Js.Error;
  clientStop : Trace -> option Js.Error
}.

(** [MatrixClient.create({ baseUrl, storage })] *)
Record MatrixClient := mkMatrixClient { baseUrl : string }.

(** The instance: constructor parameters and private fields. *)
Record Client := mkClient {
  name : string;
  keyPair : KeyPair;
  replicationCount : Z;
  KNOWN_RELAY_SERVERS : list string;
  iconUrl : option string;
  appUrl : option string;
  isWallet : bool;
  client : option MatrixClient;
  initialEvent : option MessageEvent;
  initialListener : option Listener;
  activeListeners : gmap string Listener
}.

(** The module constant of the same name. *)
Definition DEFAULT_RELAY_SERVERS : list string := ["matrix.papers.tech"].

(** [new P2PCommunicationClient(name, keyPair, replicationCount, storage,
    matrixNodes, iconUrl, appUrl, isWallet)] *)
Definition new (name : string) (keyPair : KeyPair) (replicationCount : Z)
    (matrixNodes : list string) (iconUrl appUrl : option string) (isWallet : bool)
  : Client :=
  {| name := name; keyPair := keyPair; replicationCount := replicationCount;
     KNOWN_RELAY_SERVERS :=
       if 0 <? Z.of_nat (length matrixNodes) then matrixNodes else DEFAULT_RELAY_SERVERS;
     iconUrl := iconUrl; appUrl := appUrl; isWallet := isWallet;
     client := None; initialEvent := None; initialListener := None;
     activeListeners := ∅ |}.

(** Everything a call can read or change. *)
Record World := mkWorld {
  this : Client;
  storage : Storage.t;
  now : Z;
  entropy : nat;
  trace : Trace
}.

Definition setThis (f : Client -> Client) (w : World) : World :=
  mkWorld (f (this w)) (storage w) (now w) (entropy w) (trace w).
Definition setStorage (f : Storage.t -> Storage.t) (w : World) : World :=
  mkWorld (this w) (f (storage w)) (now w) (entropy w) (trace w).

Definition withClient (c : option MatrixClient) (t : Client) : Client :=
  mkClient (name t) (keyPair t) (replicationCount t) (KNOWN_RELAY_SERVERS t)
    (iconUrl t) (appUrl t) (isWallet t) c (initialEvent t) (initialListener t)
    (activeListeners t).
Definition withInitialEvent (e : option MessageEvent) (t : Client) : Client :=
  mkClient (name t) (keyPair t) (replicationCount t) (KNOWN_RELAY_SERVERS t)
    (iconUrl t) (appUrl t) (isWallet t) (client t) e (initialListener t)
    (activeListeners t).
Definition withInitialListener (l : option Listener) (t : Client) : Client :=
  mkClient (name t) (keyPair t) (replicationCount t) (KNOWN_RELAY_SERVERS t)
    (iconUrl t) (appUrl t) (isWallet t) (client t) (initialEvent t) l
    (activeListeners t).
Definition withActiveListeners (ls : gmap string Listener) (t : Client) : Client :=
  mkClient (name t) (keyPair t) (replicationCount t) (KNOWN_RELAY_SERVERS t)
    (iconUrl t) (appUrl t) (isWallet t) (client t) (initialEvent t)
    (initialListener t) ls.

(** ** The monad of asynchronous, throwing, mutating code *)

Inductive Result (A : Type) :=
| Ok (a : A)
| Thrown (e : Js.Error).
Arguments Ok {A} a.
Arguments Thrown {A} e.

Definition M (A : Type) : Type := World -> Result A * World.

Definition ret {A} (a : A) : M A := fun w => (Ok a, w).

Definition bind {A B} (m : M A) (k : A -> M B) : M B :=
  fun w =>
    match m w with
    | (Ok a, w1) => k a w1
    | (Thrown e, w1) => (Thrown e, w1)
    end.

Definition throw {A} (e : Js.Error) : M A := fun w => (Thrown e, w).

(** [try { m } catch (error) { handler(error) }], and [promise.catch]. *)
Definition catch {A} (m : M A) (handler : Js.Error -> M A) : M A :=
  fun w =>
    match m w with
    | (Ok a, w1) => (Ok a, w1)
    | (Thrown e, w1) => handler e w1
    end.

Definition gets {A} (f : World -> A) : M A := fun w => (Ok (f w), w).
Definition modifyWorld (f : World -> World) : M unit := fun w => (Ok tt, f w).

(** An effect on the outside: appended to the trace. *)
Definition record (e : Effect) (w : World) : World :=
  mkWorld (this w) (storage w) (now w) (entropy w) (trace w ++ [e]).

Definition emit (e : Effect) : M unit := modifyWorld (record e).

(** A promise that nobody awaits: it runs, the caller goes on, and an
    error it ends with never reaches the caller.  The model runs it to its
    end at the place where it is started. *)
Definition detached (m : M unit) : M unit :=
  catch m (fun e => emit (UnhandledRejection e)).

(** [setTimeout(callback, ms)] with a callback nobody awaits: time passes,
    then the callback runs. *)
Definition elapse (ms : Z) (w : World) : World :=
  mkWorld (this w) (storage w) (now w + ms) (entropy w) (trace w).

Definition sleep (ms : Z) : M unit :=
  fun w => (Ok tt, elapse ms (record (SetTimeout ms) w)).

(** A fresh index into the randomness of the environment. *)
Definition drawn (w : World) : World :=
  mkWorld (this w) (storage w) (now w) (S (entropy w)) (trace w).

Definition draw : M nat := fun w => (Ok (entropy w), drawn w).

Definition log (args : list string) : M unit := emit (Log args None).
Definition logError (args : list string) (e : Js.Error) : M unit :=
  emit (Log args (Some e)).

(** A call to the chat server that resolves to nothing or rejects. *)
Definition call (e : Effect) (answer : Trace -> option Js.Error) : M unit :=
  fun w =>
    match answer (trace w) with
    | None => (Ok tt, record e w)
    | Some err => (Thrown err, record e w)
    end.

(** A call to the chat server that resolves to a value or rejects. *)
Definition callValue {A} (e : Effect) (answer : Trace -> Js.Error + A) : M A :=
  fun w =>
    match answer (trace w) with
    | inr a => (Ok a, record e w)
    | inl err => (Thrown err, record e w)
    end.

(** The text messages a trace hands to the chat server, in order. *)
Definition sentMessages (t : Trace) : list (string * string) :=
  omap (fun e => match e with
                 | SendTextMessage roomId message => Some (roomId, message)
                 | _ => None
                 end) t.

Declare Scope p2p_scope.
Delimit Scope p2p_scope with p2p.
Notation "x <- m ;; k" := (bind m (fun x => k))
  (at level 100, m at next level, right associativity) : p2p_scope.
Notation "m ;; k" := (bind m (fun _ => k))
  (at level 100, right associativity) : p2p_scope.
Local Open Scope p2p_scope.

(** A computation that sends no text message and leaves the instance as
    it is: it only appends other effects to the trace. *)
Definition quiet {A} (m : M A) : Prop :=
  forall w r w',
    m w = (r, w') ->
    this w' = this w /\ exists es, trace w' = trace w ++ es /\ sentMessages es = [].

(** A computation that leaves the stored map from recipients to rooms as
    it is. *)
Definition keepsPeerRoomIds {A} (m : M A) : Prop :=
  forall w r w',
    m w = (r, w') ->
    Storage.MATRIX_PEER_ROOM_IDS (storage w') = Storage.MATRIX_PEER_ROOM_IDS (storage w).

Definition clientNotReadyError : Js.Error :=
  Js.newError ("Client not ready. Make sure to call " +:+ Js.dquote +:+ "start"
               +:+ Js.dquote +:+ " before you try to use it.").

(** [if (!this.client) { throw clientNotReadyError() }] *)
Definition requireClient : M MatrixClient :=
  fun w =>
    match client (this w) with
    | Some c => (Ok c, w)
    | None => (Thrown clientNotReadyError, w)
    end.

(** A read of the chat client's memory: never rejects. *)
Definition query {A} (e : Effect) (answer : Trace -> A) : M A :=
  fun w => (Ok (answer (trace w)), record e w).

(** [`${x}`] for a value that may be undefined. *)
Definition template (x : option string) : string := default "undefined" x.

(** Modelled from the spec: [recipientString] of [utils/crypto], "the
    string [@<peerPublicKeyHash>:<relayServer>]". *)
Definition recipientString (recipientHash relayServer : string) : string :=
  "@" +:+ recipientHash +:+ ":" +:+ relayServer.

(** [sodium.crypto_secretbox_NONCEBYTES + sodium.crypto_secretbox_MACBYTES] *)
Definition crypto_secretbox_NONCEBYTES : Z := 24.
Definition crypto_secretbox_MACBYTES : Z := 16.

(** [array.join(':')] *)
Fixpoint join (sep : string) (parts : list string) : string :=
  match parts with
  | [] => ""
  | [p] => p
  | p :: rest => p +:+ sep +:+ join sep rest
  end.

(** [splits[splits.length - 1]] for [splits = s.split(':')]: what follows
    the last colon. *)
Fixpoint lastSegment (acc : string) (s : string) : string :=
  match s with
  | EmptyString => acc
  | String c rest =>
      if Ascii.eqb c ":"%char then lastSegment "" rest
      else lastSegment (acc +:+ String c EmptyString) rest
  end.

Section Operations.

Variable env : Env.

(** Modelled from the spec: [getPublicKey] and [getPublicKeyHash] of the
    base class [CommunicationClient], "[publicKey] (hex),
    [publicKeyHash] (32-byte generic hash of the public key, hex)". *)
Definition getPublicKey (c : Client) : string := toHex env (publicKey (keyPair c)).
Definition getPublicKeyHash (c : Client) : string :=
  getHexHash env (publicKey (keyPair c)).

(** ** Relay selection *)

Definition getAbsoluteBigIntDifference (firstHash secondHash : string) : BigNumber.t :=
  let difference :=
    BigNumber.minus (BigNumber.ofHex firstHash) (BigNumber.ofHex secondHash) in
  BigNumber.absoluteValue difference.

(** The distance the reduction compares:
    [|hash - genericHash(server + nonce)|]. *)
Definition distance (hash nonce server : string) : BigNumber.t :=
  getAbsoluteBigIntDifference hash (getHexHash env (server +:+ nonce)).

(** The distance of a server as an integer (0 when a hash is no number). *)
Definition distanceZ (hash nonce server : string) : Z :=
  default 0 (distance hash nonce server).

(** The hash of the server with the nonce reads as a hexadecimal number. *)
Definition hashed (nonce server : string) : Prop :=
  is_Some (BigNumber.ofHex (getHexHash env (server +:+ nonce))).

(** The callback of the [reduce] in [getRelayServer]. *)
Definition reducer (hash nonce : string) (prev curr : string) : string :=
  let prevRelayServerHash := getHexHash env (prev +:+ nonce) in
  let currRelayServerHash := getHexHash env (curr +:+ nonce) in
  let prevBigInt := getAbsoluteBigIntDifference hash prevRelayServerHash in
  let currBigInt := getAbsoluteBigIntDifference hash currRelayServerHash in
  if BigNumber.isLessThan prevBigInt currBigInt then prev else curr.

(** [getRelayServer(publicKeyHash?, nonce = '')].  The reduction starts
    from [KNOWN_RELAY_SERVERS[0]], which is undefined for an empty list,
    and then visits every server, the first one included. *)
Definition getRelayServer (c : Client) (publicKeyHash : option string) (nonce : string)
  : option string :=
  let hash :=
    match publicKeyHash with
    | Some h => if Js.truthyString h then h else getHexHash env (publicKey (keyPair c))
    | None => getHexHash env (publicKey (keyPair c))
    end in
  match KNOWN_RELAY_SERVERS c with
  | [] => None
  | first :: _ => Some (foldl (reducer hash nonce) first (KNOWN_RELAY_SERVERS c))
  end.

(** ** Pairing descriptors *)

Definition withIcon (icon : option string) (i : PeerInfo) : PeerInfo :=
  mkPeerInfo (info_id i) (info_type i) (info_name i) (info_version i)
    (info_publicKey i) (info_relayServer i) icon (info_appUrl i).
Definition withAppUrl (url : option string) (i : PeerInfo) : PeerInfo :=
  mkPeerInfo (info_id i) (info_type i) (info_name i) (info_version i)
    (info_publicKey i) (info_relayServer i) (info_icon i) url.

(** The two [if] statements that end both descriptor builders. *)
Definition addOptionalFields (c : Client) (info : PeerInfo) : PeerInfo :=
  let info := if Js.truthyOptString (iconUrl c) then withIcon (iconUrl c) info else info in
  if Js.truthyOptString (appUrl c) then withAppUrl (appUrl c) info else info.

Definition getPairingRequestInfo : M PeerInfo :=
  n <- draw ;;
  c <- gets this ;;
  let info :=
    {| info_id := generateGUID env n;
       info_type := "p2p-pairing-request";
       info_name := name c;
       info_version := Some (BEACON_VERSION env);
       info_publicKey := getPublicKey c;
       info_relayServer := getRelayServer c None "";
       info_icon := None;
       info_appUrl := None |} in
  ret (addOptionalFields c info).

Definition getPairingResponseInfo (request : PeerInfo) : M PeerInfo :=
  c <- gets this ;;
  let info :=
    {| info_id := info_id request;
       info_type := "p2p-pairing-response";
       info_name := name c;
       info_version := Some (BEACON_VERSION env);
       info_publicKey := getPublicKey c;
       info_relayServer := getRelayServer c None "";
       info_icon := None;
       info_appUrl := None |} in
  ret (addOptionalFields c info).

(** ** Joining rooms *)

Equations? tryJoinRooms (roomId : string) (retry : Z) : M unit
  by wf (Z.to_nat (11 - retry)) lt :=
  tryJoinRooms roomId retry :=
    _ <- requireClient ;;
    catch (call (JoinRooms [roomId]) (fun t => joinRooms env t [roomId]))
      (fun error =>
         match Z_le_gt_dec retry 10, Js.hasErrcode error "M_FORBIDDEN" with
         | left _, true =>
             logError ["Retrying to join..."] error ;;
             sleep 200 ;;
             detached (tryJoinRooms roomId (retry + 1))
         | _, _ =>
             logError ["Failed to join after " +:+ pretty retry +:+ " tries."] error
         end).
Proof. lia. Qed.

(** ** The standby room *)

Definition prepareStandbyRoom : M unit :=
  c <- gets this ;;
  if negb (isWallet c) then ret tt
  else
    _ <- requireClient ;;
    standbyRoom <- gets (fun w => Storage.MATRIX_ROOM_STANDBY (storage w)) ;;
    if Js.truthyOptString standbyRoom then ret tt
    else
      roomId <- callValue (CreateTrustedPrivateRoom [])
                          (fun t => createTrustedPrivateRoom env t []) ;;
      modifyWorld (setStorage (Storage.setStandby (Some roomId))).

Definition getAndRemoveStandbyRoom : M (option string) :=
  c <- gets this ;;
  if negb (isWallet c) then ret None
  else
    _ <- requireClient ;;
    standbyRoom <- gets (fun w => Storage.MATRIX_ROOM_STANDBY (storage w)) ;;
    if negb (Js.truthyOptString standbyRoom) then ret None
    else
      modifyWorld (setStorage (Storage.setStandby None)) ;;
      detached (catch prepareStandbyRoom
                  (fun err => logError ["start"; "could not create standby room"] err)) ;;
      ret standbyRoom.

(** ** Start and stop *)

(** [event.timestamp] when it is truthy. *)
Definition truthyTimestamp (event : MessageEvent) : option Z :=
  match ev_timestamp event with
  | Some t => if Js.truthyNumber t then Some t else None
  | None => None
  end.

(** The closure [this.initialListener]: keeps the latest message. *)
Definition initialListenerCallback (event : MessageEvent) : M unit :=
  c <- gets this ;;
  match initialEvent c ≫= truthyTimestamp, truthyTimestamp event with
  | Some previous, Some current =>
      if previous <? current
      then modifyWorld (setThis (withInitialEvent (Some event)))
      else ret tt
  | _, _ => modifyWorld (setThis (withInitialEvent (Some event)))
  end.

(** The closure subscribed to invites. *)
Definition inviteCallback (roomId : string) : M unit := tryJoinRooms roomId 1.

Definition standbyRoomFailed (err : Js.Error) : M unit :=
  logError ["start"; "could not create standby room"] err.

Definition start : M unit :=
  log ["start"; "starting client"] ;;
  time <- gets now ;;
  c <- gets this ;;
  let loginRawDigest :=
    crypto_generichash env ("login:" +:+ pretty (time / 1000 / (5 * 60))) in
  let rawSignature := crypto_sign_detached env loginRawDigest (privateKey (keyPair c)) in
  log ["start"; "connecting to server"] ;;
  let relayServer := getRelayServer c (Some (getPublicKeyHash c)) "0" in
  modifyWorld (setThis (withClient
    (Some {| baseUrl := "https://" +:+ template relayServer |}))) ;;
  modifyWorld (setThis (withInitialListener (Some InitialListener))) ;;
  emit (Subscribe MESSAGE InitialListener) ;;
  emit (Subscribe INVITE InviteListener) ;;
  log ["start"; "login"; getPublicKeyHash c; "on"; template relayServer] ;;
  catch (call (ClientStart (getPublicKeyHash c)
                 ("ed:" +:+ toHex env rawSignature +:+ ":" +:+ getPublicKey c)
                 (toHex env (publicKey (keyPair c))))
              (clientStart env))
        (fun error => logError [] error) ;;
  invited <- gets (fun w => invitedRooms env (trace w)) ;;
  catch (call (JoinRooms invited) (fun t => joinRooms env t invited))
        (fun error => logError [] error) ;;
  detached (catch prepareStandbyRoom standbyRoomFailed).

Definition stop : M unit :=
  c <- gets this ;;
  match client c with
  | Some _ =>
      detached (catch (call ClientStop (clientStop env))
                      (fun error => logError [] error))
  | None => ret tt
  end.

(** ** Receiving *)

Definition isTextMessage (m : MatrixMessage) : bool :=
  match msgType m with
  | TEXT => true
  | OTHER => false
  end.

Definition isChannelOpenMessage (c : Client) (m : MatrixMessage) : bool :=
  String.prefix
    ("@channel-open:@" +:+ getHexHash env (fromHex env (getPublicKey c)))
    (content m).

Definition isSender (event : MessageEvent) (senderPublicKey : string) : bool :=
  String.prefix
    ("@" +:+ getHexHash env (fromHex env senderPublicKey))
    (sender (ev_message event)).

Definition longEnough (payload : string) : bool :=
  crypto_secretbox_NONCEBYTES + crypto_secretbox_MACBYTES
    <=? Z.of_nat (String.length payload).

(** The closure [callbackFunction] of [listenForEncryptedMessage]. *)
Definition encryptedMessageCallback (senderPublicKey sharedRx : string)
    (messageCallback : nat) (event : MessageEvent) : M unit :=
  if isTextMessage (ev_message event) && isSender event senderPublicKey then
    let payload := fromHex env (content (ev_message event)) in
    if longEnough payload then
      match decryptCryptoboxPayload env payload sharedRx with
      | Some decryptedMessage => emit (MessageCallback messageCallback decryptedMessage)
      | None => ret tt
      end
    else ret tt
  else ret tt.

Definition listenForEncryptedMessage (senderPublicKey : string) (messageCallback : nat)
  : M unit :=
  _ <- requireClient ;;
  c <- gets this ;;
  if bool_decide (is_Some (activeListeners c !! senderPublicKey)) then ret tt
  else
    let sharedRx :=
      sharedRx (createCryptoBoxServer env senderPublicKey (privateKey (keyPair c))) in
    let callbackFunction :=
      EncryptedMessageListener senderPublicKey sharedRx messageCallback in
    modifyWorld (setThis (fun t =>
      withActiveListeners (<[senderPublicKey := callbackFunction]> (activeListeners t)) t)) ;;
    emit (Subscribe MESSAGE callbackFunction) ;;
    time <- gets now ;;
    let lastEvent := initialEvent c in
    match lastEvent, lastEvent ≫= truthyTimestamp with
    | Some event, Some timestamp =>
        if time - timestamp <? 5 * 60 * 1000 then
          log ["listenForEncryptedMessage"; "Handling previous event"] ;;
          encryptedMessageCallback senderPublicKey sharedRx messageCallback event
        else log ["listenForEncryptedMessage"; "No previous event found"]
    | _, _ => log ["listenForEncryptedMessage"; "No previous event found"]
    end ;;
    match initialListener c with
    | Some l => emit (Unsubscribe MESSAGE (Some l))
    | None => ret tt
    end ;;
    modifyWorld (setThis (withInitialListener None)) ;;
    modifyWorld (setThis (withInitialEvent None)).

Definition unsubscribeFromEncryptedMessage (senderPublicKey : string) : M unit :=
  _ <- requireClient ;;
  c <- gets this ;;
  match activeListeners c !! senderPublicKey with
  | None => ret tt
  | Some l =>
      emit (Unsubscribe MESSAGE (Some l)) ;;
      modifyWorld (setThis (fun t =>
        withActiveListeners (delete senderPublicKey (activeListeners t)) t))
  end.

Definition unsubscribeFromEncryptedMessages : M unit :=
  _ <- requireClient ;;
  emit (Unsubscribe MESSAGE None) ;;
  modifyWorld (setThis (withActiveListeners ∅)).

(** The closure subscribed by [listenForChannelOpening]. *)
Definition channelOpeningCallback (messageCallback : nat) (event : MessageEvent)
  : M unit :=
  c <- gets this ;;
  if isTextMessage (ev_message event) && isChannelOpenMessage c (ev_message event) then
    log ["listenForChannelOpening"; "channel opening"; content (ev_message event)] ;;
    let payload := fromHex env (lastSegment "" (content (ev_message event))) in
    if longEnough payload then
      match openCryptobox env payload (publicKey (keyPair c)) (privateKey (keyPair c))
            ≫= parsePeerInfo env with
      | Some pairingResponse =>
          emit (PairingCallback messageCallback pairingResponse
                  (getSenderId env (info_publicKey pairingResponse)))
      | None => ret tt
      end
    else ret tt
  else ret tt.

Definition listenForChannelOpening (messageCallback : nat) : M unit :=
  _ <- requireClient ;;
  emit (Subscribe MESSAGE (ChannelOpeningListener messageCallback)).

(** ** Room routing *)

Definition getRelevantJoinedRoom (recipient : string) : M MatrixRoom :=
  _ <- requireClient ;;
  joined <- gets (fun w => joinedRooms env (trace w)) ;;
  log ["checking joined rooms"; recipient] ;;
  let relevantRooms :=
    List.filter (fun roomElement =>
                   existsb (fun member => String.eqb member recipient) (members roomElement))
                joined in
  match relevantRooms with
  | [] =>
      log ["getRelevantJoinedRoom"; "no relevant rooms found"] ;;
      standbyRoom <- getAndRemoveStandbyRoom ;;
      roomId <-
        (if Js.truthyOptString standbyRoom then
           log ["getRelevantJoinedRoom"; "using standby room"; template standbyRoom] ;;
           call (InviteToRooms recipient [template standbyRoom])
                (fun t => inviteToRooms env t recipient [template standbyRoom]) ;;
           ret (template standbyRoom)
         else
           log ["getRelevantJoinedRoom"; "creating new room"] ;;
           callValue (CreateTrustedPrivateRoom [recipient])
                     (fun t => createTrustedPrivateRoom env t [recipient])) ;;
      room <- query (GetRoomById roomId) (fun t => getRoomById env t roomId) ;;
      log ["getRelevantJoinedRoom"; id room] ;;
      ret room
  | room :: _ =>
      log ["getRelevantJoinedRoom"; "channel already open, reusing room " +:+ id room] ;;
      ret room
  end.

Definition getRelevantRoom (recipient : string) : M string :=
  roomIds <- gets (fun w => Storage.MATRIX_PEER_ROOM_IDS (storage w)) ;;
  roomId <-
    (if Js.truthyOptString (roomIds !! recipient) then ret (template (roomIds !! recipient))
     else
       log ["getRelevantRoom";
            "No room found for peer " +:+ recipient +:+ ", checking joined ones."] ;;
       room <- getRelevantJoinedRoom recipient ;;
       modifyWorld (setStorage
         (Storage.setPeerRoomIds (<[recipient := id room]> roomIds))) ;;
       ret (id room)) ;;
  log ["getRelevantRoom"; "Using room " +:+ roomId] ;;
  ret roomId.

(** [Object.entries(roomIds).filter(...).reduce(...)] *)
Definition withoutRoom (roomId : string) (roomIds : gmap string string)
  : gmap string string :=
  foldl (fun pv cv => <[cv.1 := cv.2]> pv) ∅
        (filter (fun entry => entry.2 <> roomId) (map_to_list roomIds)).

Definition deleteRoomIdFromRooms (roomId : string) : M unit :=
  roomIds <- gets (fun w => Storage.MATRIX_PEER_ROOM_IDS (storage w)) ;;
  let newRoomIds := withoutRoom roomId roomIds in
  modifyWorld (setStorage (Storage.setPeerRoomIds newRoomIds)).

(** ** Sending *)

(** [this.client.sendTextMessage(roomId, text)], not yet awaited. *)
Definition sendText (roomId text : string) : M unit :=
  call (SendTextMessage roomId text) (fun t => sendTextMessage env t roomId text).

(** The handler that [sendMessage] attaches to its first send. *)
Definition onSendError (roomId recipient encryptedMessage : string) (error : Js.Error)
  : M unit :=
  if Js.hasErrcode error "M_FORBIDDEN" then
    logError ["sendMessage"; "M_FORBIDDEN"] error ;;
    deleteRoomIdFromRooms roomId ;;
    newRoomId <- getRelevantRoom recipient ;;
    _ <- requireClient ;;
    detached (catch (sendText newRoomId encryptedMessage)
                    (fun error2 => logError ["sendMessage"; "inner error"] error2))
  else logError ["sendMessage"; "not forbidden"] error.

(** The world in which the handler of [sendMessage] resolves the room
    again: the failed send is in the trace, the error is logged and the
    failed room is out of the routing cache. *)
Definition evicted (roomId encryptedMessage : string) (error : Js.Error) (w : World)
  : World :=
  setStorage
    (Storage.setPeerRoomIds (withoutRoom roomId (Storage.MATRIX_PEER_ROOM_IDS (storage w))))
    (record (Log ["sendMessage"; "M_FORBIDDEN"] (Some error))
       (record (SendTextMessage roomId encryptedMessage) (drawn w))).

(** The recipient address of a peer. *)
Definition recipientOf (peer : PeerInfo) : string :=
  let recipientHash := getHexHash env (fromHex env (info_publicKey peer)) in
  recipientString recipientHash (template (info_relayServer peer)).

Definition sendMessage (message : string) (peer : PeerInfo) : M unit :=
  _ <- requireClient ;;
  c <- gets this ;;
  let sharedTx :=
    sharedTx (createCryptoBoxClient env (info_publicKey peer) (privateKey (keyPair c))) in
  let recipient := recipientOf peer in
  roomId <- getRelevantRoom recipient ;;
  n <- draw ;;
  let encryptedMessage := encryptCryptoboxPayload env message sharedTx n in
  detached (catch (sendText roomId encryptedMessage)
                  (onSendError roomId recipient encryptedMessage)).

(** The encrypted text [sendMessage] sends, drawn in world [w1]. *)
Definition encryptedFor (message : string) (peer : PeerInfo) (w w1 : World) : string :=
  encryptCryptoboxPayload env message
    (sharedTx (createCryptoBoxClient env (info_publicKey peer) (privateKey (keyPair (this w)))))
    (entropy w1).

(** The delay before the next poll of [waitForJoin]. *)
Definition pollDelay (retry : Z) : Z := 100 * (if 50 <? retry then 10 else 1).

(** The time [waitForJoin] still waits from a given retry count on when
    nobody joins: 100 ms for each count up to 50, 1 s for each up to 200. *)
Definition remainingWait (retry : Z) : Z :=
  if retry <=? 50 then (51 - retry) * 100 + 150 * 1000
  else if retry <=? 200 then (201 - retry) * 1000
  else 0.

Equations? waitForJoin (roomId : string) (retry : Z) : M unit
  by wf (Z.to_nat (201 - retry)) lt :=
  waitForJoin roomId retry :=
    _ <- requireClient ;;
    room <- query (GetRoomById roomId) (fun t => getRoomById env t roomId) ;;
    log ["waitForJoin";
         "Currently " +:+ pretty (length (members room)) +:+ " members, we need at least 2"] ;;
    if 2 <=? Z.of_nat (length (members room)) then ret tt
    else
      match Z_le_gt_dec retry 200 with
      | left _ =>
          log ["Waiting for join... Try: " +:+ pretty retry] ;;
          sleep (pollDelay retry) ;;
          waitForJoin roomId (retry + 1)
      | right _ =>
          throw (Js.newError ("No one joined after " +:+ pretty retry +:+ " tries."))
      end.
Proof. lia. Qed.

(** The world after one poll of [waitForJoin]. *)
Definition polled (roomId : string) (w : World) : World :=
  record (Log ["waitForJoin";
               "Currently " +:+ pretty (length (members (getRoomById env (trace w) roomId)))
               +:+ " members, we need at least 2"] None)
         (record (GetRoomById roomId) w).

(** The world when the next poll starts. *)
Definition rescheduled (roomId : string) (retry : Z) (w : World) : World :=
  elapse (pollDelay retry)
    (record (SetTimeout (pollDelay retry))
       (record (Log ["Waiting for join... Try: " +:+ pretty retry] None) (polled roomId w))).

Definition sendPairingResponse (pairingRequest : PeerInfo) : M unit :=
  _ <- requireClient ;;
  log ["sendPairingResponse"] ;;
  let recipient := recipientOf pairingRequest in
  roomId <- getRelevantRoom recipient ;;
  waitForJoin roomId 0 ;;
  c <- gets this ;;
  message <-
    match info_version pairingRequest with
    | None => ret (getPublicKey c)
    | Some _ =>
        info <- getPairingResponseInfo pairingRequest ;;
        ret (stringifyPeerInfo env info)
    end ;;
  n <- draw ;;
  let encryptedMessage :=
    encryptMessageAsymmetric env (info_publicKey pairingRequest) message n in
  detached (catch (sendText roomId (join ":" ["@channel-open"; recipient; encryptedMessage]))
                  (fun error => logError [] error)).

End Operations.

End P2P.

(* ===================================================================== *)
(** * The room merge of the specification, and concrete collaborators *)
(* ===================================================================== *)

Module MatrixRoomModel.
Import Matrix.

Definition statusEqb (a b : MatrixRoomStatus) : bool :=
  match a, b with
  | UNKNOWN, UNKNOWN | JOINED, JOINED | INVITED, INVITED | LEFT, LEFT => true
  | _, _ => false
  end.

(** The members of both rooms, each once, in order of first occurrence. *)
Fixpoint union (seen rest : list string) : list string :=
  match rest with
  | [] => seen
  | m :: more =>
      if existsb (String.eqb m) seen then union seen more else union (seen ++ [m]) more
  end.

(** Modelled from the spec: [MatrixRoom.merge], which is not part of the
    sources at hand: "per-room merge takes the newer status and unions
    members/messages, preserving history from the prior snapshot". *)
Definition merge (newState : MatrixRoom) (previousState : option MatrixRoom) : MatrixRoom :=
  match previousState with
  | None => newState
  | Some previous =>
      {| id := id newState;
         status := status newState;
         members := union [] (members previous ++ members newState);
         messages := messages previous ++ messages newState |}
  end.

End MatrixRoomModel.

Module Samples.
Import Matrix P2P.

(** A stand-in for the generic hash: a table on the strings the examples
    use, ["ff"] elsewhere. *)
Definition sampleHash (s : string) : string :=
  if String.eqb s "relay-a" then "10"
  else if String.eqb s "relay-b" then "30"
  else if String.eqb s "relay-a0" then "30"
  else if String.eqb s "relay-b0" then "10"
  else if String.eqb s "pk" then "12"
  else "ff".

Definition forbidden : Js.Error :=
  {| Js.message := "forbidden"; Js.errcode := Some "M_FORBIDDEN" |}.

Definition isSend (e : Effect) : bool :=
  match e with
  | SendTextMessage _ _ => true
  | _ => false
  end.

Definition isCreate (e : Effect) : bool :=
  match e with
  | CreateTrustedPrivateRoom _ => true
  | _ => false
  end.

(** A chat server that rejects the first text message as forbidden and
    every later one with [later], names the rooms it creates by their
    number, and in which every room has [memberCount] members. *)
Definition sampleEnv (later : option Js.Error) (memberCount : nat) : Env :=
  {| getHexHash := sampleHash;
     toHex := fun s => s;
     fromHex := fun s => s;
     createCryptoBoxClient := fun _ _ => mkSessionKeys "rx" "tx";
     createCryptoBoxServer := fun _ _ => mkSessionKeys "tx" "rx";
     encryptCryptoboxPayload := fun m k _ => k +:+ "|" +:+ m;
     decryptCryptoboxPayload := fun _ _ => None;
     openCryptobox := fun _ _ _ => None;
     encryptMessageAsymmetric := fun pk m _ => pk +:+ "|" +:+ m;
     crypto_generichash := sampleHash;
     crypto_sign_detached := fun d _ => d;
     generateGUID := fun n => "guid-" +:+ pretty n;
     getSenderId := fun s => s;
     BEACON_VERSION := "2";
     stringifyPeerInfo := fun i => info_type i +:+ "#" +:+ info_id i;
     parsePeerInfo := fun _ => None;
     joinRooms := fun _ _ => None;
     createTrustedPrivateRoom :=
       fun t _ => inr ("!room" +:+ pretty (length (List.filter isCreate t)));
     inviteToRooms := fun _ _ _ => None;
     sendTextMessage :=
       fun t _ _ => if existsb isSend t then later else Some forbidden;
     getRoomById := fun _ roomId => mkRoom roomId JOINED (replicate memberCount "@member") [];
     joinedRooms := fun _ => [];
     invitedRooms := fun _ => [];
     clientStart := fun _ => None;
     clientStop := fun _ => None |}.

Definition sampleKeyPair : KeyPair := mkKeyPair "pk" "sk".

(** A client over two relay servers, before [start]. *)
Definition sampleClient (wallet : bool) : Client :=
  P2P.new "dapp" sampleKeyPair 1 ["relay-a"; "relay-b"] None None wallet.

Definition started (c : Client) : Client :=
  withClient (Some (mkMatrixClient "https://relay-b")) c.

Definition samplePeer : PeerInfo :=
  mkPeerInfo "id-1" "p2p-pairing-request" "wallet" (Some "2") "peer" (Some "relay-a")
    None None.

Definition sampleWorld (c : Client) (ids : gmap string string) : World :=
  mkWorld c (Storage.setPeerRoomIds ids Storage.empty) 0 0 [].

(** A store of a new process over an empty storage. *)
Definition freshStore : MatrixClientStore.t :=
  MatrixClientStore.create MatrixRoomModel.merge [] Storage.empty.

(** [update({ rooms: [] })] *)
Definition emptyRoomsUpdate : MatrixClientStore.PartialState :=
  MatrixClientStore.mkPartial None None None None None None None None
    (Some (MatrixClientStore.RoomsArray [])).

Definition sampleMessage : MatrixMessage := mkMessage TEXT "@peer" "hello" 1.

Definition sampleRoom : MatrixRoom := mkRoom "!r" JOINED ["@a"; "@b"] [sampleMessage].

(** A store of a new process whose heap holds a room with one message,
    and the update that reports that room. *)
Definition storeWithRoomObject : MatrixClientStore.t :=
  MatrixClientStore.create MatrixRoomModel.merge [sampleRoom] Storage.empty.

Definition roomUpdate : MatrixClientStore.PartialState :=
  MatrixClientStore.mkPartial None None None None None None None None
    (Some (MatrixClientStore.RoomsArray [0%nat])).

(** A store that is running, with counters above zero. *)
Definition runningStore : MatrixClientStore.t :=
  MatrixClientStore.mkStore []
    (MatrixClientStore.mkState true (Some "@me") (Some "device") 7 (Some "token")
       (Some "s1") (Some 30000) 3 [])
    ∅ Storage.empty [] [].

(** An update that tries to stop the store and reset its counters. *)
Definition resetUpdate : MatrixClientStore.PartialState :=
  MatrixClientStore.mkPartial (Some false) (Some "") None (Some 0) None None (Some 0)
    (Some 0) None.

(** A client that was never started. *)
Definition idleWorld (wallet : bool) : World := sampleWorld (sampleClient wallet) ∅.

(** A started client without routing entries. *)
Definition startedWorld : World := sampleWorld (started (sampleClient false)) ∅.

(** A started client whose routing cache binds the sample peer and another
    recipient to the room [!old], and a third recipient to [!keep]. *)
Definition routedWorld : World :=
  sampleWorld (started (sampleClient false))
    (<["@ff:relay-a" := "!old"]> (<["@other:relay-a" := "!old"]> (<["@x:relay-a" := "!keep"]> ∅))).

End Samples.

(* ===================================================================== *)
(** * Statements of the specification that the code is compared with *)
(* ===================================================================== *)

Module Spec.
Import Matrix P2P.

(** "Tie-break: earliest in list wins": of two distinct servers that both
    attain the minimal distance, the one listed first is returned. *)
Definition earliestWinsOnTie (env : Env) (c : Client) (hash nonce : string) : Prop :=
  forall before s1 between s2 after d r,
    KNOWN_RELAY_SERVERS c = before ++ s1 :: between ++ s2 :: after ->
    s1 <> s2 ->
    distance env hash nonce s1 = Some d ->
    distance env hash nonce s2 = Some d ->
    Forall (fun s => exists ds, distance env hash nonce s = Some ds /\ d <= ds)
           (KNOWN_RELAY_SERVERS c) ->
    getRelayServer env c (Some hash) nonce = Some r ->
    r = s1.

(** "The blob written to persistent storage contains exactly the fields
    syncToken and rooms." *)
Definition hasExactlyPreservedFields (blob : JsonObject) : Prop :=
  forall key, key ∈ jsonKeys blob <-> key ∈ MatrixClientStore.PRESERVED_FIELDS.

(** "The update itself contained at least one of syncToken or rooms with a
    truthy value": a non-empty sync token, or any array or record of rooms. *)
Definition updatesPreservedField (p : MatrixClientStore.PartialState) : bool :=
  Js.truthyOptString (MatrixClientStore.p_syncToken p)
  || bool_decide (is_Some (MatrixClientStore.p_rooms p)).

(** "For every state-store update, the blob written to persistent storage
    contains exactly the fields syncToken and rooms." *)
Definition writesExactlyPreservedFields
    (merge : MatrixRoom -> option MatrixRoom -> MatrixRoom)
    (p : MatrixClientStore.PartialState) (w : MatrixClientStore.t) : Prop :=
  forall blob,
    MatrixClientStore.written (MatrixClientStore.update merge p w)
    = MatrixClientStore.written w ++ [blob] ->
    hasExactlyPreservedFields blob.

(** The rooms of a state as values, read through the heap. *)
Definition roomValues (h : Heap) (rooms : RoomRecord) : list (string * MatrixRoom) :=
  omap (fun kl => (fun r => (kl.1, r)) <$> h !! kl.2) rooms.

(** The preserved fields of a state, serialised with every room's messages
    cleared; a sync token that is undefined is left out. *)
Definition preservedBlob (h : Heap) (st : MatrixClientStore.MatrixStateStore)
  : JsonObject :=
  match MatrixClientStore.syncToken st with
  | Some token => [("syncToken", JStr token)]
  | None => []
  end ++
  [("rooms",
    JRoomRecord ((fun kr => (kr.1, clearMessages kr.2))
                   <$> roomValues h (MatrixClientStore.rooms st)))].

(** Every room a state refers to has an empty message list. *)
Definition noMessages (h : Heap) (rooms : RoomRecord) : Prop :=
  Forall (fun kl => exists r, h !! kl.2 = Some r /\ messages r = []) rooms.

(** "With the aggregate wait bounded as the spec states": the time that
    [waitForJoin] spends, from its first poll to its return or its error,
    is at most [limit] milliseconds. *)
Definition joinWaitWithin (limit : Z) (env : Env) (roomId : string) (w : World) : Prop :=
  forall r w', waitForJoin env roomId 0 w = (r, w') -> now w' - now w <= limit.

(** "Raises the NotReady error eagerly, before performing any other
    effect": the call throws and leaves the world as it was. *)
Definition raisesNotReady {A} (m : M A) (w : World) : Prop :=
  m w = (Thrown clientNotReadyError, w).

(** "Each of the ten operations raises NotReady when [this.client] is
    undefined." *)
Definition allRaiseNotReady (env : Env) (w : World) : Prop :=
  (forall roomId retry, raisesNotReady (tryJoinRooms env roomId retry) w) /\
  raisesNotReady (prepareStandbyRoom env) w /\
  raisesNotReady (getAndRemoveStandbyRoom env) w /\
  (forall sender callback, raisesNotReady (listenForEncryptedMessage env sender callback) w) /\
  (forall sender, raisesNotReady (unsubscribeFromEncryptedMessage sender) w) /\
  raisesNotReady unsubscribeFromEncryptedMessages w /\
  (forall message peer, raisesNotReady (sendMessage env message peer) w) /\
  (forall callback, raisesNotReady (listenForChannelOpening callback) w) /\
  (forall roomId retry, raisesNotReady (waitForJoin env roomId retry) w) /\
  (forall request, raisesNotReady (sendPairingResponse env request) w).

(** "[getPairingRequestInfo] returns a descriptor whose type is
    pairing-request, whose name, version and publicKey are the configured
    name, the library version and the hex public key, whose relayServer
    equals select(publicKeyHash, 0)." *)
Definition pairingRequestAsSpecified (env : Env) (w : World) : Prop :=
  exists info w',
    getPairingRequestInfo env w = (Ok info, w') /\
    info_type info = "pairing-request" /\
    info_name info = name (this w) /\
    info_version info = Some (BEACON_VERSION env) /\
    info_publicKey info = getPublicKey env (this w) /\
    info_relayServer info
    = getRelayServer env (this w) (Some (getPublicKeyHash env (this w))) "0".

(** "When the first send fails with M_FORBIDDEN, ... exactly one retry
    send of the same encrypted message is attempted": the text messages of
    the call are the failed send and one more, of the same text, into some
    room. *)
Definition retriesOnce (env : Env) (message : string) (peer : PeerInfo)
    (w : World) : Prop :=
  forall roomId w1 e,
    getRelevantRoom env (recipientOf env peer) w = (Ok roomId, w1) ->
    sendTextMessage env (trace w1) roomId (encryptedFor env message peer w w1) = Some e ->
    Js.hasErrcode e "M_FORBIDDEN" = true ->
    exists newRoomId,
      sentMessages (trace (sendMessage env message peer w).2)
      = sentMessages (trace w)
        ++ [(roomId, encryptedFor env message peer w w1);
            (newRoomId, encryptedFor env message peer w w1)].

End Spec.

(* ===================================================================== *)
(** * Further operations and notions of the state store *)
(* ===================================================================== *)

Module StoreShape.
Import Matrix MatrixClientStore.



(** A room record is well formed in a heap when no id occurs twice and
    every entry refers to an object of the heap that carries the id it is
    filed under. *)
Definition wellFormed (h : Heap) (rooms : RoomRecord) : Prop :=
  NoDup rooms.*1 /\
  Forall (fun kl => exists r, h !! kl.2 = Some r /\ id r = kl.1) rooms.

(** The room objects an update refers to. *)
Definition updateRooms (p : PartialState) : list loc :=
  match p_rooms p with
  | None => []
  | Some (RoomsArray rs) => rs
  | Some (RoomsRecord rs) => recordValues rs
  end.

(** Every reference of the update points to an object of the heap. *)
Definition refsValid (h : Heap) (p : PartialState) : Prop :=
  Forall (fun l => is_Some (h !! l)) (updateRooms p).

(** The ids of the rooms an update refers to. *)
Definition mentioned (h : Heap) (p : PartialState) : list string :=
  omap (fun l => id <$> h !! l) (updateRooms p).

(** The listener calls that [update] adds. *)
Definition newCalls (merge : MatrixRoom -> option MatrixRoom -> MatrixRoom)
    (p : PartialState) (w : t) : list Notification :=
  drop (length (notified w)) (notified (update merge p w)).

(** The keys of an update whose value is defined. *)
Definition definedKeys (p : PartialState) : list string := (entries p).*1.

End StoreShape.

Module StoreSamples.
Import Matrix MatrixClientStore.

Definition otherRoom : MatrixRoom := mkRoom "!other" INVITED ["@c"] [].

(** A store whose state holds the room [!r]; the heap also holds the
    objects of two sync responses, for [!r] and for [!other]. *)
Definition seenStore : t :=
  update MatrixRoomModel.merge
    (mkPartial None None None None None None None None (Some (RoomsArray [0%nat])))
    (create MatrixRoomModel.merge [Samples.sampleRoom; otherRoom] Storage.empty).

(** [update({ rooms: [other] })] *)
Definition otherUpdate : PartialState :=
  mkPartial None None None None None None None None (Some (RoomsArray [1%nat])).

(** [update({ rooms: [r, other, r] })] *)
Definition repeatedUpdate : PartialState :=
  mkPartial None None None None None None None None
    (Some (RoomsArray [0%nat; 1%nat; 0%nat])).

(** [update({ syncToken: 's2', rooms: [r] })] *)
Definition syncUpdate : PartialState :=
  mkPartial None None None None None (Some "s2") None None (Some (RoomsArray [0%nat])).


End StoreSamples.

Module ClientShape.
Import Matrix P2P.
Local Open Scope p2p_scope.

(** What a call added to the trace. *)
Definition since (w w' : World) : Trace := drop (length (trace w)) (trace w').

(** The calls of [client.joinRooms] in a trace. *)
Definition joinAttempts (t : Trace) : list (list string) :=
  omap (fun e => match e with JoinRooms roomIds => Some roomIds | _ => None end) t.

(** What one failed attempt of [tryJoinRooms] that is retried leaves in
    the trace: the rejected call, the log line and the timer of 200 ms
    that precedes the next attempt. *)
Definition retriedAttempt (roomId : string) (error : Js.Error) : Trace :=
  [JoinRooms [roomId]; Log ["Retrying to join..."] (Some error); SetTimeout 200].

(** The timers a trace sets, in order. *)
Definition timers (t : Trace) : list Z :=
  omap (fun e => match e with SetTimeout ms => Some ms | _ => None end) t.

(** The rooms a trace asks the chat server to create or to invite to. *)
Definition roomRequests (t : Trace) : list Effect :=
  List.filter (fun e => match e with
                        | CreateTrustedPrivateRoom _ | InviteToRooms _ _ => true
                        | _ => false
                        end) t.

(** The calls of a message callback in a trace. *)
Definition messageCallbacks (t : Trace) : list (nat * string) :=
  omap (fun e => match e with
                 | MessageCallback callback payload => Some (callback, payload)
                 | _ => None
                 end) t.

(** The events of a subscription, handed to a listener one after the
    other. *)
Fixpoint deliver (callback : MessageEvent -> M unit) (events : list MessageEvent)
  : M unit :=
  match events with
  | [] => ret tt
  | event :: rest => callback event ;; deliver callback rest
  end.

(** A string without a colon, as a hexadecimal string is. *)
Fixpoint colonFree (s : string) : bool :=
  match s with
  | EmptyString => true
  | String c rest => negb (Ascii.eqb c ":"%char) && colonFree rest
  end.

(** The login that [start] sends at time [time]. *)
Definition login (env : Env) (c : Client) (time : Z) : Effect :=
  ClientStart (getPublicKeyHash env c)
    ("ed:" +:+ toHex env (crypto_sign_detached env
                            (crypto_generichash env ("login:" +:+ pretty (time / 1000 / (5 * 60))))
                            (privateKey (keyPair c)))
     +:+ ":" +:+ getPublicKey env c)
    (toHex env (publicKey (keyPair c))).

End ClientShape.

Module ClientSamples.
Import Matrix P2P.

(** A chat server that accepts every call, on which the client already
    shares the room [!open] with the sample peer, and a cryptobox that
    opens every payload to itself. *)
Definition openEnv : Env :=
  {| getHexHash := Samples.sampleHash;
     toHex := fun s => s;
     fromHex := fun s => s;
     createCryptoBoxClient := fun _ _ => mkSessionKeys "rx" "tx";
     createCryptoBoxServer := fun _ _ => mkSessionKeys "tx" "rx";
     encryptCryptoboxPayload := fun m k _ => k +:+ "|" +:+ m;
     decryptCryptoboxPayload := fun payload _ => Some payload;
     openCryptobox := fun _ _ _ => None;
     encryptMessageAsymmetric := fun pk m _ => pk +:+ "|" +:+ m;
     crypto_generichash := Samples.sampleHash;
     crypto_sign_detached := fun d _ => d;
     generateGUID := fun n => "guid-" +:+ pretty n;
     getSenderId := fun s => s;
     BEACON_VERSION := "2";
     stringifyPeerInfo := fun i => info_type i +:+ "#" +:+ info_id i;
     parsePeerInfo := fun _ => None;
     joinRooms := fun _ _ => None;
     createTrustedPrivateRoom := fun _ _ => inr "!new";
     inviteToRooms := fun _ _ _ => None;
     sendTextMessage := fun _ _ _ => None;
     getRoomById := fun _ roomId => mkRoom roomId JOINED ["@me"; "@ff:relay-a"] [];
     joinedRooms := fun _ => [mkRoom "!open" JOINED ["@me"; "@ff:relay-a"] []];
     invitedRooms := fun _ => [];
     clientStart := fun _ => None;
     clientStop := fun _ => None |}.

(** The same chat server, except that it rejects the first three joins
    as forbidden. *)
Definition reluctantEnv : Env :=
  {| getHexHash := getHexHash openEnv;
     toHex := toHex openEnv;
     fromHex := fromHex openEnv;
     createCryptoBoxClient := createCryptoBoxClient openEnv;
     createCryptoBoxServer := createCryptoBoxServer openEnv;
     encryptCryptoboxPayload := encryptCryptoboxPayload openEnv;
     decryptCryptoboxPayload := decryptCryptoboxPayload openEnv;
     openCryptobox := openCryptobox openEnv;
     encryptMessageAsymmetric := encryptMessageAsymmetric openEnv;
     crypto_generichash := crypto_generichash openEnv;
     crypto_sign_detached := crypto_sign_detached openEnv;
     generateGUID := generateGUID openEnv;
     getSenderId := getSenderId openEnv;
     BEACON_VERSION := BEACON_VERSION openEnv;
     stringifyPeerInfo := stringifyPeerInfo openEnv;
     parsePeerInfo := parsePeerInfo openEnv;
     joinRooms :=
       fun t _ =>
         if (length (ClientShape.joinAttempts t) <? 3)%nat then Some Samples.forbidden
         else None;
     createTrustedPrivateRoom := createTrustedPrivateRoom openEnv;
     inviteToRooms := inviteToRooms openEnv;
     sendTextMessage := sendTextMessage openEnv;
     getRoomById := getRoomById openEnv;
     joinedRooms := joinedRooms openEnv;
     invitedRooms := invitedRooms openEnv;
     clientStart := clientStart openEnv;
     clientStop := clientStop openEnv |}.

(** A started wallet with a standby room in storage. *)
Definition walletWorld : World :=
  mkWorld (Samples.started (Samples.sampleClient true))
    (Storage.setStandby (Some "!standby") Storage.empty) 0 0 [].

(** A message of the sample peer that is long enough to be a cryptobox
    payload, and the event that carries it. *)
Definition earlyMessage : MatrixMessage :=
  mkMessage TEXT "@ff:relay-a" "000102030405060708090a0b0c0d0e0f1011121314151617" 1000.

Definition earlyEvent (time : Z) : MessageEvent :=
  mkMessageEvent "!open" earlyMessage (Some time).

(** A started client, one minute after the initial listener kept an
    event. *)
Definition earlyWorld : World :=
  mkWorld (withInitialListener (Some InitialListener)
             (withInitialEvent (Some (earlyEvent 1000))
                (Samples.started (Samples.sampleClient false))))
    Storage.empty 61000 0 [].

(** A pairing request of protocol version 1, from a peer whose relay
    server is given with a port. *)
Definition oldRequest : PeerInfo :=
  mkPeerInfo "id-0" "p2p-pairing-request" "dapp" None "pk" (Some "relay-a:8448") None None.

End ClientSamples.

(* ===================================================================== *)
(** * The client with replicas (transports/clients/P2PCommunicationClient.ts) *)
(* ===================================================================== *)

(** The revision of the client that logs in once per replica and keeps one
    chat client for each. *)
Module Replicated.
Import Matrix.

(** The object that [getHandshakeInfo] returns. *)
Record HandshakeInfo := mkHandshakeInfo {
  hs_name : string;
  hs_version : string;
  hs_publicKey : string;
  hs_relayServer : option string
}.

(** What the instance does to the outside: a line on the console, or a
    call on one of its chat clients, named by its position in
    [this.clients]. *)
Inductive Effect :=
| Console (args : list string) (error : option Js.Error)
| At (client : nat) (e : P2P.Effect)
| UnhandledRejection (error : Js.Error).

Abbreviation Trace := (list Effect).

(** The collaborators: the crypto helpers and constants (those of
    [P2P.Env], whose chat server is not used here), the sealed box, and the
    chat servers, one behaviour per chat client. *)
Record Env := mkEnv {
  crypto : P2P.Env;
  sealCryptobox : string -> string -> nat -> string;
  stringifyHandshakeInfo : HandshakeInfo -> string;
  clientStart : nat -> Trace -> option Js.Error;
  joinRooms : nat -> Trace -> list string -> option Js.Error;
  invitedRooms : nat -> Trace -> list string;
  joinedRooms : nat -> Trace -> list MatrixRoom;
  createTrustedPrivateRoom : nat -> Trace -> list string -> Js.Error + string;
  getRoomById : nat -> Trace -> string -> MatrixRoom;
  sendTextMessage : nat -> Trace -> string -> string -> option Js.Error
}.

(** The instance: constructor parameters and private fields. *)
Record Client := mkClient {
  name : string;
  keyPair : P2P.KeyPair;
  replicationCount : Z;
  KNOWN_RELAY_SERVERS : list string;
  debug : bool;
  clients : list P2P.MatrixClient;
  activeListeners : gmap string P2P.Listener
}.

(** The module constant of the same name. *)
Definition DEFAULT_RELAY_SERVERS : list string :=
  ["matrix.papers.tech"; "matrix-dev.papers.tech"].

(** [new P2PCommunicationClient(name, keyPair, replicationCount, storage,
    matrixNodes, debug)] *)
Definition new (name : string) (keyPair : P2P.KeyPair) (replicationCount : Z)
    (matrixNodes : list string) (debug : bool) : Client :=
  {| name := name; keyPair := keyPair; replicationCount := replicationCount;
     KNOWN_RELAY_SERVERS :=
       if 0 <? Z.of_nat (length matrixNodes) then matrixNodes else DEFAULT_RELAY_SERVERS;
     debug := debug; clients := []; activeListeners := ∅ |}.

Record World := mkWorld {
  this : Client;
  now : Z;
  entropy : nat;
  trace : Trace
}.

Definition withClients (cs : list P2P.MatrixClient) (t : Client) : Client :=
  mkClient (name t) (keyPair t) (replicationCount t) (KNOWN_RELAY_SERVERS t) (debug t)
    cs (activeListeners t).
Definition withActiveListeners (ls : gmap string P2P.Listener) (t : Client) : Client :=
  mkClient (name t) (keyPair t) (replicationCount t) (KNOWN_RELAY_SERVERS t) (debug t)
    (clients t) ls.

Definition setThis (f : Client -> Client) (w : World) : World :=
  mkWorld (f (this w)) (now w) (entropy w) (trace w).

(** ** The monad of asynchronous, throwing, mutating code *)

Definition M (A : Type) : Type := World -> P2P.Result A * World.

Definition ret {A} (a : A) : M A := fun w => (P2P.Ok a, w).

Definition bind {A B} (m : M A) (k : A -> M B) : M B :=
  fun w =>
    match m w with
    | (P2P.Ok a, w1) => k a w1
    | (P2P.Thrown e, w1) => (P2P.Thrown e, w1)
    end.

Definition catch {A} (m : M A) (handler : Js.Error -> M A) : M A :=
  fun w =>
    match m w with
    | (P2P.Ok a, w1) => (P2P.Ok a, w1)
    | (P2P.Thrown e, w1) => handler e w1
    end.

Definition gets {A} (f : World -> A) : M A := fun w => (P2P.Ok (f w), w).
Definition modifyWorld (f : World -> World) : M unit := fun w => (P2P.Ok tt, f w).

Definition record (e : Effect) (w : World) : World :=
  mkWorld (this w) (now w) (entropy w) (trace w ++ [e]).

Definition emit (e : Effect) : M unit := modifyWorld (record e).

Definition drawn (w : World) : World :=
  mkWorld (this w) (now w) (S (entropy w)) (trace w).

Definition draw : M nat := fun w => (P2P.Ok (entropy w), drawn w).

(** A call on a chat client that resolves to nothing or rejects. *)
Definition call (e : Effect) (answer : Trace -> option Js.Error) : M unit :=
  fun w =>
    match answer (trace w) with
    | None => (P2P.Ok tt, record e w)
    | Some err => (P2P.Thrown err, record e w)
    end.

(** A call on a chat client that resolves to a value or rejects. *)
Definition callValue {A} (e : Effect) (answer : Trace -> Js.Error + A) : M A :=
  fun w =>
    match answer (trace w) with
    | inr a => (P2P.Ok a, record e w)
    | inl err => (P2P.Thrown err, record e w)
    end.

(** A read of a chat client's memory. *)
Definition query {A} (e : Effect) (answer : Trace -> A) : M A :=
  fun w => (P2P.Ok (answer (trace w)), record e w).

Declare Scope replicated_scope.
Delimit Scope replicated_scope with replicated.
Notation "x <- m ;; k" := (bind m (fun x => k))
  (at level 100, m at next level, right associativity) : replicated_scope.
Notation "m ;; k" := (bind m (fun _ => k))
  (at level 100, right associativity) : replicated_scope.
Local Open Scope replicated_scope.

(** A promise that nobody awaits, run at the place where it is started;
    an error it ends with never reaches the caller. *)
Definition detached (m : M unit) : M unit :=
  catch m (fun e => emit (UnhandledRejection e)).

(** [for (const x of xs) { await body(x) }] *)
Fixpoint forEach {A} (xs : list A) (body : A -> M unit) : M unit :=
  match xs with
  | [] => ret tt
  | x :: rest => body x ;; forEach rest body
  end.

(** The values of [i] in [for (let i = 0; i < n; i++)]. *)
Definition upTo (n : Z) : list Z := Z.of_nat <$> seq 0 (Z.to_nat n).

(** The text messages a trace hands to the chat clients, in order. *)
Definition sentMessages (t : Trace) : list (nat * string * string) :=
  omap (fun e => match e with
                 | At k (P2P.SendTextMessage roomId message) => Some (k, roomId, message)
                 | _ => None
                 end) t.

(** The subscriptions a trace makes on the chat clients. *)
Definition subscriptions (t : Trace) : list (nat * P2P.Listener) :=
  omap (fun e => match e with
                 | At k (P2P.Subscribe _ l) => Some (k, l)
                 | _ => None
                 end) t.

(** What a call added to the trace. *)
Definition since (w w' : World) : Trace := drop (length (trace w)) (trace w').

(** A computation that leaves the instance as it is, subscribes nothing
    and sends no text message. *)
Definition silent {A} (m : M A) : Prop :=
  forall w r w',
    m w = (r, w') ->
    this w' = this w /\
    exists es, trace w' = trace w ++ es /\ sentMessages es = [] /\ subscriptions es = [].

Section Operations.

Variable env : Env.

(** [this.log(...args)]: a line on the console in debug mode only. *)
Definition log (args : list string) : M unit :=
  c <- gets this ;;
  if debug c then emit (Console args None) else ret tt.

Definition logError (error : Js.Error) : M unit :=
  c <- gets this ;;
  if debug c then emit (Console [] (Some error)) else ret tt.

(** Modelled from the spec: [getPublicKey] and [getPublicKeyHash] of the
    base class [CommunicationClient], "[publicKey] (hex),
    [publicKeyHash] (32-byte generic hash of the public key, hex)". *)
Definition getPublicKey (c : Client) : string :=
  P2P.toHex (crypto env) (P2P.publicKey (keyPair c)).
Definition getPublicKeyHash (c : Client) : string :=
  P2P.getHexHash (crypto env) (P2P.publicKey (keyPair c)).

Definition getAbsoluteBigIntDifference (firstHash secondHash : string) : BigNumber.t :=
  let difference :=
    BigNumber.minus (BigNumber.ofHex firstHash) (BigNumber.ofHex secondHash) in
  BigNumber.absoluteValue difference.

Definition getRelayServer (c : Client) (publicKeyHash : option string) (nonce : string)
  : option string :=
  let hash :=
    match publicKeyHash with
    | Some h =>
        if Js.truthyString h then h
        else P2P.getHexHash (crypto env) (P2P.publicKey (keyPair c))
    | None => P2P.getHexHash (crypto env) (P2P.publicKey (keyPair c))
    end in
  match KNOWN_RELAY_SERVERS c with
  | [] => None
  | first :: _ =>
      Some (foldl (fun prev curr =>
                     let prevRelayServerHash := P2P.getHexHash (crypto env) (prev +:+ nonce) in
                     let currRelayServerHash := P2P.getHexHash (crypto env) (curr +:+ nonce) in
                     let prevBigInt := getAbsoluteBigIntDifference hash prevRelayServerHash in
                     let currBigInt := getAbsoluteBigIntDifference hash currRelayServerHash in
                     if BigNumber.isLessThan prevBigInt currBigInt then prev else curr)
                  first (KNOWN_RELAY_SERVERS c))
  end.

Definition getHandshakeInfo (c : Client) : HandshakeInfo :=
  {| hs_name := name c;
     hs_version := P2P.BEACON_VERSION (crypto env);
     hs_publicKey := getPublicKey c;
     hs_relayServer := getRelayServer c None "" |}.

(** The chat client that [start] creates in round [i]. *)
Definition replica (c : Client) (i : Z) : P2P.MatrixClient :=
  {| P2P.baseUrl :=
       "https://" +:+ P2P.template (getRelayServer c (Some (getPublicKeyHash c)) (pretty i)) |}.

(** The login that [start] sends on the chat client at position [k]. *)
Definition login (c : Client) (time : Z) (k : nat) : Effect :=
  let loginRawDigest :=
    P2P.crypto_generichash (crypto env) ("login:" +:+ pretty (time / 1000 / (5 * 60))) in
  let rawSignature :=
    P2P.crypto_sign_detached (crypto env) loginRawDigest (P2P.privateKey (keyPair c)) in
  At k (P2P.ClientStart (getPublicKeyHash c)
          ("ed:" +:+ P2P.toHex (crypto env) rawSignature +:+ ":" +:+ getPublicKey c)
          (P2P.toHex (crypto env) (P2P.publicKey (keyPair c)))).

(** The body of the loop of [start]. *)
Definition connect (time : Z) (i : Z) : M unit :=
  c <- gets this ;;
  let relayServer := getRelayServer c (Some (getPublicKeyHash c)) (pretty i) in
  let k := length (clients c) in
  emit (At k (P2P.Subscribe P2P.INVITE P2P.InviteListener)) ;;
  log ["login"; getPublicKeyHash c; "on"; P2P.template relayServer] ;;
  log ["pubkey"; getPublicKey c] ;;
  log ["pubkeyHash"; getPublicKeyHash c] ;;
  catch (call (login c time k) (clientStart env k)) logError ;;
  invited <- gets (fun w => invitedRooms env k (trace w)) ;;
  log ["Invited to " +:+ pretty (length invited) +:+ " rooms. Attempting to join"] ;;
  catch (call (At k (P2P.JoinRooms invited)) (fun t => joinRooms env k t invited)) logError ;;
  modifyWorld (setThis (fun t => withClients (clients t ++ [replica c i]) t)).

Definition start : M unit :=
  log ["starting client"] ;;
  time <- gets now ;;
  c <- gets this ;;
  log ["connecting to " +:+ pretty (replicationCount c) +:+ " servers"] ;;
  forEach (upTo (replicationCount c)) (connect time).

(** [for (const client of this.clients)], by position. *)
Definition eachClient (body : nat -> M unit) : M unit :=
  c <- gets this ;;
  forEach (seq 0 (length (clients c))) body.

Definition listenForEncryptedMessage (senderPublicKey : string) (messageCallback : nat)
  : M unit :=
  c <- gets this ;;
  if bool_decide (is_Some (activeListeners c !! senderPublicKey)) then ret tt
  else
    let sharedRx :=
      P2P.sharedRx (P2P.createCryptoBoxServer (crypto env) senderPublicKey
                      (P2P.privateKey (keyPair c))) in
    let callbackFunction :=
      P2P.EncryptedMessageListener senderPublicKey sharedRx messageCallback in
    modifyWorld (setThis (fun t =>
      withActiveListeners (<[senderPublicKey := callbackFunction]> (activeListeners t)) t)) ;;
    eachClient (fun k => emit (At k (P2P.Subscribe P2P.MESSAGE callbackFunction))).

Definition unsubscribeFromEncryptedMessage (senderPublicKey : string) : M unit :=
  c <- gets this ;;
  match activeListeners c !! senderPublicKey with
  | None => ret tt
  | Some l =>
      eachClient (fun k => emit (At k (P2P.Unsubscribe P2P.MESSAGE (Some l)))) ;;
      modifyWorld (setThis (fun t =>
        withActiveListeners (delete senderPublicKey (activeListeners t)) t))
  end.

Definition unsubscribeFromEncryptedMessages : M unit :=
  eachClient (fun k => emit (At k (P2P.Unsubscribe P2P.MESSAGE None))) ;;
  modifyWorld (setThis (withActiveListeners ∅)).

Definition listenForChannelOpening (messageCallback : nat) : M unit :=
  eachClient (fun k =>
    emit (At k (P2P.Subscribe P2P.MESSAGE (P2P.ChannelOpeningListener messageCallback)))).

(** [getRelevantRoom(client, recipient)], for the chat client at position
    [k]. *)
Definition getRelevantRoom (k : nat) (recipient : string) : M MatrixRoom :=
  joined <- gets (fun w => joinedRooms env k (trace w)) ;;
  log ["joined rooms"] ;;
  let relevantRooms :=
    List.filter (fun roomElement =>
                   existsb (fun member => String.eqb member recipient) (members roomElement))
                joined in
  match relevantRooms with
  | [] =>
      log ["no relevant rooms found"] ;;
      roomId <- callValue (At k (P2P.CreateTrustedPrivateRoom [recipient]))
                          (fun t => createTrustedPrivateRoom env k t [recipient]) ;;
      query (At k (P2P.GetRoomById roomId)) (fun t => getRoomById env k t roomId)
  | room :: _ =>
      log ["channel already open, reusing room " +:+ id room] ;;
      ret room
  end.

(** The address [sendMessage] sends to: the server is chosen by the name
    of the instance. *)
Definition recipientOf (c : Client) (recipientPublicKey : string) : string :=
  let recipientHash :=
    P2P.getHexHash (crypto env) (P2P.fromHex (crypto env) recipientPublicKey) in
  P2P.recipientString recipientHash
    (if String.eqb (name c) "Alice" then "matrix-dev.papers.tech" else "matrix.papers.tech").

(** The body of the inner loop of [sendMessage]. *)
Definition sendOn (message sharedTx recipient : string) (k : nat) : M unit :=
  room <- getRelevantRoom k recipient ;;
  log ["found relevant room"; id room] ;;
  n <- draw ;;
  let encryptedMessage := P2P.encryptCryptoboxPayload (crypto env) message sharedTx n in
  log ["sending"; encryptedMessage] ;;
  detached (catch (call (At k (P2P.SendTextMessage (id room) encryptedMessage))
                        (fun t => sendTextMessage env k t (id room) encryptedMessage))
                  logError).

Definition sendMessage (recipientPublicKey message : string) : M unit :=
  c <- gets this ;;
  let sharedTx :=
    P2P.sharedTx (P2P.createCryptoBoxClient (crypto env) recipientPublicKey
                    (P2P.privateKey (keyPair c))) in
  forEach (upTo (replicationCount c)) (fun _ =>
    let recipient := recipientOf c recipientPublicKey in
    log ["sending to:"; recipient] ;;
    eachClient (sendOn message sharedTx recipient)).

(** The body of the loop of [sendPairingResponse]. *)
Definition respondOn (recipientPublicKey recipient : string) (k : nat) : M unit :=
  room <- getRelevantRoom k recipient ;;
  c <- gets this ;;
  n <- draw ;;
  let encryptedMessage :=
    sealCryptobox env (stringifyHandshakeInfo env (getHandshakeInfo c))
      (P2P.fromHex (crypto env) recipientPublicKey) n in
  detached (catch (call (At k (P2P.SendTextMessage (id room)
                                 (P2P.join ":" ["@channel-open"; recipient; encryptedMessage])))
                        (fun t => sendTextMessage env k t (id room)
                                    (P2P.join ":" ["@channel-open"; recipient; encryptedMessage])))
                  logError).

Definition sendPairingResponse (recipientPublicKey relayServer : string) : M unit :=
  log ["open channel"] ;;
  let recipientHash :=
    P2P.getHexHash (crypto env) (P2P.fromHex (crypto env) recipientPublicKey) in
  let recipient := P2P.recipientString recipientHash relayServer in
  c <- gets this ;;
  log ["currently there are " +:+ pretty (length (clients c)) +:+ " clients open"] ;;
  eachClient (respondOn recipientPublicKey recipient).

End Operations.

End Replicated.

Module ReplicatedSamples.
Import Matrix Replicated.

(** Chat servers that accept every call and create every room, named by
    the recipient. *)
Definition sampleEnv : Env :=
  {| crypto := Samples.sampleEnv None 1;
     sealCryptobox := fun message publicKey _ => publicKey +:+ "|" +:+ message;
     stringifyHandshakeInfo := fun info => hs_name info +:+ "#" +:+ hs_publicKey info;
     clientStart := fun _ _ => None;
     joinRooms := fun _ _ _ => None;
     invitedRooms := fun _ _ => [];
     joinedRooms := fun _ _ => [];
     createTrustedPrivateRoom := fun _ _ invitees => inr ("!" +:+ P2P.join "," invitees);
     getRoomById := fun _ _ roomId => mkRoom roomId JOINED [] [];
     sendTextMessage := fun _ _ _ _ => None |}.

(** A client with two replicas over two relay servers, before and after
    [start]. *)
Definition freshWorld : World :=
  mkWorld (new "Alice" Samples.sampleKeyPair 2 ["relay-a"; "relay-b"] false) 0 0 [].

Definition startedWorld : World := (start sampleEnv freshWorld).2.

End ReplicatedSamples.

Module RecoverySamples.
Import Matrix P2P.

(** The sample chat server with other answers to the creation of rooms and
    to the question which rooms are joined. *)
Definition withRooms (create : Trace -> list string -> Js.Error + string)
    (joined : Trace -> list MatrixRoom) (e : Env) : Env :=
  {| getHexHash := getHexHash e;
     toHex := toHex e;
     fromHex := fromHex e;
     createCryptoBoxClient := createCryptoBoxClient e;
     createCryptoBoxServer := createCryptoBoxServer e;
     encryptCryptoboxPayload := encryptCryptoboxPayload e;
     decryptCryptoboxPayload := decryptCryptoboxPayload e;
     openCryptobox := openCryptobox e;
     encryptMessageAsymmetric := encryptMessageAsymmetric e;
     crypto_generichash := crypto_generichash e;
     crypto_sign_detached := crypto_sign_detached e;
     generateGUID := generateGUID e;
     getSenderId := getSenderId e;
     BEACON_VERSION := BEACON_VERSION e;
     stringifyPeerInfo := stringifyPeerInfo e;
     parsePeerInfo := parsePeerInfo e;
     joinRooms := joinRooms e;
     createTrustedPrivateRoom := create;
     inviteToRooms := inviteToRooms e;
     sendTextMessage := sendTextMessage e;
     getRoomById := getRoomById e;
     joinedRooms := joined;
     invitedRooms := invitedRooms e;
     clientStart := clientStart e;
     clientStop := clientStop e |}.

Definition unavailable : Js.Error :=
  {| Js.message := "unavailable"; Js.errcode := Some "M_LIMIT_EXCEEDED" |}.

(** A chat server that rejects the first text message as forbidden and
    creates no room. *)
Definition closedEnv : Env :=
  withRooms (fun _ _ => inl unavailable) (fun _ => []) (Samples.sampleEnv None 1).

(** A chat server that rejects the first text message as forbidden and
    still lists the room [!old] as joined, with the sample peer in it. *)
Definition stuckEnv : Env :=
  withRooms (createTrustedPrivateRoom (Samples.sampleEnv None 1))
    (fun _ => [mkRoom "!old" JOINED ["@me"; "@ff:relay-a"] []])
    (Samples.sampleEnv None 1).

End RecoverySamples.

(* ===================================================================== *)
(** * Properties of relay selection *)
(* ===================================================================== *)

Section RelaySelection.
Import P2P.

Variable env : Env.

Lemma digits_nonneg digit s : forall acc n,
  (forall c d, digit c = Some d -> 0 <= d) ->
  0 <= acc -> BigNumber.digits digit acc s = Some n -> 0 <= n.
Proof.
  induction s as [|c s IH]; intros acc n Hd Hacc; simpl.
  - intros [= <-]. exact Hacc.
  - destruct (digit c) as [d|] eqn:Hc; [|discriminate].
    intros H. eapply IH; [exact Hd| |exact H].
    specialize (Hd _ _ Hc). lia.
Qed.

Lemma digitLower_nonneg c d : BigNumber.digitLower c = Some d -> 0 <= d.
Proof.
  unfold BigNumber.digitLower.
  repeat case_match; intros [= <-]; lia.
Qed.

Lemma digitUpper_nonneg c d : BigNumber.digitUpper c = Some d -> 0 <= d.
Proof.
  unfold BigNumber.digitUpper.
  repeat case_match; intros [= <-]; lia.
Qed.

(** A hexadecimal string denotes a nonnegative integer. *)
Lemma ofHex_nonneg s n : BigNumber.ofHex s = Some n -> 0 <= n.
Proof.
  unfold BigNumber.ofHex. destruct s as [|c s]; [discriminate|].
  destruct (BigNumber.digits BigNumber.digitLower 0 (String c s)) as [m|] eqn:Hl.
  - intros [= <-]. eapply digits_nonneg; [apply digitLower_nonneg| |exact Hl]. lia.
  - intros Hu. eapply digits_nonneg; [apply digitUpper_nonneg| |exact Hu]. lia.
Qed.

Lemma ofHex_truthy s n : BigNumber.ofHex s = Some n -> Js.truthyString s = true.
Proof. destruct s; [discriminate|reflexivity]. Qed.

(** The distance between two hexadecimal strings is the absolute value of
    the difference of the integers they denote. *)
Lemma distance_hex hash nonce server h hs :
  BigNumber.ofHex hash = Some h ->
  BigNumber.ofHex (getHexHash env (server +:+ nonce)) = Some hs ->
  distance env hash nonce server = Some (Z.abs (h - hs)).
Proof.
  intros Hh Hs. unfold distance, getAbsoluteBigIntDifference.
  rewrite Hh, Hs. reflexivity.
Qed.

(** A left fold that keeps the previous element only when it is strictly
    smaller ends on the last of the smallest elements. *)
Lemma foldl_keeps_last_minimum (d : string -> Z) (P : string -> Prop)
    (step : string -> string -> string) :
  (forall p c, P p -> P c -> step p c = if d p <? d c then p else c) ->
  forall l acc, P acc -> Forall P l ->
    P (foldl step acc l) /\
    ((foldl step acc l = acc /\ Forall (fun s => d acc < d s) l) \/
     (exists l1 l2, l = l1 ++ foldl step acc l :: l2 /\
        d (foldl step acc l) <= d acc /\
        Forall (fun s => d (foldl step acc l) <= d s) l1 /\
        Forall (fun s => d (foldl step acc l) < d s) l2)).
Proof.
  intros Hstep l. induction l as [|x l IH] using rev_ind; intros acc Hacc Hl.
  - simpl. split; [exact Hacc|]. left. split; [reflexivity|constructor].
  - apply Forall_app in Hl as [Hl Hx]. apply Forall_inv in Hx.
    destruct (IH acc Hacc Hl) as [Hr Hcases].
    rewrite foldl_snoc. rewrite (Hstep _ _ Hr Hx).
    destruct (Z.ltb_spec (d (foldl step acc l)) (d x)) as [Hlt|Hge].
    + split; [exact Hr|].
      destruct Hcases as [[Heq Hall]|(l1 & l2 & Hsplit & Hle & H1 & H2)].
      * left. split; [exact Heq|].
        apply Forall_app. split; [exact Hall|].
        constructor; [|constructor]. rewrite Heq in Hlt. exact Hlt.
      * right. exists l1, (l2 ++ [x]). repeat split.
        -- rewrite Hsplit at 1. rewrite <- app_assoc. reflexivity.
        -- exact Hle.
        -- exact H1.
        -- apply Forall_app. split; [exact H2|]. constructor; [exact Hlt|constructor].
    + split; [exact Hx|]. right. exists l, []. repeat split.
      * destruct Hcases as [[Heq _]|(_ & _ & _ & Hle & _)]; [rewrite Heq in Hge|]; lia.
      * destruct Hcases as [[Heq Hall]|(l1 & l2 & Hsplit & Hle & H1 & H2)].
        -- eapply Forall_impl; [exact Hall|]. intros s Hs. simpl in Hs.
           rewrite Heq in Hge. lia.
        -- rewrite Hsplit. apply Forall_app. split.
           ++ eapply Forall_impl; [exact H1|]. intros s Hs. simpl in Hs. lia.
           ++ constructor; [lia|].
              eapply Forall_impl; [exact H2|]. intros s Hs. simpl in Hs. lia.
      * constructor.
Qed.

Variables (hash nonce : string) (h : Z).
Hypothesis hash_hex : BigNumber.ofHex hash = Some h.

Local Abbreviation distanceZ := (P2P.distanceZ env hash nonce).
Local Abbreviation hashed := (P2P.hashed env nonce).

Lemma reducer_compares prev curr :
  hashed prev -> hashed curr ->
  reducer env hash nonce prev curr
  = if distanceZ prev <? distanceZ curr then prev else curr.
Proof.
  intros [hp Hp] [hc Hc]. unfold reducer, P2P.distanceZ.
  fold (distance env hash nonce prev). fold (distance env hash nonce curr).
  rewrite (distance_hex _ _ _ _ _ hash_hex Hp), (distance_hex _ _ _ _ _ hash_hex Hc).
  reflexivity.
Qed.

Lemma reducer_same server : reducer env hash nonce server server = server.
Proof. unfold reducer. case_match; reflexivity. Qed.

(** Where the selected server stands in the list: nothing before it is
    closer, everything after it is strictly farther. *)
Lemma getRelayServer_position (c : Client) :
  KNOWN_RELAY_SERVERS c <> [] ->
  Forall hashed (KNOWN_RELAY_SERVERS c) ->
  exists r l1 l2,
    getRelayServer env c (Some hash) nonce = Some r /\
    KNOWN_RELAY_SERVERS c = l1 ++ r :: l2 /\
    Forall (fun s => distanceZ r <= distanceZ s) l1 /\
    Forall (fun s => distanceZ r < distanceZ s) l2.
Proof.
  intros Hne Hall. unfold getRelayServer.
  rewrite (ofHex_truthy _ _ hash_hex).
  destruct (KNOWN_RELAY_SERVERS c) as [|first rest]; [congruence|].
  simpl. rewrite reducer_same.
  apply Forall_cons in Hall as [Hfirst Hrest].
  destruct (foldl_keeps_last_minimum distanceZ hashed (reducer env hash nonce)
              reducer_compares rest first Hfirst Hrest) as [_ Hcases].
  destruct Hcases as [[Heq Hgt]|(l1 & l2 & Hsplit & Hle & H1 & H2)].
  - exists first, [], rest. rewrite Heq. repeat split; [constructor|exact Hgt].
  - eexists _, (first :: l1), l2. repeat split.
    + simpl. f_equal. exact Hsplit.
    + constructor; [exact Hle|exact H1].
    + exact H2.
Qed.

End RelaySelection.

(** C1: for a non-empty server list, a hexadecimal hash and a nonce under
    which every server hashes to a hexadecimal string, [getRelayServer]
    returns a server of the list whose hash, read as a nonnegative integer,
    is at minimal absolute distance from the hash; clients with the same
    server list get the same server for the same hash and nonce; and with
    the single server [matrix.papers.tech] every call returns it. *)
Theorem getRelayServer_selects_closest (env : P2P.Env) (c : P2P.Client)
    (hash nonce : string) (h : Z) :
  P2P.KNOWN_RELAY_SERVERS c <> [] ->
  BigNumber.ofHex hash = Some h ->
  Forall (P2P.hashed env nonce) (P2P.KNOWN_RELAY_SERVERS c) ->
  (exists r hr,
      P2P.getRelayServer env c (Some hash) nonce = Some r /\
      r ∈ P2P.KNOWN_RELAY_SERVERS c /\
      BigNumber.ofHex (P2P.getHexHash env (r +:+ nonce)) = Some hr /\
      0 <= h /\ 0 <= hr /\
      forall s hs,
        s ∈ P2P.KNOWN_RELAY_SERVERS c ->
        BigNumber.ofHex (P2P.getHexHash env (s +:+ nonce)) = Some hs ->
        Z.abs (h - hr) <= Z.abs (h - hs)) /\
  (forall c',
      P2P.KNOWN_RELAY_SERVERS c' = P2P.KNOWN_RELAY_SERVERS c ->
      P2P.getRelayServer env c' (Some hash) nonce
      = P2P.getRelayServer env c (Some hash) nonce) /\
  (forall c' publicKeyHash nonce',
      P2P.KNOWN_RELAY_SERVERS c' = ["matrix.papers.tech"] ->
      P2P.getRelayServer env c' publicKeyHash nonce' = Some "matrix.papers.tech").
Proof.
  intros Hne Hh Hall. split; [|split].
  - destruct (getRelayServer_position env hash nonce h Hh c Hne Hall)
      as (r & l1 & l2 & Hr & Hsplit & H1 & H2).
    assert (Hin : r ∈ P2P.KNOWN_RELAY_SERVERS c) by (rewrite Hsplit; set_solver).
    assert (Hhashed := proj1 (Forall_forall _ _) Hall r Hin).
    destruct Hhashed as [hr Hhr].
    exists r, hr. repeat split; try assumption.
    + eapply ofHex_nonneg; eassumption.
    + eapply ofHex_nonneg; eassumption.
    + intros s hs Hs Hhs.
      assert (Hle : P2P.distanceZ env hash nonce r <= P2P.distanceZ env hash nonce s).
      { rewrite Hsplit in Hs. apply elem_of_app in Hs as [Hs|Hs].
        - exact (proj1 (Forall_forall _ _) H1 s Hs).
        - apply elem_of_cons in Hs as [->|Hs]; [reflexivity|].
          apply Z.lt_le_incl. exact (proj1 (Forall_forall _ _) H2 s Hs). }
      unfold P2P.distanceZ in Hle.
      rewrite (distance_hex env _ _ _ _ _ Hh Hhr), (distance_hex env _ _ _ _ _ Hh Hhs) in Hle.
      exact Hle.
  - intros c' Hsame. unfold P2P.getRelayServer.
    rewrite (ofHex_truthy _ _ Hh), Hsame. reflexivity.
  - intros c' publicKeyHash nonce' Hone. unfold P2P.getRelayServer. rewrite Hone.
    simpl. rewrite reducer_same. reflexivity.
Qed.

Lemma sample_servers_hashed :
  Forall (P2P.hashed (Samples.sampleEnv None 1) "")
         (P2P.KNOWN_RELAY_SERVERS (Samples.sampleClient false)).
Proof. repeat constructor; vm_compute; eexists; reflexivity. Qed.

Lemma getRelayServer_selects_closest_witness :
  exists r hr,
    P2P.getRelayServer (Samples.sampleEnv None 1) (Samples.sampleClient false)
      (Some "12") "" = Some r /\
    r ∈ P2P.KNOWN_RELAY_SERVERS (Samples.sampleClient false) /\
    BigNumber.ofHex (P2P.getHexHash (Samples.sampleEnv None 1) (r +:+ "")) = Some hr /\
    0 <= 18 /\ 0 <= hr /\
    forall s hs,
      s ∈ P2P.KNOWN_RELAY_SERVERS (Samples.sampleClient false) ->
      BigNumber.ofHex (P2P.getHexHash (Samples.sampleEnv None 1) (s +:+ "")) = Some hs ->
      Z.abs (18 - hr) <= Z.abs (18 - hs).
Proof.
  refine (proj1 (getRelayServer_selects_closest (Samples.sampleEnv None 1)
                   (Samples.sampleClient false) "12" "" 18 _ _ _)).
  - vm_compute. discriminate.
  - reflexivity.
  - exact sample_servers_hashed.
Defined.

(** C2 (as stated) fails: with the servers [relay-a; relay-b] at the same
    distance 16 from the hash [20], the later server [relay-b] is returned. *)
Lemma getRelayServer_tie_counterexample :
  ~ Spec.earliestWinsOnTie (Samples.sampleEnv None 1) (Samples.sampleClient false) "20" "".
Proof.
  intros H.
  specialize (H [] "relay-a" [] "relay-b" [] 16 "relay-b" eq_refl).
  assert (Hab : "relay-b" = "relay-a"); [|discriminate Hab].
  apply H.
  - discriminate.
  - reflexivity.
  - reflexivity.
  - repeat constructor; eexists; (split; [vm_compute; reflexivity|lia]).
  - reflexivity.
Qed.

(** C2 (amended): of the servers that attain the minimal distance,
    [getRelayServer] returns the one listed last: no server before the
    returned one is closer, and every server after it is strictly farther
    (the reduction keeps the previous best only when it is strictly
    closer). *)
Theorem getRelayServer_tie_keeps_latest (env : P2P.Env) (c : P2P.Client)
    (hash nonce : string) (h : Z) :
  P2P.KNOWN_RELAY_SERVERS c <> [] ->
  BigNumber.ofHex hash = Some h ->
  Forall (P2P.hashed env nonce) (P2P.KNOWN_RELAY_SERVERS c) ->
  exists r before after dr,
    P2P.getRelayServer env c (Some hash) nonce = Some r /\
    P2P.KNOWN_RELAY_SERVERS c = before ++ r :: after /\
    P2P.distance env hash nonce r = Some dr /\
    Forall (fun s => exists ds, P2P.distance env hash nonce s = Some ds /\ dr <= ds) before /\
    Forall (fun s => exists ds, P2P.distance env hash nonce s = Some ds /\ dr < ds) after.
Proof.
  intros Hne Hh Hall.
  destruct (getRelayServer_position env hash nonce h Hh c Hne Hall)
    as (r & l1 & l2 & Hr & Hsplit & H1 & H2).
  assert (Hd : forall s, s ∈ P2P.KNOWN_RELAY_SERVERS c ->
             P2P.distance env hash nonce s = Some (P2P.distanceZ env hash nonce s)).
  { intros s Hs. destruct (proj1 (Forall_forall _ _) Hall s Hs) as [hs Hhs].
    unfold P2P.distanceZ. rewrite (distance_hex env _ _ _ _ _ Hh Hhs). reflexivity. }
  exists r, l1, l2, (P2P.distanceZ env hash nonce r). repeat split; try assumption.
  - apply Hd. rewrite Hsplit. set_solver.
  - apply Forall_forall. intros s Hs. exists (P2P.distanceZ env hash nonce s). split.
    + apply Hd. rewrite Hsplit. set_solver.
    + exact (proj1 (Forall_forall _ _) H1 s Hs).
  - apply Forall_forall. intros s Hs. exists (P2P.distanceZ env hash nonce s). split.
    + apply Hd. rewrite Hsplit. set_solver.
    + exact (proj1 (Forall_forall _ _) H2 s Hs).
Qed.

Lemma getRelayServer_tie_keeps_latest_witness :
  exists r before after dr,
    P2P.getRelayServer (Samples.sampleEnv None 1) (Samples.sampleClient false)
      (Some "20") "" = Some r /\
    P2P.KNOWN_RELAY_SERVERS (Samples.sampleClient false) = before ++ r :: after /\
    P2P.distance (Samples.sampleEnv None 1) "20" "" r = Some dr /\
    Forall (fun s => exists ds,
              P2P.distance (Samples.sampleEnv None 1) "20" "" s = Some ds /\ dr <= ds) before /\
    Forall (fun s => exists ds,
              P2P.distance (Samples.sampleEnv None 1) "20" "" s = Some ds /\ dr < ds) after.
Proof.
  apply (getRelayServer_tie_keeps_latest (Samples.sampleEnv None 1)
           (Samples.sampleClient false) "20" "" 32).
  - vm_compute. discriminate.
  - reflexivity.
  - exact sample_servers_hashed.
Defined.

(* ===================================================================== *)
(** * Properties of the state store *)
(* ===================================================================== *)

Section HeapFacts.
Import Matrix.

Lemma allocRecord_spec (rs : list (string * MatrixRoom)) : forall h,
  allocRecord h rs = (h ++ rs.*2, zip rs.*1 (seq (length h) (length rs))).
Proof.
  induction rs as [|[k r] rs IH]; intros h; simpl.
  - rewrite app_nil_r. reflexivity.
  - rewrite IH. rewrite length_app. simpl.
    rewrite <- app_assoc. simpl.
    replace (length h + 1)%nat with (S (length h)) by lia. reflexivity.
Qed.

Lemma modify_lookup (f : MatrixRoom -> MatrixRoom) (l : loc) (h : Heap) (r : MatrixRoom) :
  h !! l = Some r -> modify f l h = <[l := f r]> h.
Proof. unfold modify. intros ->. reflexivity. Qed.

(** Assigning a field of each of the objects that were just appended to
    the heap changes those objects and no other. *)
Lemma modify_appended (f : MatrixRoom -> MatrixRoom) (h : Heap) :
  forall todo done,
    foldl (fun hp room => modify f room hp) (h ++ (f <$> done) ++ todo)
          (seq (length h + length done) (length todo))
    = h ++ (f <$> done) ++ (f <$> todo).
Proof.
  induction todo as [|x todo IH]; intros done; simpl.
  - reflexivity.
  - assert (Hlook : (h ++ (f <$> done) ++ x :: todo) !! (length h + length done)%nat = Some x).
    { rewrite lookup_app_r by lia. rewrite lookup_app_r by (rewrite length_fmap; lia).
      rewrite length_fmap.
      replace (length h + length done - length h - length done)%nat with 0%nat by lia.
      reflexivity. }
    rewrite (modify_lookup f _ _ x Hlook).
    assert (Hins : forall l : loc, l = (length h + length done)%nat ->
                   <[l := f x]> (h ++ (f <$> done) ++ x :: todo)
                   = h ++ (f <$> (done ++ [x])) ++ todo).
    { intros l ->.
      rewrite insert_app_r_alt by lia. rewrite insert_app_r_alt by (rewrite length_fmap; lia).
      rewrite length_fmap.
      replace (length h + length done - length h - length done)%nat with 0%nat by lia.
      simpl. rewrite fmap_app. simpl. rewrite <- app_assoc. reflexivity. }
    rewrite (Hins _ eq_refl).
    specialize (IH (done ++ [x])). rewrite length_app in IH. simpl in IH.
    replace (S (length h + length done)) with (length h + (length done + 1))%nat by lia.
    rewrite IH. rewrite fmap_app. simpl. rewrite <- app_assoc. reflexivity.
Qed.

(** Reading the appended objects back, in order. *)
Lemma roomValues_appended (news : list MatrixRoom) : forall (keys : list string) (h : Heap),
  length keys = length news ->
  Spec.roomValues (h ++ news) (zip keys (seq (length h) (length news))) = zip keys news.
Proof.
  unfold Spec.roomValues.
  induction news as [|x news IH]; intros keys h Hlen.
  - destruct keys; reflexivity.
  - destruct keys as [|k keys]; [discriminate|]. simpl.
    rewrite lookup_app_r by lia. replace (length h - length h)%nat with 0%nat by lia.
    simpl. f_equal.
    specialize (IH keys (h ++ [x])). rewrite length_app in IH. simpl in IH.
    rewrite <- app_assoc in IH. simpl in IH.
    replace (length h + 1)%nat with (S (length h)) in IH by lia.
    apply IH. simpl in Hlen. lia.
Qed.

Lemma recordSet_Forall (P : string * loc -> Prop) rooms key l :
  (forall k, P (k, l)) -> Forall P rooms -> Forall P (recordSet rooms key l).
Proof.
  intros Hnew. induction 1 as [|[k l0] rooms Hx Hrest IH]; simpl.
  - constructor; [apply Hnew|constructor].
  - destruct (String.eqb k key); constructor; auto.
Qed.

End HeapFacts.

Section StoreFacts.
Import Matrix MatrixClientStore.

Variable merge : MatrixRoom -> option MatrixRoom -> MatrixRoom.

Lemma zip_clear (R : list (string * MatrixRoom)) :
  zip R.*1 (clearMessages <$> R.*2) = (fun kr => (kr.1, clearMessages kr.2)) <$> R.
Proof. induction R as [|[k r] R IH]; simpl; [reflexivity|]. f_equal. exact IH. Qed.

Lemma seq_values (keys : list string) (start : nat) :
  recordValues (zip keys (seq start (length keys))) = seq start (length keys).
Proof. unfold recordValues. apply snd_zip. rewrite length_seq. lia. Qed.

(** Serialising the preserved fields: the state's room objects are copied,
    the copies lose their messages, and the text that is produced is the
    preserved blob of the state.  The heap only grows. *)
Lemma prepareData_preserved (st : MatrixStateStore) (h : Heap) :
  let filteredState : JsObject := (fun key => (key, stateGet st key)) <$> PRESERVED_FIELDS in
  exists prepared,
    prepareData filteredState h
    = (h ++ (clearMessages <$> (Spec.roomValues h (rooms st)).*2), prepared) /\
    JSON_stringify (h ++ (clearMessages <$> (Spec.roomValues h (rooms st)).*2)) prepared
    = Spec.preservedBlob h st.
Proof.
  intros filteredState. subst filteredState.
  set (R := Spec.roomValues h (rooms st)).
  assert (Hlen : length R.*1 = length (clearMessages <$> R.*2))
    by (rewrite length_fmap, !length_fmap; reflexivity).
  assert (Hclear :
    foldl (fun hp room => modify clearMessages room hp) (h ++ R.*2)
          (seq (length h) (length R))
    = h ++ (clearMessages <$> R.*2)).
  { pose proof (modify_appended clearMessages h R.*2 []) as H. simpl in H.
    rewrite Nat.add_0_r, length_fmap in H. exact H. }
  assert (Hread :
    Spec.roomValues (h ++ (clearMessages <$> R.*2)) (zip R.*1 (seq (length h) (length R)))
    = (fun kr => (kr.1, clearMessages kr.2)) <$> R).
  { pose proof (roomValues_appended (clearMessages <$> R.*2) R.*1 h Hlen) as H.
    rewrite !length_fmap in H. rewrite H. apply zip_clear. }
  assert (Hvalues : recordValues (zip R.*1 (seq (length h) (length R)))
                    = seq (length h) (length R)).
  { pose proof (seq_values R.*1 (length h)) as H. rewrite length_fmap in H. exact H. }
  unfold prepareData, jsonCopy, Spec.preservedBlob, PRESERVED_FIELDS.
  destruct (syncToken st) as [token|] eqn:Htoken; cbn [fmap list_fmap stateGet String.eqb
    Ascii.eqb Bool.eqb existsb objGet orb]; rewrite ?Htoken; cbn.
  - fold (Spec.roomValues h (rooms st)). fold R. rewrite allocRecord_spec. cbn.
    unfold roomsOf. cbn. rewrite Hvalues, Hclear.
    eexists. split; [reflexivity|]. cbn.
    fold (Spec.roomValues (h ++ (clearMessages <$> R.*2))
            (zip R.*1 (seq (length h) (length R)))).
    rewrite Hread. reflexivity.
  - fold (Spec.roomValues h (rooms st)). fold R. rewrite allocRecord_spec. cbn.
    unfold roomsOf. cbn. rewrite Hvalues, Hclear.
    eexists. split; [reflexivity|]. cbn.
    fold (Spec.roomValues (h ++ (clearMessages <$> R.*2))
            (zip R.*1 (seq (length h) (length R)))).
    rewrite Hread. reflexivity.
Qed.

(** The test of [updateStorage]: some preserved field of the update is
    truthy. *)
Lemma updatedCachedFields_nonempty (p : PartialState) :
  (0 <? Z.of_nat (length
     (List.filter (fun kv => existsb (String.eqb kv.1) PRESERVED_FIELDS && truthy kv.2)
                  (entries p))))
  = Spec.updatesPreservedField p.
Proof.
  destruct p as [a b c d e f g i r]. unfold entries, Spec.updatesPreservedField. cbn.
  destruct a, b, c, d, e, g, i; cbn;
    (destruct f as [token|]; cbn; [destruct (Js.truthyString token); cbn|]);
    destruct r as [[?|?]|]; reflexivity.
Qed.

Lemma updateStorage_spec (p : PartialState) (w : t) :
  updateStorage p w
  = if Spec.updatesPreservedField p
    then storageSet (Spec.preservedBlob (heap w) (state w))
           (withHeap (heap w ++ (clearMessages <$> (Spec.roomValues (heap w)
                                                      (rooms (state w))).*2)) w)
    else w.
Proof.
  unfold updateStorage. rewrite updatedCachedFields_nonempty.
  destruct (Spec.updatesPreservedField p); [|reflexivity].
  destruct (prepareData_preserved (state w) (heap w)) as (prepared & Hprep & Hjson).
  cbv zeta in Hprep. rewrite Hprep. cbn. rewrite Hjson. reflexivity.
Qed.

Lemma state_updateStorage p w : state (updateStorage p w) = state w.
Proof. rewrite updateStorage_spec. destruct (Spec.updatesPreservedField p); reflexivity. Qed.

Lemma update_state p w : state (update merge p w) = state (setState merge p w).
Proof. unfold update, notifyListeners. cbn. apply state_updateStorage. Qed.

Lemma update_heap p w :
  heap (update merge p w) = heap (updateStorage p (setState merge p w)).
Proof. reflexivity. Qed.

Lemma update_written p w :
  written (update merge p w) = written (updateStorage p (setState merge p w)).
Proof. reflexivity. Qed.

Lemma update_storage p w :
  storage (update merge p w) = storage (updateStorage p (setState merge p w)).
Proof. reflexivity. Qed.

Lemma setState_written p w : written (setState merge p w) = written w.
Proof. unfold setState. destruct (mergeRooms _ _ _ _). reflexivity. Qed.

Lemma setState_storage p w : storage (setState merge p w) = storage w.
Proof. unfold setState. destruct (mergeRooms _ _ _ _). reflexivity. Qed.

Lemma setState_notified p w : notified (setState merge p w) = notified w.
Proof. unfold setState. destruct (mergeRooms _ _ _ _). reflexivity. Qed.

(** The fields of the state after [setState], one by one. *)
Lemma setState_fields p w :
  let st := state w in
  let st' := state (setState merge p w) in
  isRunning st' = Js.orBool (p_isRunning p) (isRunning st) /\
  userId st' = Js.orString (p_userId p) (userId st) /\
  deviceId st' = Js.orString (p_deviceId p) (deviceId st) /\
  txnNo st' = Js.orNumber (p_txnNo p) (txnNo st) /\
  accessToken st' = Js.orString (p_accessToken p) (accessToken st) /\
  syncToken st' = Js.orString (p_syncToken p) (syncToken st) /\
  pollingTimeout st' = Js.orOptNumber (p_pollingTimeout p) (pollingTimeout st) /\
  pollingRetries st' = Js.orNumber (p_pollingRetries p) (pollingRetries st) /\
  (p_rooms p = None -> rooms st' = rooms st /\ heap (setState merge p w) = heap w).
Proof.
  unfold setState. destruct (mergeRooms merge (rooms (state w)) (p_rooms p) (heap w))
    as [h1 merged] eqn:Hm. cbn.
  do 8 (split; [reflexivity|]).
  intros Hnone. rewrite Hnone in Hm. cbn in Hm. split; congruence.
Qed.

(** C9: in [update(partial)], a field of the partial whose value is falsy
    (false, 0, the empty string, undefined) leaves the field of the state
    at its prior value; so [isRunning] is never reset from true to false,
    and [txnNo] and [pollingRetries] are never reset to 0. *)
Theorem update_keeps_field_on_falsy (p : PartialState) (w : t) :
  let st := state w in
  let st' := state (update merge p w) in
  (Js.truthyOptBool (p_isRunning p) = false -> isRunning st' = isRunning st) /\
  (Js.truthyOptString (p_userId p) = false -> userId st' = userId st) /\
  (Js.truthyOptString (p_deviceId p) = false -> deviceId st' = deviceId st) /\
  (Js.truthyOptNumber (p_txnNo p) = false -> txnNo st' = txnNo st) /\
  (Js.truthyOptString (p_accessToken p) = false -> accessToken st' = accessToken st) /\
  (Js.truthyOptString (p_syncToken p) = false -> syncToken st' = syncToken st) /\
  (Js.truthyOptNumber (p_pollingTimeout p) = false ->
     pollingTimeout st' = pollingTimeout st) /\
  (Js.truthyOptNumber (p_pollingRetries p) = false ->
     pollingRetries st' = pollingRetries st) /\
  (p_rooms p = None ->
     rooms st' = rooms st /\
     forall l r, heap w !! l = Some r -> heap (update merge p w) !! l = Some r) /\
  (isRunning st = true -> isRunning st' = true) /\
  (txnNo st <> 0 -> txnNo st' <> 0) /\
  (pollingRetries st <> 0 -> pollingRetries st' <> 0).
Proof.
  intros st st'. subst st st'. rewrite update_state.
  destruct (setState_fields p w) as (HisRunning & HuserId & HdeviceId & HtxnNo &
    HaccessToken & HsyncToken & HpollingTimeout & HpollingRetries & Hrooms).
  cbv zeta in *.
  rewrite HisRunning, HuserId, HdeviceId, HtxnNo, HaccessToken, HsyncToken,
    HpollingTimeout, HpollingRetries.
  repeat match goal with |- _ /\ _ => split end.
  - destruct (p_isRunning p) as [[|]|]; [discriminate|reflexivity|reflexivity].
  - unfold Js.orString. destruct (p_userId p); cbn; [intros ->|]; reflexivity.
  - unfold Js.orString. destruct (p_deviceId p); cbn; [intros ->|]; reflexivity.
  - unfold Js.orNumber. destruct (p_txnNo p); cbn; [intros ->|]; reflexivity.
  - unfold Js.orString. destruct (p_accessToken p); cbn; [intros ->|]; reflexivity.
  - unfold Js.orString. destruct (p_syncToken p); cbn; [intros ->|]; reflexivity.
  - unfold Js.orOptNumber. destruct (p_pollingTimeout p); cbn; [intros ->|]; reflexivity.
  - unfold Js.orNumber. destruct (p_pollingRetries p); cbn; [intros ->|]; reflexivity.
  - intros Hnone. destruct (Hrooms Hnone) as [Hsame Hheap]. split; [exact Hsame|].
    intros l r Hl. rewrite update_heap, updateStorage_spec.
    destruct (Spec.updatesPreservedField p); cbn; rewrite Hheap; [|exact Hl].
    apply lookup_app_l_Some. exact Hl.
  - intros ->. destruct (p_isRunning p) as [[|]|]; reflexivity.
  - unfold Js.orNumber, Js.truthyNumber. intros Hprior.
    destruct (p_txnNo p) as [n|]; [|exact Hprior].
    destruct (Z.eqb_spec n 0); cbn; assumption.
  - unfold Js.orNumber, Js.truthyNumber. intros Hprior.
    destruct (p_pollingRetries p) as [n|]; [|exact Hprior].
    destruct (Z.eqb_spec n 0); cbn; assumption.
Qed.

(** Parsing a preserved blob: the rooms become new objects without
    messages, and only [syncToken] and [rooms] are defined. *)
Lemma parse_preservedBlob (h0 h : Heap) (st : MatrixStateStore) :
  exists news rec,
    Forall (fun r => messages r = []) news /\
    rec.*2 = seq (length h0) (length news) /\
    exists parsed,
      JSON_parse h0 (Spec.preservedBlob h st) = (h0 ++ news, parsed) /\
      asPartial parsed
      = mkPartial None None None None None (syncToken st) None None
          (Some (RoomsRecord rec)).
Proof.
  set (R := (fun kr : string * MatrixRoom => (kr.1, clearMessages kr.2))
              <$> Spec.roomValues h (rooms st)).
  exists R.*2, (zip R.*1 (seq (length h0) (length R))). split; [|split].
  - subst R. apply Forall_forall. intros r Hr.
    apply list_elem_of_fmap in Hr as ([k r0] & -> & Hin).
    apply list_elem_of_fmap in Hin as ([k1 r1] & [= -> ->] & _). reflexivity.
  - rewrite length_fmap. apply snd_zip. rewrite length_seq, length_fmap. lia.
  - unfold Spec.preservedBlob. fold R.
    destruct (syncToken st) as [token|]; cbn; rewrite allocRecord_spec;
      eexists; (split; [reflexivity|]); reflexivity.
Qed.

Lemma noMessages_grow (h extra : Heap) (rooms : RoomRecord) :
  Spec.noMessages h rooms -> Spec.noMessages (h ++ extra) rooms.
Proof.
  unfold Spec.noMessages. intros H. eapply Forall_impl; [exact H|].
  intros [k l] (r & Hl & Hr). exists r. split; [|exact Hr].
  apply lookup_app_l_Some. exact Hl.
Qed.

(** Merging rooms without messages into an empty catalogue, with a merge
    that takes the messages of a room that has no previous state from the
    room itself, yields rooms without messages. *)
Lemma mergeRoom_noMessages :
  (forall r, messages (merge r None) = messages r) ->
  forall (newRooms : list loc) (h : Heap) (merged : RoomRecord),
    Forall (fun l => exists r, h !! l = Some r /\ messages r = []) newRooms ->
    Spec.noMessages h merged ->
    Spec.noMessages (foldl (mergeRoom merge []) (h, merged) newRooms).1
                    (foldl (mergeRoom merge []) (h, merged) newRooms).2.
Proof.
  intros Hmerge newRooms. induction newRooms as [|l newRooms IH]; intros h merged Hnew Hold.
  - exact Hold.
  - apply Forall_cons in Hnew as [(r & Hl & Hr) Hrest]. cbn [foldl].
    unfold mergeRoom at 2 4. rewrite Hl. cbn.
    apply IH.
    + eapply Forall_impl; [exact Hrest|]. intros l0 (r0 & Hl0 & Hr0).
      exists r0. split; [apply lookup_app_l_Some; exact Hl0|exact Hr0].
    + apply recordSet_Forall.
      * intros k. exists (merge r None). split.
        -- cbn. rewrite lookup_app_r by lia.
           replace (length h - length h)%nat with 0%nat by lia. reflexivity.
        -- rewrite Hmerge. exact Hr.
      * apply (noMessages_grow h [merge r None] merged Hold).
Qed.

(** The state of a store created over a storage that holds a preserved
    blob. *)
Lemma create_from_preservedBlob (h0 h : Heap) (st : MatrixStateStore) (s : Storage.t) :
  Storage.MATRIX_PRESERVED_STATE s = Some (Spec.preservedBlob h st) ->
  let created := create merge h0 s in
  isRunning (state created) = false /\
  userId (state created) = None /\
  deviceId (state created) = None /\
  txnNo (state created) = 0 /\
  accessToken (state created) = None /\
  syncToken (state created) = Js.orString (syncToken st) None /\
  pollingTimeout (state created) = None /\
  pollingRetries (state created) = 0 /\
  ((forall r, messages (merge r None) = messages r) ->
   Spec.noMessages (heap created) (rooms (state created))).
Proof.
  intros Hs created. subst created. unfold create, initFromStorage. cbn. rewrite Hs.
  destruct (parse_preservedBlob h0 h st) as (news & rec & Hnews & Hrec & parsed & Hparse & Hpartial).
  rewrite Hparse.
  set (w0 := withHeap (h0 ++ news) (mkStore h0 initialState ∅ s [] [])).
  destruct (setState_fields (asPartial parsed) w0) as (HisRunning & HuserId & HdeviceId &
    HtxnNo & HaccessToken & HsyncToken & HpollingTimeout & HpollingRetries & _).
  cbv zeta in *. rewrite Hpartial in *. cbn in *.
  do 8 (split; [assumption|]).
  intros Hmerge. unfold setState. rewrite ?Hpartial. cbn.
  destruct (foldl (mergeRoom merge []) (h0 ++ news, []) (recordValues rec))
    as [h1 merged] eqn:Hfold. cbn.
  pose proof (mergeRoom_noMessages Hmerge (recordValues rec) (h0 ++ news) []) as H.
  rewrite Hfold in H. cbn in H. apply H; [|constructor].
  unfold recordValues. rewrite Hrec. apply Forall_forall. intros l Hl.
  apply elem_of_seq in Hl as [Hlo Hhi].
  destruct (lookup_lt_is_Some_2 news (l - length h0)) as [r Hr]; [lia|].
  exists r. split.
  - rewrite lookup_app_r by lia. exact Hr.
  - exact (proj1 (Forall_forall _ _) Hnews r (list_elem_of_lookup_2 _ _ _ Hr)).
Qed.

Lemma jsonKeys_preservedBlob (h : Heap) (st : MatrixStateStore) :
  jsonKeys (Spec.preservedBlob h st)
  = match syncToken st with
    | Some _ => ["syncToken"; "rooms"]
    | None => ["rooms"]
    end.
Proof. unfold Spec.preservedBlob. destruct (syncToken st); reflexivity. Qed.

Lemma jsonRooms_preservedBlob (h : Heap) (st : MatrixStateStore) :
  jsonRooms (Spec.preservedBlob h st)
  = clearMessages <$> (Spec.roomValues h (rooms st)).*2.
Proof.
  unfold Spec.preservedBlob, jsonRooms.
  destruct (syncToken st); cbn; rewrite app_nil_r;
    rewrite <- !list_fmap_compose; reflexivity.
Qed.

(** What [update] writes, and when. *)
Lemma update_storage_spec (p : PartialState) (w : t) :
  let w1 := setState merge p w in
  let w' := update merge p w in
  if Spec.updatesPreservedField p
  then written w' = written w ++ [Spec.preservedBlob (heap w1) (state w1)] /\
       Storage.MATRIX_PRESERVED_STATE (storage w')
       = Some (Spec.preservedBlob (heap w1) (state w1))
  else written w' = written w /\ storage w' = storage w.
Proof.
  cbv zeta. rewrite update_written, update_storage, updateStorage_spec.
  destruct (Spec.updatesPreservedField p); cbn.
  - rewrite setState_written. split; reflexivity.
  - rewrite setState_written, setState_storage. split; reflexivity.
Qed.

(** C5 (amended): [update] writes to storage if and only if the update
    contains a truthy [syncToken] or [rooms]; the blob it writes has the
    field [rooms], the field [syncToken] exactly when the sync token of the
    state is defined, and no other field; and a store created from that
    storage has every other field at its initial value. *)
Theorem update_persists_preserved_fields (p : PartialState) (w : t) :
  let w' := update merge p w in
  (written w' <> written w <-> Spec.updatesPreservedField p = true) /\
  (Spec.updatesPreservedField p = false -> storage w' = storage w) /\
  (Spec.updatesPreservedField p = true ->
   exists blob,
     written w' = written w ++ [blob] /\
     Storage.MATRIX_PRESERVED_STATE (storage w') = Some blob /\
     jsonKeys blob = match syncToken (state w') with
                     | Some _ => ["syncToken"; "rooms"]
                     | None => ["rooms"]
                     end /\
     (forall key, key ∈ jsonKeys blob -> key ∈ PRESERVED_FIELDS) /\
     forall h0,
       let created := create merge h0 (storage w') in
       isRunning (state created) = false /\
       userId (state created) = None /\
       deviceId (state created) = None /\
       txnNo (state created) = 0 /\
       accessToken (state created) = None /\
       pollingTimeout (state created) = None /\
       pollingRetries (state created) = 0 /\
       syncToken (state created) = Js.orString (syncToken (state w')) None).
Proof.
  cbv zeta. pose proof (update_storage_spec p w) as Hspec. cbv zeta in Hspec.
  destruct (Spec.updatesPreservedField p) eqn:Htrigger.
  - destruct Hspec as [Hwritten Hstored]. split; [|split].
    + split; [reflexivity|]. intros _ Hsame. rewrite Hwritten in Hsame.
      apply (f_equal length) in Hsame. rewrite length_app in Hsame. cbn in Hsame. lia.
    + discriminate.
    + intros _. eexists. split; [exact Hwritten|]. split; [exact Hstored|].
      rewrite jsonKeys_preservedBlob, update_state. split; [reflexivity|]. split.
      * unfold PRESERVED_FIELDS. destruct (syncToken _); intros key Hkey;
          [exact Hkey|apply elem_of_cons; right; exact Hkey].
      * intros h0.
        destruct (create_from_preservedBlob h0 _ _ _ Hstored)
          as (H1 & H2 & H3 & H4 & H5 & H6 & H7 & H8 & _).
        repeat split; assumption.
  - destruct Hspec as [Hwritten Hstored]. split; [|split].
    + split; [intros Hne; contradiction|discriminate].
    + intros _. exact Hstored.
    + discriminate.
Qed.

Lemma updateStorage_notified p w : notified (updateStorage p w) = notified w.
Proof. rewrite updateStorage_spec. destruct (Spec.updatesPreservedField p); reflexivity. Qed.

(** The objects that exist before [updateStorage] are the same after it. *)
Lemma updateStorage_heap_frame p w l r :
  heap w !! l = Some r -> heap (updateStorage p w) !! l = Some r.
Proof.
  intros Hl. rewrite updateStorage_spec.
  destruct (Spec.updatesPreservedField p); cbn; [|exact Hl].
  apply lookup_app_l_Some. exact Hl.
Qed.

(** Every listener call of an update gets the state that [setState] built
    and runs in the heap of the end of the update. *)
Lemma update_notifications p w n :
  n ∈ notified (update merge p w) ->
  n ∈ notified w \/
  (newState n = state (setState merge p w) /\ heapSeen n = heap (update merge p w)).
Proof.
  unfold update, notifyListeners. cbn.
  rewrite updateStorage_notified, setState_notified, state_updateStorage.
  intros Hn. apply elem_of_app in Hn as [Hn|Hn]; [left; exact Hn|right].
  apply elem_of_app in Hn as [Hn|Hn].
  - destruct (onStateChangedListeners _ !! "all"); [|inversion Hn].
    apply list_elem_of_singleton in Hn as ->. split; reflexivity.
  - apply list_elem_of_omap in Hn as (key & _ & Hcall).
    destruct (onStateChangedListeners _ !! key); [|discriminate].
    cbn in Hcall. injection Hcall as <-. split; reflexivity.
Qed.

End StoreFacts.

Lemma update_keeps_field_on_falsy_witness :
  MatrixClientStore.isRunning
    (MatrixClientStore.state
       (MatrixClientStore.update MatrixRoomModel.merge Samples.resetUpdate
          Samples.runningStore)) = true /\
  MatrixClientStore.txnNo
    (MatrixClientStore.state
       (MatrixClientStore.update MatrixRoomModel.merge Samples.resetUpdate
          Samples.runningStore)) = 7 /\
  MatrixClientStore.userId
    (MatrixClientStore.state
       (MatrixClientStore.update MatrixRoomModel.merge Samples.resetUpdate
          Samples.runningStore)) = Some "@me".
Proof.
  destruct (update_keeps_field_on_falsy MatrixRoomModel.merge Samples.resetUpdate
              Samples.runningStore)
    as (HisRunning & HuserId & _ & HtxnNo & _).
  split; [|split].
  - exact (HisRunning eq_refl).
  - exact (HtxnNo eq_refl).
  - exact (HuserId eq_refl).
Defined.

(** C5 (as stated) fails: [update({ rooms: [] })] on a store without sync
    token writes a blob whose only field is [rooms]. *)
Lemma update_blob_fields_counterexample :
  ~ Spec.writesExactlyPreservedFields MatrixRoomModel.merge Samples.emptyRoomsUpdate
      Samples.freshStore.
Proof.
  intros H.
  specialize (H [("rooms", Matrix.JRoomRecord [])] eq_refl "syncToken").
  destruct H as [_ H].
  assert (Hin : "syncToken" ∈ ["rooms"]).
  { apply H. unfold MatrixClientStore.PRESERVED_FIELDS. apply elem_of_cons. left. reflexivity. }
  apply list_elem_of_singleton in Hin. discriminate Hin.
Qed.

Lemma update_persists_preserved_fields_witness :
  exists blob,
    MatrixClientStore.written
      (MatrixClientStore.update MatrixRoomModel.merge Samples.emptyRoomsUpdate
         Samples.freshStore)
    = MatrixClientStore.written Samples.freshStore ++ [blob] /\
    Matrix.jsonKeys blob = ["rooms"].
Proof.
  destruct (update_persists_preserved_fields MatrixRoomModel.merge Samples.emptyRoomsUpdate
              Samples.freshStore) as (_ & _ & H).
  destruct (H eq_refl) as (blob & Hwritten & _ & Hkeys & _).
  exists blob. split; [exact Hwritten|exact Hkeys].
Defined.

(* ===================================================================== *)
(** * Properties of the P2P client *)
(* ===================================================================== *)

Section ClientFacts.
Import Matrix P2P.
Local Open Scope p2p_scope.

Variable env : Env.

Lemma requireClient_undefined w :
  client (this w) = None -> requireClient w = (Thrown clientNotReadyError, w).
Proof. unfold requireClient. intros ->. reflexivity. Qed.

Lemma requireClient_defined w c :
  client (this w) = Some c -> requireClient w = (Ok c, w).
Proof. unfold requireClient. intros ->. reflexivity. Qed.

(** A block that starts with the readiness check throws, untouched world. *)
Lemma guarded_undefined {A} (k : MatrixClient -> M A) w :
  client (this w) = None -> bind requireClient k w = (Thrown clientNotReadyError, w).
Proof. intros H. unfold bind. rewrite (requireClient_undefined w H). reflexivity. Qed.

(** C8 (amended): while [this.client] is undefined, [tryJoinRooms],
    [listenForEncryptedMessage], [unsubscribeFromEncryptedMessage],
    [unsubscribeFromEncryptedMessages], [sendMessage],
    [listenForChannelOpening], [waitForJoin] and [sendPairingResponse]
    throw the not-ready error before any other effect; [prepareStandbyRoom]
    and [getAndRemoveStandbyRoom] do so for a wallet, and for a client that
    is no wallet they return without any effect, because their wallet
    guard comes first. *)
Theorem not_ready_raised_eagerly (w : World) :
  client (this w) = None ->
  (forall roomId retry, Spec.raisesNotReady (tryJoinRooms env roomId retry) w) /\
  (forall sender callback,
     Spec.raisesNotReady (listenForEncryptedMessage env sender callback) w) /\
  (forall sender, Spec.raisesNotReady (unsubscribeFromEncryptedMessage sender) w) /\
  Spec.raisesNotReady unsubscribeFromEncryptedMessages w /\
  (forall message peer, Spec.raisesNotReady (sendMessage env message peer) w) /\
  (forall callback, Spec.raisesNotReady (listenForChannelOpening callback) w) /\
  (forall roomId retry, Spec.raisesNotReady (waitForJoin env roomId retry) w) /\
  (forall request, Spec.raisesNotReady (sendPairingResponse env request) w) /\
  (isWallet (this w) = true ->
     Spec.raisesNotReady (prepareStandbyRoom env) w /\
     Spec.raisesNotReady (getAndRemoveStandbyRoom env) w) /\
  (isWallet (this w) = false ->
     prepareStandbyRoom env w = (Ok tt, w) /\
     getAndRemoveStandbyRoom env w = (Ok None, w)).
Proof.
  intros Hclient. unfold Spec.raisesNotReady.
  repeat match goal with |- _ /\ _ => split end.
  - intros roomId retry. rewrite tryJoinRooms_equation_1.
    apply guarded_undefined. exact Hclient.
  - intros sender callback. apply guarded_undefined. exact Hclient.
  - intros sender. apply guarded_undefined. exact Hclient.
  - apply guarded_undefined. exact Hclient.
  - intros message peer. apply guarded_undefined. exact Hclient.
  - intros callback. apply guarded_undefined. exact Hclient.
  - intros roomId retry. rewrite waitForJoin_equation_1.
    apply guarded_undefined. exact Hclient.
  - intros request. apply guarded_undefined. exact Hclient.
  - intros Hwallet. split.
    + unfold prepareStandbyRoom, bind at 1, gets. rewrite Hwallet. cbn [negb].
      apply guarded_undefined. exact Hclient.
    + unfold getAndRemoveStandbyRoom, bind at 1, gets. rewrite Hwallet. cbn [negb].
      apply guarded_undefined. exact Hclient.
  - intros Hwallet. split.
    + unfold prepareStandbyRoom, bind, gets. rewrite Hwallet. reflexivity.
    + unfold getAndRemoveStandbyRoom, bind, gets. rewrite Hwallet. reflexivity.
Qed.

(** ** Pairing descriptors *)

Lemma reducer_either hash nonce prev curr :
  reducer env hash nonce prev curr = prev \/ reducer env hash nonce prev curr = curr.
Proof. unfold reducer. case_match; [left|right]; reflexivity. Qed.

Lemma foldl_reducer_in hash nonce (l : list string) : forall acc,
  foldl (reducer env hash nonce) acc l ∈ acc :: l.
Proof.
  induction l as [|x l IH]; intros acc; cbn [foldl].
  - apply elem_of_cons. left. reflexivity.
  - specialize (IH (reducer env hash nonce acc x)).
    apply elem_of_cons in IH as [IH|IH].
    + rewrite IH. destruct (reducer_either hash nonce acc x) as [-> | ->].
      * apply elem_of_cons. left. reflexivity.
      * apply elem_of_cons. right. apply elem_of_cons. left. reflexivity.
    + apply elem_of_cons. right. apply elem_of_cons. right. exact IH.
Qed.

(** Whatever the hash and the nonce, the selected server is one of the
    configured servers. *)
Lemma getRelayServer_in_list (c : Client) publicKeyHash nonce :
  KNOWN_RELAY_SERVERS c <> [] ->
  exists r, getRelayServer env c publicKeyHash nonce = Some r /\ r ∈ KNOWN_RELAY_SERVERS c.
Proof.
  intros Hne. unfold getRelayServer.
  destruct (KNOWN_RELAY_SERVERS c) as [|first rest]; [congruence|].
  eexists. split; [reflexivity|].
  match goal with |- foldl ?f _ _ ∈ _ =>
    match f with reducer env ?hash nonce =>
      pose proof (foldl_reducer_in hash nonce (first :: rest) first) as Hin
    end
  end.
  apply elem_of_cons in Hin as [Hin|Hin]; [|exact Hin].
  rewrite Hin. apply elem_of_cons. left. reflexivity.
Qed.

(** Without a hash argument the client's own public key hash is used. *)
Lemma getRelayServer_own_hash (c : Client) nonce :
  getRelayServer env c None nonce
  = getRelayServer env c (Some (getPublicKeyHash env c)) nonce.
Proof.
  unfold getRelayServer, getPublicKeyHash.
  destruct (Js.truthyString (getHexHash env (publicKey (keyPair c)))); reflexivity.
Qed.

Lemma addOptionalFields_fields (c : Client) (info : PeerInfo) :
  info_icon info = None -> info_appUrl info = None ->
  let info' := addOptionalFields c info in
  info_id info' = info_id info /\
  info_type info' = info_type info /\
  info_name info' = info_name info /\
  info_version info' = info_version info /\
  info_publicKey info' = info_publicKey info /\
  info_relayServer info' = info_relayServer info /\
  info_icon info' = (if Js.truthyOptString (iconUrl c) then iconUrl c else None) /\
  info_appUrl info' = (if Js.truthyOptString (appUrl c) then appUrl c else None).
Proof.
  intros Hicon Hurl. unfold addOptionalFields.
  destruct (Js.truthyOptString (iconUrl c)), (Js.truthyOptString (appUrl c));
    cbn; repeat split; assumption.
Qed.

(** C7 (amended): [getPairingRequestInfo] returns a descriptor whose id is
    the identifier the generator yields for this call, so that two
    successive calls give distinct ids when the generator never repeats
    itself; whose type is [p2p-pairing-request]; whose name, version and
    publicKey are the configured name, the library version and the hex
    public key; whose relayServer is the server [getRelayServer] selects
    from the configured list for the client's own public key hash; and
    which carries icon and appUrl exactly when they are configured with a
    non-empty value. *)
Theorem getPairingRequestInfo_descriptor (w : World) :
  exists info,
    getPairingRequestInfo env w
    = (Ok info, drawn w) /\
    info_id info = generateGUID env (entropy w) /\
    (forall info2 w2,
       (forall m n, generateGUID env m = generateGUID env n -> m = n) ->
       getPairingRequestInfo env (drawn w) = (Ok info2, w2) ->
       info_id info2 <> info_id info) /\
    info_type info = "p2p-pairing-request" /\
    info_name info = name (this w) /\
    info_version info = Some (BEACON_VERSION env) /\
    info_publicKey info = getPublicKey env (this w) /\
    (exists nonce,
       info_relayServer info
       = getRelayServer env (this w) (Some (getPublicKeyHash env (this w))) nonce) /\
    (KNOWN_RELAY_SERVERS (this w) <> [] ->
     exists r, info_relayServer info = Some r /\ r ∈ KNOWN_RELAY_SERVERS (this w)) /\
    info_icon info = (if Js.truthyOptString (iconUrl (this w)) then iconUrl (this w) else None) /\
    info_appUrl info = (if Js.truthyOptString (appUrl (this w)) then appUrl (this w) else None).
Proof.
  unfold getPairingRequestInfo, bind, draw, gets, ret. cbn.
  eexists. split; [reflexivity|].
  match goal with |- context [addOptionalFields ?c ?i] =>
    destruct (addOptionalFields_fields c i eq_refl eq_refl)
      as (Hid & Htype & Hname & Hversion & Hkey & Hrelay & Hicon & Hurl)
  end.
  cbv zeta in *. rewrite Hid, Htype, Hname, Hversion, Hkey, Hrelay, Hicon, Hurl. cbn.
  repeat match goal with |- _ /\ _ => split end; try reflexivity.
  - intros info2 w2 Hinj [= <- _].
    match goal with |- context [addOptionalFields ?c ?i] =>
      destruct (addOptionalFields_fields c i eq_refl eq_refl) as (Hid2 & _)
    end.
    cbv zeta in Hid2. rewrite Hid2. cbn. intros Heq. apply Hinj in Heq. lia.
  - exists "". apply getRelayServer_own_hash.
  - intros Hne. apply getRelayServer_in_list. exact Hne.
Qed.

Lemma getPairingResponseInfo_fields (request : PeerInfo) (w : World) :
  exists info,
    getPairingResponseInfo env request w = (Ok info, w) /\
    info_id info = info_id request /\
    info_type info = "p2p-pairing-response" /\
    info_name info = name (this w) /\
    info_version info = Some (BEACON_VERSION env) /\
    info_publicKey info = getPublicKey env (this w) /\
    info_relayServer info = getRelayServer env (this w) None "" /\
    info_icon info = (if Js.truthyOptString (iconUrl (this w)) then iconUrl (this w) else None) /\
    info_appUrl info = (if Js.truthyOptString (appUrl (this w)) then appUrl (this w) else None).
Proof.
  unfold getPairingResponseInfo, bind, gets, ret. cbn.
  eexists. split; [reflexivity|].
  match goal with |- context [addOptionalFields ?c ?i] =>
    destruct (addOptionalFields_fields c i eq_refl eq_refl)
      as (Hid & Htype & Hname & Hversion & Hkey & Hrelay & Hicon & Hurl)
  end.
  cbv zeta in *. rewrite Hid, Htype, Hname, Hversion, Hkey, Hrelay, Hicon, Hurl. cbn.
  repeat split.
Qed.

(** ** Waiting for the peer to join *)

Lemma waitForJoin_unfold (roomId : string) (retry : Z) (w : World) (c : MatrixClient) :
  client (this w) = Some c ->
  waitForJoin env roomId retry w
  = if 2 <=? Z.of_nat (length (members (getRoomById env (trace w) roomId)))
    then (Ok tt, polled env roomId w)
    else if retry <=? 200
         then waitForJoin env roomId (retry + 1) (rescheduled env roomId retry w)
         else (Thrown (Js.newError ("No one joined after " +:+ pretty retry +:+ " tries.")),
               polled env roomId w).
Proof.
  intros Hc. rewrite waitForJoin_equation_1.
  unfold bind at 1. rewrite (requireClient_defined w c Hc).
  unfold bind at 1, query. unfold bind at 1, log, emit, modifyWorld.
  fold (polled env roomId w).
  destruct (2 <=? Z.of_nat (length (members (getRoomById env (trace w) roomId)))).
  - reflexivity.
  - destruct (Z_le_gt_dec retry 200) as [Hle|Hgt].
    + rewrite (proj2 (Z.leb_le _ _) Hle). reflexivity.
    + rewrite (proj2 (Z.leb_gt _ _)) by lia. reflexivity.
Qed.

Lemma remainingWait_step (retry : Z) :
  0 <= retry <= 200 -> remainingWait retry = pollDelay retry + remainingWait (retry + 1).
Proof.
  intros H. unfold remainingWait, pollDelay.
  repeat match goal with
         | |- context [?a <=? ?b] => destruct (Z.leb_spec a b)
         | |- context [?a <? ?b] => destruct (Z.ltb_spec a b)
         end; lia.
Qed.

Lemma remainingWait_nonneg (retry : Z) : 0 <= retry -> 0 <= remainingWait retry.
Proof.
  intros H. unfold remainingWait.
  repeat match goal with
         | |- context [?a <=? ?b] => destruct (Z.leb_spec a b)
         end; lia.
Qed.

(** From any retry count on, [waitForJoin] waits at most the remaining
    wait; when it gives up it has waited exactly that long, and it gives up
    at count 201. *)
Lemma waitForJoin_bounded (roomId : string) (c : MatrixClient) : forall (n : nat) retry w r w',
  Z.to_nat (201 - retry) = n ->
  0 <= retry <= 201 ->
  client (this w) = Some c ->
  waitForJoin env roomId retry w = (r, w') ->
  now w' - now w <= remainingWait retry /\
  (forall e, r = Thrown e ->
     e = Js.newError "No one joined after 201 tries." /\
     now w' - now w = remainingWait retry).
Proof.
  induction n as [|n IH]; intros retry w r w' Hn Hretry Hc Hrun;
    rewrite (waitForJoin_unfold roomId retry w c Hc) in Hrun;
    destruct (2 <=? Z.of_nat (length (members (getRoomById env (trace w) roomId)))).
  - injection Hrun as <- <-. cbn. split.
    + pose proof (remainingWait_nonneg retry). lia.
    + discriminate.
  - assert (retry = 201) as -> by lia. cbn in Hrun. injection Hrun as <- <-.
    split; [cbn; lia|]. intros e [= <-]. split; [reflexivity|cbn; lia].
  - injection Hrun as <- <-. cbn. split.
    + pose proof (remainingWait_nonneg retry). lia.
    + discriminate.
  - destruct (Z.leb_spec retry 200) as [Hle|Hgt]; [|lia].
    assert (Hc' : client (this (rescheduled env roomId retry w)) = Some c) by exact Hc.
    destruct (IH (retry + 1) (rescheduled env roomId retry w) r w') as [Hbound Hthrown];
      [lia|lia|exact Hc'|exact Hrun|].
    assert (Hnow : now (rescheduled env roomId retry w) = now w + pollDelay retry) by reflexivity.
    rewrite Hnow in Hbound. rewrite (remainingWait_step retry) by lia.
    split; [lia|].
    intros e He. destruct (Hthrown e He) as [Hmsg Heq]. split; [exact Hmsg|].
    rewrite Hnow in Heq. lia.
Qed.

(** C4 (amended): [waitForJoin] returns as soon as a poll of [getRoomById]
    shows at least 2 members; otherwise, while the retry counter is at most
    200, it waits (100 ms up to count 50, which is 5.1 s in total, then
    1 s) and polls again with the counter increased; when the counter
    exceeds 200 it throws.  Started at 0 it waits at most 155.1 s in all
    (not about 30 s), exactly that long when it gives up, and
    [sendPairingResponse] passes the error on to its caller without
    sending. *)
Theorem waitForJoin_polls_with_bounded_wait (w : World) (roomId : string)
    (c : MatrixClient) :
  client (this w) = Some c ->
  (forall retry,
     (2 <= Z.of_nat (length (members (getRoomById env (trace w) roomId))) ->
      waitForJoin env roomId retry w = (Ok tt, polled env roomId w)) /\
     (Z.of_nat (length (members (getRoomById env (trace w) roomId))) < 2 ->
      retry <= 200 ->
      waitForJoin env roomId retry w
      = waitForJoin env roomId (retry + 1) (rescheduled env roomId retry w) /\
      now (rescheduled env roomId retry w) = now w + pollDelay retry) /\
     (Z.of_nat (length (members (getRoomById env (trace w) roomId))) < 2 ->
      200 < retry ->
      waitForJoin env roomId retry w
      = (Thrown (Js.newError ("No one joined after " +:+ pretty retry +:+ " tries.")),
         polled env roomId w))) /\
  (forall retry,
     (retry <= 50 -> pollDelay retry = 100) /\ (50 < retry -> pollDelay retry = 1000)) /\
  remainingWait 0 - remainingWait 51 = 5100 /\
  (forall r w',
     waitForJoin env roomId 0 w = (r, w') ->
     now w' - now w <= 155100 /\
     forall e, r = Thrown e ->
       e = Js.newError "No one joined after 201 tries." /\ now w' - now w = 155100) /\
  (forall request roomId' w1 e w2,
     getRelevantRoom env (recipientOf env request)
       (record (Log ["sendPairingResponse"] None) w) = (Ok roomId', w1) ->
     waitForJoin env roomId' 0 w1 = (Thrown e, w2) ->
     sendPairingResponse env request w = (Thrown e, w2)).
Proof.
  intros Hc. split; [|split; [|split; [|split]]].
  - intros retry. rewrite (waitForJoin_unfold roomId retry w c Hc).
    split; [|split].
    + intros H. rewrite (proj2 (Z.leb_le _ _) H). reflexivity.
    + intros H Hretry. rewrite (proj2 (Z.leb_gt _ _) H), (proj2 (Z.leb_le _ _) Hretry).
      split; reflexivity.
    + intros H Hretry. rewrite (proj2 (Z.leb_gt _ _) H), (proj2 (Z.leb_gt _ _) Hretry).
      reflexivity.
  - intros retry. unfold pollDelay. split; intros H.
    + rewrite (proj2 (Z.ltb_ge _ _) H). reflexivity.
    + rewrite (proj2 (Z.ltb_lt _ _) H). reflexivity.
  - reflexivity.
  - intros r w' Hrun.
    destruct (waitForJoin_bounded roomId c _ 0 w r w' eq_refl ltac:(lia) Hc Hrun)
      as [Hbound Hthrown].
    change (remainingWait 0) with 155100 in *. split; [exact Hbound|exact Hthrown].
  - intros request roomId' w1 e w2 Hroom Hwait.
    unfold sendPairingResponse. unfold bind at 1. rewrite (requireClient_defined w c Hc).
    unfold bind at 1, log, emit, modifyWorld.
    unfold bind at 1. rewrite Hroom.
    unfold bind at 1. rewrite Hwait. reflexivity.
Qed.

(** ** Computations that send nothing *)

Lemma sentMessages_app (a b : Trace) :
  sentMessages (a ++ b) = sentMessages a ++ sentMessages b.
Proof. unfold sentMessages. apply omap_app. Qed.

Lemma quiet_same {A} (m : M A) :
  (forall w r w', m w = (r, w') -> this w' = this w /\ trace w' = trace w) -> quiet m.
Proof.
  intros H w r w' Hrun. destruct (H w r w' Hrun) as [Hthis Htrace].
  split; [exact Hthis|]. exists []. rewrite app_nil_r. split; [exact Htrace|reflexivity].
Qed.

Lemma quiet_ret {A} (a : A) : quiet (ret a).
Proof. apply quiet_same. intros w r w' [= <- <-]. split; reflexivity. Qed.

Lemma quiet_throw {A} (e : Js.Error) : quiet (@throw A e).
Proof. apply quiet_same. intros w r w' [= <- <-]. split; reflexivity. Qed.

Lemma quiet_gets {A} (f : World -> A) : quiet (gets f).
Proof. apply quiet_same. intros w r w' [= <- <-]. split; reflexivity. Qed.

Lemma quiet_requireClient : quiet requireClient.
Proof.
  apply quiet_same. intros w r w'. unfold requireClient.
  destruct (client (this w)); intros [= <- <-]; split; reflexivity.
Qed.

Lemma quiet_setStorage (f : Storage.t -> Storage.t) : quiet (modifyWorld (setStorage f)).
Proof. apply quiet_same. intros w r w' [= <- <-]. split; reflexivity. Qed.

Lemma quiet_draw : quiet draw.
Proof. apply quiet_same. intros w r w' [= <- <-]. split; reflexivity. Qed.

Lemma quiet_emit (e : Effect) : sentMessages [e] = [] -> quiet (emit e).
Proof.
  intros He w r w' [= <- <-]. split; [reflexivity|]. exists [e]. split; [reflexivity|exact He].
Qed.

Lemma quiet_sleep (ms : Z) : quiet (sleep ms).
Proof.
  intros w r w' [= <- <-]. split; [reflexivity|].
  exists [SetTimeout ms]. split; reflexivity.
Qed.

Lemma quiet_call (e : Effect) answer : sentMessages [e] = [] -> quiet (call e answer).
Proof.
  intros He w r w'. unfold call.
  destruct (answer (trace w)); intros [= <- <-];
    (split; [reflexivity|]; exists [e]; split; [reflexivity|exact He]).
Qed.

Lemma quiet_callValue {A} (e : Effect) (answer : Trace -> Js.Error + A) :
  sentMessages [e] = [] -> quiet (callValue e answer).
Proof.
  intros He w r w'. unfold callValue.
  destruct (answer (trace w)); intros [= <- <-];
    (split; [reflexivity|]; exists [e]; split; [reflexivity|exact He]).
Qed.

Lemma quiet_query {A} (e : Effect) (answer : Trace -> A) :
  sentMessages [e] = [] -> quiet (query e answer).
Proof.
  intros He w r w' [= <- <-]. split; [reflexivity|].
  exists [e]. split; [reflexivity|exact He].
Qed.

Lemma quiet_bind {A B} (m : M A) (k : A -> M B) :
  quiet m -> (forall a, quiet (k a)) -> quiet (bind m k).
Proof.
  intros Hm Hk w r w'. unfold bind.
  destruct (m w) as [[a|e] w1] eqn:Hrun.
  - intros Hrun2. destruct (Hm _ _ _ Hrun) as [Hthis1 (es1 & Ht1 & Hs1)].
    destruct (Hk a _ _ _ Hrun2) as [Hthis2 (es2 & Ht2 & Hs2)].
    split; [congruence|]. exists (es1 ++ es2). split.
    + rewrite Ht2, Ht1, app_assoc. reflexivity.
    + rewrite sentMessages_app, Hs1, Hs2. reflexivity.
  - intros [= <- <-]. exact (Hm _ _ _ Hrun).
Qed.

Lemma quiet_catch {A} (m : M A) (handler : Js.Error -> M A) :
  quiet m -> (forall e, quiet (handler e)) -> quiet (catch m handler).
Proof.
  intros Hm Hh w r w'. unfold catch.
  destruct (m w) as [[a|e] w1] eqn:Hrun.
  - intros [= <- <-]. exact (Hm _ _ _ Hrun).
  - intros Hrun2. destruct (Hm _ _ _ Hrun) as [Hthis1 (es1 & Ht1 & Hs1)].
    destruct (Hh e _ _ _ Hrun2) as [Hthis2 (es2 & Ht2 & Hs2)].
    split; [congruence|]. exists (es1 ++ es2). split.
    + rewrite Ht2, Ht1, app_assoc. reflexivity.
    + rewrite sentMessages_app, Hs1, Hs2. reflexivity.
Qed.

Lemma quiet_detached (m : M unit) : quiet m -> quiet (detached m).
Proof.
  intros Hm. unfold detached. apply quiet_catch; [exact Hm|].
  intros e. apply quiet_emit. reflexivity.
Qed.

Ltac quiet_step :=
  first
    [ apply quiet_bind; [|intros ?]
    | apply quiet_catch; [|intros ?]
    | apply quiet_detached
    | apply quiet_ret
    | apply quiet_throw
    | apply quiet_gets
    | apply quiet_requireClient
    | apply quiet_setStorage
    | apply quiet_draw
    | apply quiet_sleep
    | apply quiet_emit; reflexivity
    | apply quiet_call; reflexivity
    | apply quiet_callValue; reflexivity
    | apply quiet_query; reflexivity
    | match goal with
      | |- quiet (if ?b then _ else _) => destruct b
      | |- quiet (match ?x with _ => _ end) => destruct x
      end ].

Lemma quiet_prepareStandbyRoom : quiet (prepareStandbyRoom env).
Proof. unfold prepareStandbyRoom, log, logError. repeat quiet_step. Qed.

Lemma quiet_getAndRemoveStandbyRoom : quiet (getAndRemoveStandbyRoom env).
Proof.
  unfold getAndRemoveStandbyRoom, log, logError.
  repeat first [apply quiet_prepareStandbyRoom | quiet_step].
Qed.

Lemma quiet_getRelevantJoinedRoom recipient : quiet (getRelevantJoinedRoom env recipient).
Proof.
  unfold getRelevantJoinedRoom, log, logError.
  repeat first [apply quiet_getAndRemoveStandbyRoom | quiet_step].
Qed.

Lemma quiet_getRelevantRoom recipient : quiet (getRelevantRoom env recipient).
Proof.
  unfold getRelevantRoom, log, logError.
  repeat first [apply quiet_getRelevantJoinedRoom | quiet_step].
Qed.

Lemma quiet_deleteRoomIdFromRooms roomId : quiet (deleteRoomIdFromRooms roomId).
Proof. unfold deleteRoomIdFromRooms. repeat quiet_step. Qed.

(** ** Eviction of a room from the routing cache *)

Lemma foldl_insert_other (l : list (string * string)) : forall (m0 : gmap string string) k,
  k ∉ l.*1 -> foldl (fun pv cv => <[cv.1 := cv.2]> pv) m0 l !! k = m0 !! k.
Proof.
  induction l as [|[k0 v0] l IH]; intros m0 k Hk; cbn [foldl]; [reflexivity|].
  cbn in Hk. apply not_elem_of_cons in Hk as [Hne Hk].
  rewrite IH by exact Hk. cbn. apply lookup_insert_ne. congruence.
Qed.

Lemma foldl_insert_member (l : list (string * string)) : forall (m0 : gmap string string) k v,
  NoDup l.*1 -> (k, v) ∈ l ->
  foldl (fun pv cv => <[cv.1 := cv.2]> pv) m0 l !! k = Some v.
Proof.
  induction l as [|[k0 v0] l IH]; intros m0 k v Hnd Hin; [inversion Hin|].
  cbn in Hnd. apply NoDup_cons in Hnd as [Hfresh Hnd]. cbn [foldl].
  apply elem_of_cons in Hin as [[= -> ->]|Hin].
  - rewrite foldl_insert_other by exact Hfresh. cbn. apply lookup_insert_eq.
  - apply IH; assumption.
Qed.

Lemma NoDup_fst_filter (P : string * string -> Prop) `{forall x, Decision (P x)}
    (l : list (string * string)) :
  NoDup l.*1 -> NoDup (filter P l).*1.
Proof.
  induction l as [|[k v] l IH]; intros Hnd; [constructor|].
  cbn in Hnd. apply NoDup_cons in Hnd as [Hfresh Hnd].
  rewrite filter_cons. destruct (decide (P (k, v))); [|apply IH; exact Hnd].
  cbn. apply NoDup_cons. split; [|apply IH; exact Hnd].
  intros Hin. apply Hfresh.
  apply list_elem_of_fmap in Hin as ([k1 v1] & -> & Hin).
  apply list_elem_of_filter in Hin as [_ Hin].
  apply list_elem_of_fmap. exists (k1, v1). split; [reflexivity|exact Hin].
Qed.

(** The routing cache after [deleteRoomIdFromRooms(roomId)]: every entry
    whose value is [roomId] is gone, every other entry is as before. *)
Lemma withoutRoom_lookup (roomId : string) (roomIds : gmap string string) (k : string) :
  withoutRoom roomId roomIds !! k
  = match roomIds !! k with
    | Some v => if decide (v = roomId) then None else Some v
    | None => None
    end.
Proof.
  unfold withoutRoom.
  set (kept := filter (fun entry : string * string => entry.2 <> roomId) (map_to_list roomIds)).
  assert (Hnd : NoDup kept.*1)
    by (apply NoDup_fst_filter, NoDup_fst_map_to_list).
  assert (Hkept : forall v, (k, v) ∈ kept <-> roomIds !! k = Some v /\ v <> roomId).
  { intros v. unfold kept. rewrite list_elem_of_filter, elem_of_map_to_list. cbn. tauto. }
  destruct (roomIds !! k) as [v|] eqn:Hk.
  - destruct (decide (v = roomId)) as [->|Hne].
    + rewrite foldl_insert_other; [apply lookup_empty|].
      intros Hin. apply list_elem_of_fmap in Hin as ([k1 v1] & Heq & Hin).
      cbn in Heq. subst k1. apply Hkept in Hin as [[= ->] Hne]. congruence.
    + apply foldl_insert_member; [exact Hnd|]. apply Hkept. split; [reflexivity|exact Hne].
  - rewrite foldl_insert_other; [apply lookup_empty|].
    intros Hin. apply list_elem_of_fmap in Hin as ([k1 v1] & Heq & Hin).
    cbn in Heq. subst k1. apply Hkept in Hin as [Hsome _]. discriminate.
Qed.

(** After a successful [getRelevantRoom] the cache binds the recipient to
    the room that was returned. *)
Lemma getRelevantRoom_binds (recipient : string) (w : World) (roomId : string) (w1 : World) :
  getRelevantRoom env recipient w = (Ok roomId, w1) ->
  Storage.MATRIX_PEER_ROOM_IDS (storage w1) !! recipient = Some roomId.
Proof.
  unfold getRelevantRoom. unfold bind at 1, gets.
  destruct (Storage.MATRIX_PEER_ROOM_IDS (storage w) !! recipient) as [cached|] eqn:Hcached;
    cbn [Js.truthyOptString].
  - destruct (Js.truthyString cached) eqn:Htruthy.
    + unfold bind, ret, log, emit, modifyWorld. cbn. intros [= <- <-]. exact Hcached.
    + unfold bind at 1. unfold bind at 1, log, emit, modifyWorld.
      unfold bind at 1.
      destruct (getRelevantJoinedRoom env recipient _) as [[room|e] w2]; [|discriminate].
      unfold bind, ret, modifyWorld. cbn. intros [= <- <-]. cbn. apply lookup_insert_eq.
  - unfold bind at 1. unfold bind at 1, log, emit, modifyWorld.
    unfold bind at 1.
    destruct (getRelevantJoinedRoom env recipient _) as [[room|e] w2]; [|discriminate].
    unfold bind, ret, modifyWorld. cbn. intros [= <- <-]. cbn. apply lookup_insert_eq.
Qed.

(** ** Computations that keep the routing cache *)

Lemma keeps_same {A} (m : M A) :
  (forall w r w', m w = (r, w') -> storage w' = storage w) -> keepsPeerRoomIds m.
Proof. intros H w r w' Hrun. rewrite (H w r w' Hrun). reflexivity. Qed.

Lemma keeps_ret {A} (a : A) : keepsPeerRoomIds (ret a).
Proof. intros w r w' [= <- <-]. reflexivity. Qed.

Lemma keeps_gets {A} (f : World -> A) : keepsPeerRoomIds (gets f).
Proof. intros w r w' [= <- <-]. reflexivity. Qed.

Lemma keeps_requireClient : keepsPeerRoomIds requireClient.
Proof.
  intros w r w'. unfold requireClient.
  destruct (client (this w)); intros [= <- <-]; reflexivity.
Qed.

Lemma keeps_setStandby (standbyRoom : option string) :
  keepsPeerRoomIds (modifyWorld (setStorage (Storage.setStandby standbyRoom))).
Proof. intros w r w' [= <- <-]. reflexivity. Qed.

Lemma keeps_emit (e : Effect) : keepsPeerRoomIds (emit e).
Proof. intros w r w' [= <- <-]. reflexivity. Qed.

Lemma keeps_call (e : Effect) answer : keepsPeerRoomIds (call e answer).
Proof.
  intros w r w'. unfold call. destruct (answer (trace w)); intros [= <- <-]; reflexivity.
Qed.

Lemma keeps_callValue {A} (e : Effect) (answer : Trace -> Js.Error + A) :
  keepsPeerRoomIds (callValue e answer).
Proof.
  intros w r w'. unfold callValue. destruct (answer (trace w)); intros [= <- <-]; reflexivity.
Qed.

Lemma keeps_query {A} (e : Effect) (answer : Trace -> A) : keepsPeerRoomIds (query e answer).
Proof. intros w r w' [= <- <-]. reflexivity. Qed.

Lemma keeps_bind {A B} (m : M A) (k : A -> M B) :
  keepsPeerRoomIds m -> (forall a, keepsPeerRoomIds (k a)) -> keepsPeerRoomIds (bind m k).
Proof.
  intros Hm Hk w r w'. unfold bind.
  destruct (m w) as [[a|e] w1] eqn:Hrun.
  - intros Hrun2. rewrite (Hk a _ _ _ Hrun2). exact (Hm _ _ _ Hrun).
  - intros [= <- <-]. exact (Hm _ _ _ Hrun).
Qed.

Lemma keeps_catch {A} (m : M A) (handler : Js.Error -> M A) :
  keepsPeerRoomIds m -> (forall e, keepsPeerRoomIds (handler e)) ->
  keepsPeerRoomIds (catch m handler).
Proof.
  intros Hm Hh w r w'. unfold catch.
  destruct (m w) as [[a|e] w1] eqn:Hrun.
  - intros [= <- <-]. exact (Hm _ _ _ Hrun).
  - intros Hrun2. rewrite (Hh e _ _ _ Hrun2). exact (Hm _ _ _ Hrun).
Qed.

Lemma keeps_detached (m : M unit) : keepsPeerRoomIds m -> keepsPeerRoomIds (detached m).
Proof.
  intros Hm. unfold detached. apply keeps_catch; [exact Hm|]. intros e. apply keeps_emit.
Qed.

Ltac keeps_step :=
  first
    [ apply keeps_bind; [|intros ?]
    | apply keeps_catch; [|intros ?]
    | apply keeps_detached
    | apply keeps_ret
    | apply keeps_gets
    | apply keeps_requireClient
    | apply keeps_setStandby
    | apply keeps_emit
    | apply keeps_call
    | apply keeps_callValue
    | apply keeps_query
    | match goal with
      | |- keepsPeerRoomIds (if ?b then _ else _) => destruct b
      | |- keepsPeerRoomIds (match ?x with _ => _ end) => destruct x
      end ].

Lemma keeps_prepareStandbyRoom : keepsPeerRoomIds (prepareStandbyRoom env).
Proof. unfold prepareStandbyRoom, log, logError. repeat keeps_step. Qed.

Lemma keeps_getAndRemoveStandbyRoom : keepsPeerRoomIds (getAndRemoveStandbyRoom env).
Proof.
  unfold getAndRemoveStandbyRoom, log, logError.
  repeat first [apply keeps_prepareStandbyRoom | keeps_step].
Qed.

(** The scan of the joined rooms, the standby room and the creation of a
    room leave the routing cache alone. *)
Lemma keeps_getRelevantJoinedRoom recipient :
  keepsPeerRoomIds (getRelevantJoinedRoom env recipient).
Proof.
  unfold getRelevantJoinedRoom, log, logError.
  repeat first [apply keeps_getAndRemoveStandbyRoom | keeps_step].
Qed.

(** [getRelevantRoom] for a recipient that the routing cache does not bind:
    the room comes from [getRelevantJoinedRoom], and the recipient is bound
    to it. *)
Lemma getRelevantRoom_miss (recipient : string) (w : World) :
  Storage.MATRIX_PEER_ROOM_IDS (storage w) !! recipient = None ->
  getRelevantRoom env recipient w
  = match getRelevantJoinedRoom env recipient
            (record (Log ["getRelevantRoom";
                          "No room found for peer " +:+ recipient +:+ ", checking joined ones."]
                         None) w) with
    | (Ok room, wj) =>
        (Ok (id room),
         record (Log ["getRelevantRoom"; "Using room " +:+ id room] None)
           (setStorage
              (Storage.setPeerRoomIds
                 (<[recipient := id room]> (Storage.MATRIX_PEER_ROOM_IDS (storage w)))) wj))
    | (Thrown e, wj) => (Thrown e, wj)
    end.
Proof.
  intros Hmiss. unfold getRelevantRoom. unfold bind at 1, gets. rewrite Hmiss.
  cbn [Js.truthyOptString].
  unfold bind at 1. unfold bind at 1, log at 1, emit, modifyWorld.
  unfold bind at 1.
  destruct (getRelevantJoinedRoom env recipient _) as [[room|e] wj]; reflexivity.
Qed.

(** The routing cache after [getRelevantRoom]: the recipient is bound to
    the room that was returned and nothing else changes; when the
    resolution fails the cache is as before. *)
Lemma getRelevantRoom_peerRoomIds (recipient : string) (w : World) (r : Result string)
    (w1 : World) :
  getRelevantRoom env recipient w = (r, w1) ->
  Storage.MATRIX_PEER_ROOM_IDS (storage w1)
  = match r with
    | Ok roomId => <[recipient := roomId]> (Storage.MATRIX_PEER_ROOM_IDS (storage w))
    | Thrown _ => Storage.MATRIX_PEER_ROOM_IDS (storage w)
    end.
Proof.
  assert (Hscan : forall w0 r0 wj,
    getRelevantJoinedRoom env recipient
      (record (Log ["getRelevantRoom";
                    "No room found for peer " +:+ recipient +:+ ", checking joined ones."]
                   None) w0) = (r0, wj) ->
    Storage.MATRIX_PEER_ROOM_IDS (storage wj) = Storage.MATRIX_PEER_ROOM_IDS (storage w0)).
  { intros w0 r0 wj Hrun. exact (keeps_getRelevantJoinedRoom recipient _ _ _ Hrun). }
  unfold getRelevantRoom. unfold bind at 1, gets.
  destruct (Storage.MATRIX_PEER_ROOM_IDS (storage w) !! recipient) as [cached|] eqn:Hcached;
    cbn [Js.truthyOptString].
  - destruct (Js.truthyString cached) eqn:Htruthy.
    + unfold bind, ret, log, emit, modifyWorld. cbn. intros [= <- <-]. cbn.
      symmetry. apply insert_id. exact Hcached.
    + unfold bind at 1. unfold bind at 1, log at 1, emit, modifyWorld.
      unfold bind at 1.
      destruct (getRelevantJoinedRoom env recipient _) as [[room|e] wj] eqn:Hrun.
      * unfold bind, ret, log, emit, modifyWorld. cbn. intros [= <- <-]. reflexivity.
      * intros [= <- <-]. exact (Hscan _ _ _ Hrun).
  - unfold bind at 1. unfold bind at 1, log at 1, emit, modifyWorld.
    unfold bind at 1.
    destruct (getRelevantJoinedRoom env recipient _) as [[room|e] wj] eqn:Hrun.
    + unfold bind, ret, log, emit, modifyWorld. cbn. intros [= <- <-]. reflexivity.
    + intros [= <- <-]. exact (Hscan _ _ _ Hrun).
Qed.

(** ** Sending with recovery *)

(** A send whose error is only logged. *)
Lemma detached_send_logged (roomId text : string) (args : list string) (w : World) :
  detached (catch (sendText env roomId text) (fun error => logError args error)) w
  = (Ok tt,
     match sendTextMessage env (trace w) roomId text with
     | Some error => record (Log args (Some error)) (record (SendTextMessage roomId text) w)
     | None => record (SendTextMessage roomId text) w
     end).
Proof.
  unfold detached, catch, sendText, call.
  destruct (sendTextMessage env (trace w) roomId text); reflexivity.
Qed.

(** The handler on a forbidden error: evict, resolve again, send once. *)
Lemma onSendError_forbidden (roomId recipient encryptedMessage : string) (error : Js.Error)
    (w : World) (c : MatrixClient) :
  client (this w) = Some c ->
  Js.hasErrcode error "M_FORBIDDEN" = true ->
  onSendError env roomId recipient encryptedMessage error
    (record (SendTextMessage roomId encryptedMessage) (drawn w))
  = match getRelevantRoom env recipient (evicted roomId encryptedMessage error w) with
    | (Ok newRoomId, w3) =>
        (Ok tt,
         match sendTextMessage env (trace w3) newRoomId encryptedMessage with
         | Some error2 =>
             record (Log ["sendMessage"; "inner error"] (Some error2))
                    (record (SendTextMessage newRoomId encryptedMessage) w3)
         | None => record (SendTextMessage newRoomId encryptedMessage) w3
         end)
    | (Thrown e, w3) => (Thrown e, w3)
    end.
Proof.
  intros Hc Hforbidden. unfold onSendError. rewrite Hforbidden.
  unfold bind at 1, logError, emit, modifyWorld.
  unfold bind at 1, deleteRoomIdFromRooms. unfold bind at 1, gets. unfold modifyWorld.
  unfold bind at 1.
  match goal with |- context [getRelevantRoom env recipient ?w0] =>
    change w0 with (evicted roomId encryptedMessage error w)
  end.
  destruct (getRelevantRoom env recipient (evicted roomId encryptedMessage error w))
    as [[newRoomId|e] w3] eqn:Hresolve; [|reflexivity].
  destruct (quiet_getRelevantRoom recipient _ _ _ Hresolve) as [Hthis _].
  unfold bind at 1. rewrite (requireClient_defined w3 c) by (rewrite Hthis; exact Hc).
  apply detached_send_logged.
Qed.

Lemma sendMessage_run (message : string) (peer : PeerInfo) (w : World) (c : MatrixClient)
    (roomId : string) (w1 : World) :
  client (this w) = Some c ->
  getRelevantRoom env (recipientOf env peer) w = (Ok roomId, w1) ->
  sendMessage env message peer w
  = detached (catch (sendText env roomId (encryptedFor env message peer w w1))
                    (onSendError env roomId (recipientOf env peer)
                                 (encryptedFor env message peer w w1)))
             (drawn w1).
Proof.
  intros Hc Hroom. unfold sendMessage.
  unfold bind at 1. rewrite (requireClient_defined w c Hc).
  unfold bind at 1, gets. unfold bind at 1. rewrite Hroom.
  unfold bind at 1, draw. reflexivity.
Qed.

(** When the room cannot be resolved again, nothing more is sent and the
    caller still sees no error. *)
Lemma sendMessage_forbidden_unresolved (message : string) (peer : PeerInfo) (w : World)
    (c : MatrixClient) (roomId : string) (w1 : World) (e e' : Js.Error) (w3 : World) :
  client (this w) = Some c ->
  getRelevantRoom env (recipientOf env peer) w = (Ok roomId, w1) ->
  sendTextMessage env (trace w1) roomId (encryptedFor env message peer w w1) = Some e ->
  Js.hasErrcode e "M_FORBIDDEN" = true ->
  getRelevantRoom env (recipientOf env peer)
    (evicted roomId (encryptedFor env message peer w w1) e w1) = (Thrown e', w3) ->
  sendMessage env message peer w = (Ok tt, record (UnhandledRejection e') w3).
Proof.
  intros Hc Hroom Hsend Hforbidden Hresolve.
  rewrite (sendMessage_run message peer w c roomId w1 Hc Hroom).
  destruct (quiet_getRelevantRoom _ _ _ _ Hroom) as [Hthis _].
  unfold detached, catch at 1. unfold catch at 1, sendText at 1, call.
  change (trace (drawn w1)) with (trace w1). rewrite Hsend.
  rewrite (onSendError_forbidden _ _ _ _ w1 c) by (rewrite ?Hthis; assumption).
  rewrite Hresolve. reflexivity.
Qed.

(** C3: when the first [sendTextMessage] of [sendMessage] fails with
    errcode [M_FORBIDDEN], the call returns without error and the room is
    resolved again for the recipient, who has no entry in the routing cache
    by then.  If that resolution returns a room, it is the room of
    [getRelevantJoinedRoom] (a joined room with the recipient, the standby
    room or a new room), the same encrypted message is sent into it exactly
    once more, an error of that send is only logged, and the stored
    peer-room map is the one from before the call without the entries
    whose value is the failed room and with the recipient bound to the
    resolved room.  If the resolution fails, there is no second send, the
    rejection stays unhandled, and the stored map is the one from before
    the call without the entries of the failed room and without an entry
    for the recipient.  In neither case is there a third send. *)
Theorem sendMessage_forbidden_recovery (message : string) (peer : PeerInfo) (w : World)
    (c : MatrixClient) (roomId : string) (w1 : World) (e : Js.Error) :
  let recipient := recipientOf env peer in
  let encryptedMessage := encryptedFor env message peer w w1 in
  let w2 := evicted roomId encryptedMessage e w1 in
  let remaining := fun k : string =>
    match Storage.MATRIX_PEER_ROOM_IDS (storage w) !! k with
    | Some v => if decide (v = roomId) then None else Some v
    | None => None
    end in
  client (this w) = Some c ->
  getRelevantRoom env recipient w = (Ok roomId, w1) ->
  sendTextMessage env (trace w1) roomId encryptedMessage = Some e ->
  Js.hasErrcode e "M_FORBIDDEN" = true ->
  Storage.MATRIX_PEER_ROOM_IDS (storage w2) !! recipient = None /\
  exists w',
    sendMessage env message peer w = (Ok tt, w') /\
    this w' = this w /\
    match getRelevantRoom env recipient w2 with
    | (Ok newRoomId, w3) =>
        (exists room wj,
           getRelevantJoinedRoom env recipient
             (record (Log ["getRelevantRoom";
                           "No room found for peer " +:+ recipient
                             +:+ ", checking joined ones."] None) w2)
           = (Ok room, wj) /\
           newRoomId = id room) /\
        sentMessages (trace w')
        = sentMessages (trace w)
          ++ [(roomId, encryptedMessage); (newRoomId, encryptedMessage)] /\
        (forall k,
           Storage.MATRIX_PEER_ROOM_IDS (storage w') !! k
           = if decide (k = recipient) then Some newRoomId else remaining k) /\
        trace w'
        = trace w3 ++ SendTextMessage newRoomId encryptedMessage ::
            match sendTextMessage env (trace w3) newRoomId encryptedMessage with
            | Some error2 => [Log ["sendMessage"; "inner error"] (Some error2)]
            | None => []
            end
    | (Thrown e', w3) =>
        sentMessages (trace w') = sentMessages (trace w) ++ [(roomId, encryptedMessage)] /\
        (forall k,
           Storage.MATRIX_PEER_ROOM_IDS (storage w') !! k
           = if decide (k = recipient) then None else remaining k) /\
        trace w' = trace w3 ++ [UnhandledRejection e']
    end.
Proof.
  intros recipient encryptedMessage w2 remaining Hc Hroom Hsend Hforbidden.
  destruct (quiet_getRelevantRoom _ _ _ _ Hroom) as [Hthis (es1 & Htrace1 & Hsent1)].
  pose proof (getRelevantRoom_peerRoomIds _ _ _ _ Hroom) as Hids1. cbn iota in Hids1.
  assert (Hevict : forall k,
    Storage.MATRIX_PEER_ROOM_IDS (storage w2) !! k
    = if decide (k = recipient) then None else remaining k).
  { intros k. subst w2. unfold evicted. cbn [storage setStorage Storage.setPeerRoomIds
      Storage.MATRIX_PEER_ROOM_IDS record drawn].
    rewrite withoutRoom_lookup, Hids1.
    destruct (decide (k = recipient)) as [->|Hne].
    - rewrite lookup_insert_eq. destruct (decide (roomId = roomId)); [reflexivity|congruence].
    - rewrite lookup_insert_ne by congruence. reflexivity. }
  assert (Hmiss : Storage.MATRIX_PEER_ROOM_IDS (storage w2) !! recipient = None).
  { rewrite Hevict. destruct (decide (recipient = recipient)); [reflexivity|congruence]. }
  split; [exact Hmiss|].
  assert (Hsent2 : sentMessages (trace w2)
                   = sentMessages (trace w) ++ [(roomId, encryptedMessage)]).
  { subst w2. unfold evicted. cbn [trace setStorage record drawn].
    rewrite Htrace1, !sentMessages_app, Hsent1. cbn. rewrite !app_nil_r. reflexivity. }
  assert (Hthis2 : this w2 = this w) by (rewrite <- Hthis; reflexivity).
  assert (Hrun : sendMessage env message peer w
                 = match getRelevantRoom env recipient w2 with
                   | (Ok newRoomId, w3) =>
                       (Ok tt,
                        match sendTextMessage env (trace w3) newRoomId encryptedMessage with
                        | Some error2 =>
                            record (Log ["sendMessage"; "inner error"] (Some error2))
                                   (record (SendTextMessage newRoomId encryptedMessage) w3)
                        | None => record (SendTextMessage newRoomId encryptedMessage) w3
                        end)
                   | (Thrown e', w3) => (Ok tt, record (UnhandledRejection e') w3)
                   end).
  { rewrite (sendMessage_run message peer w c roomId w1 Hc Hroom).
    unfold detached, catch at 1. unfold catch at 1, sendText at 1, call.
    change (trace (drawn w1)) with (trace w1).
    fold encryptedMessage recipient. rewrite Hsend.
    rewrite (onSendError_forbidden _ _ _ _ w1 c) by (rewrite ?Hthis; assumption).
    fold w2. destruct (getRelevantRoom env recipient w2) as [[newRoomId|e'] w3]; reflexivity. }
  pose proof (getRelevantRoom_miss recipient w2 Hmiss) as Hscan.
  destruct (getRelevantRoom env recipient w2) as [[newRoomId|e'] w3] eqn:Hresolve.
  - destruct (quiet_getRelevantRoom _ _ _ _ Hresolve) as [Hthis3 (es3 & Htrace3 & Hsent3)].
    pose proof (getRelevantRoom_peerRoomIds _ _ _ _ Hresolve) as Hids3. cbn iota in Hids3.
    assert (Hbase : sentMessages (trace w3)
                    = sentMessages (trace w) ++ [(roomId, encryptedMessage)])
      by (rewrite Htrace3, sentMessages_app, Hsent3, app_nil_r; exact Hsent2).
    assert (Hfinal : forall k,
      Storage.MATRIX_PEER_ROOM_IDS (storage w3) !! k
      = if decide (k = recipient) then Some newRoomId else remaining k).
    { intros k. rewrite Hids3. destruct (decide (k = recipient)) as [->|Hne].
      - apply lookup_insert_eq.
      - rewrite lookup_insert_ne by congruence. rewrite Hevict.
        destruct (decide (k = recipient)); [congruence|reflexivity]. }
    eexists. split; [exact Hrun|].
    assert (Hfresh : exists room wj,
      getRelevantJoinedRoom env recipient
        (record (Log ["getRelevantRoom";
                      "No room found for peer " +:+ recipient
                        +:+ ", checking joined ones."] None) w2)
      = (Ok room, wj) /\ newRoomId = id room).
    { destruct (getRelevantJoinedRoom env recipient _) as [[room|e0] wj]; [|discriminate].
      injection Hscan as -> _. exists room, wj. split; reflexivity. }
    destruct (sendTextMessage env (trace w3) newRoomId encryptedMessage) as [error2|];
      cbn [this trace storage record];
      (split; [congruence|]; split; [exact Hfresh|]; split; [|split; [exact Hfinal|]]).
    + rewrite !sentMessages_app, Hbase. cbn. rewrite ?app_nil_r, <- ?app_assoc. reflexivity.
    + rewrite <- ?app_assoc. reflexivity.
    + rewrite !sentMessages_app, Hbase. cbn. rewrite ?app_nil_r, <- ?app_assoc. reflexivity.
    + reflexivity.
  - destruct (quiet_getRelevantRoom _ _ _ _ Hresolve) as [Hthis3 (es3 & Htrace3 & Hsent3)].
    pose proof (getRelevantRoom_peerRoomIds _ _ _ _ Hresolve) as Hids3. cbn iota in Hids3.
    eexists. split; [exact Hrun|]. cbn [this trace storage record].
    split; [congruence|]. split; [|split; [|reflexivity]].
    + rewrite sentMessages_app, Htrace3, sentMessages_app, Hsent3, Hsent2. cbn.
      rewrite ?app_nil_r. reflexivity.
    + intros k. rewrite Hids3. apply Hevict.
Qed.

(** ** The pairing response *)

Lemma quiet_waitForJoin (roomId : string) : forall (n : nat) (retry : Z),
  Z.to_nat (201 - retry) = n -> quiet (waitForJoin env roomId retry).
Proof.
  induction n as [|n IH]; intros retry Hn; rewrite waitForJoin_equation_1;
    unfold log; repeat quiet_step.
  - lia.
  - apply IH. lia.
Qed.

(** C10: the pairing response that [getPairingResponseInfo] builds has the
    id of the request (it is echoed, no new identifier is generated), the
    type [p2p-pairing-response] and the responder's own name, version,
    public key and relay server; and for a request with a version, the
    channel-open message that [sendPairingResponse] sends seals the
    serialised response with that id. *)
Theorem getPairingResponseInfo_echoes_id (request : PeerInfo) (w : World) :
  (exists info,
     getPairingResponseInfo env request w = (Ok info, w) /\
     info_id info = info_id request /\
     info_type info = "p2p-pairing-response" /\
     info_name info = name (this w) /\
     info_version info = Some (BEACON_VERSION env) /\
     info_publicKey info = getPublicKey env (this w) /\
     info_relayServer info = getRelayServer env (this w) None "") /\
  (forall version w',
     info_version request = Some version ->
     sendPairingResponse env request w = (Ok tt, w') ->
     exists roomId w2 info,
       this w2 = this w /\
       getPairingResponseInfo env request w2 = (Ok info, w2) /\
       info_id info = info_id request /\
       SendTextMessage roomId
         (join ":" ["@channel-open"; recipientOf env request;
                    encryptMessageAsymmetric env (info_publicKey request)
                      (stringifyPeerInfo env info) (entropy w2)])
       ∈ trace w').
Proof.
  split.
  - destruct (getPairingResponseInfo_fields request w)
      as (info & Hrun & Hid & Htype & Hname & Hversion & Hkey & Hrelay & _).
    exists info. repeat split; assumption.
  - intros version w' Hversion. unfold sendPairingResponse.
    unfold bind at 1, requireClient.
    destruct (client (this w)) as [c|] eqn:Hc; [|discriminate].
    unfold bind at 1, log, emit, modifyWorld.
    unfold bind at 1.
    destruct (getRelevantRoom env (recipientOf env request) _) as [[roomId|e] w1] eqn:Hroom;
      [|discriminate].
    unfold bind at 1.
    destruct (waitForJoin env roomId 0 w1) as [[[]|e] w2] eqn:Hwait; [|discriminate].
    destruct (quiet_getRelevantRoom _ _ _ _ Hroom) as [Hthis1 _].
    destruct (quiet_waitForJoin roomId _ 0 eq_refl _ _ _ Hwait) as [Hthis2 _].
    destruct (getPairingResponseInfo_fields request w2) as (info & Hrun & Hid & _).
    unfold bind at 1, gets. rewrite Hversion.
    unfold bind at 1. unfold bind at 1. rewrite Hrun. unfold ret.
    unfold bind at 1, draw.
    rewrite detached_send_logged. intros [= <-].
    exists roomId, w2, info. split; [|split; [exact Hrun|split; [exact Hid|]]].
    + rewrite Hthis2, Hthis1. reflexivity.
    + change (trace (drawn w2)) with (trace w2).
      destruct (sendTextMessage env (trace w2) roomId _); cbn [trace record drawn].
      * apply elem_of_app. left. apply elem_of_app. right. apply list_elem_of_singleton.
        reflexivity.
      * apply elem_of_app. right. apply list_elem_of_singleton. reflexivity.
Qed.

End ClientFacts.

Lemma sendMessage_forbidden_recovery_witness :
  exists w',
    P2P.sendMessage (Samples.sampleEnv None 1) "hi" Samples.samplePeer Samples.routedWorld
    = (P2P.Ok tt, w') /\
    P2P.sentMessages (P2P.trace w') = [("!old", "tx|hi"); ("!room0", "tx|hi")] /\
    Storage.MATRIX_PEER_ROOM_IDS (P2P.storage w') !! "@ff:relay-a" = Some "!room0" /\
    Storage.MATRIX_PEER_ROOM_IDS (P2P.storage w') !! "@other:relay-a" = None /\
    Storage.MATRIX_PEER_ROOM_IDS (P2P.storage w') !! "@x:relay-a" = Some "!keep".
Proof.
  set (env := Samples.sampleEnv None 1).
  set (w1 := (P2P.getRelevantRoom env (P2P.recipientOf env Samples.samplePeer)
                Samples.routedWorld).2).
  destruct (sendMessage_forbidden_recovery env "hi" Samples.samplePeer Samples.routedWorld
              (P2P.mkMatrixClient "https://relay-b") "!old" w1 Samples.forbidden)
    as (_ & w' & Hrun & _ & Hcases).
  - reflexivity.
  - vm_compute. reflexivity.
  - vm_compute. reflexivity.
  - reflexivity.
  - set (w3 := (P2P.getRelevantRoom env (P2P.recipientOf env Samples.samplePeer)
                  (P2P.evicted "!old"
                     (P2P.encryptedFor env "hi" Samples.samplePeer Samples.routedWorld w1)
                     Samples.forbidden w1)).2).
    assert (Hresolve :
      P2P.getRelevantRoom env (P2P.recipientOf env Samples.samplePeer)
        (P2P.evicted "!old"
           (P2P.encryptedFor env "hi" Samples.samplePeer Samples.routedWorld w1)
           Samples.forbidden w1) = (P2P.Ok "!room0", w3))
      by (vm_compute; reflexivity).
    rewrite Hresolve in Hcases. destruct Hcases as (_ & Hsent & Hids & _).
    exists w'. split; [exact Hrun|]. split; [exact Hsent|].
    split; [|split].
    + rewrite Hids. reflexivity.
    + rewrite Hids. reflexivity.
    + rewrite Hids. reflexivity.
Defined.

(** C3 (as stated) fails: when the chat server creates no room after the
    forbidden send, the room cannot be resolved again and the message is
    not sent a second time. *)
Lemma sendMessage_forbidden_counterexample :
  ~ Spec.retriesOnce RecoverySamples.closedEnv "hi" Samples.samplePeer Samples.routedWorld.
Proof.
  intros H.
  destruct (H "!old"
              (P2P.getRelevantRoom RecoverySamples.closedEnv
                 (P2P.recipientOf RecoverySamples.closedEnv Samples.samplePeer)
                 Samples.routedWorld).2 Samples.forbidden)
    as (newRoomId & Hsent).
  - vm_compute. reflexivity.
  - vm_compute. reflexivity.
  - reflexivity.
  - vm_compute in Hsent. discriminate Hsent.
Qed.

(** With that chat server the call still returns without error; its one
    text message is the failed send, the rejection of the handler stays
    unhandled, and the recipient is left without a room. *)
Example sendMessage_forbidden_without_room :
  exists w',
    P2P.sendMessage RecoverySamples.closedEnv "hi" Samples.samplePeer Samples.routedWorld
    = (P2P.Ok tt, w') /\
    P2P.sentMessages (P2P.trace w') = [("!old", "tx|hi")] /\
    last (P2P.trace w') = Some (P2P.UnhandledRejection RecoverySamples.unavailable) /\
    Storage.MATRIX_PEER_ROOM_IDS (P2P.storage w') !! "@ff:relay-a" = None /\
    Storage.MATRIX_PEER_ROOM_IDS (P2P.storage w') !! "@x:relay-a" = Some "!keep".
Proof. eexists. split; [vm_compute; reflexivity|]. repeat split; vm_compute; reflexivity. Qed.

(** The room that is resolved again need not differ from the failed one:
    when the chat server still lists the failed room as joined with the
    recipient in it, the second send goes into that room again. *)
Example sendMessage_retry_into_failed_room :
  exists w',
    P2P.sendMessage RecoverySamples.stuckEnv "hi" Samples.samplePeer Samples.routedWorld
    = (P2P.Ok tt, w') /\
    P2P.sentMessages (P2P.trace w') = [("!old", "tx|hi"); ("!old", "tx|hi")] /\
    Storage.MATRIX_PEER_ROOM_IDS (P2P.storage w') !! "@ff:relay-a" = Some "!old" /\
    Storage.MATRIX_PEER_ROOM_IDS (P2P.storage w') !! "@other:relay-a" = None.
Proof. eexists. split; [vm_compute; reflexivity|]. repeat split; vm_compute; reflexivity. Qed.

(** C4 (as stated) fails: when nobody joins, [waitForJoin] gives up only
    after 155.1 s, far beyond 30 s. *)
Lemma waitForJoin_wait_counterexample :
  ~ Spec.joinWaitWithin 30000 (Samples.sampleEnv None 1) "!r" Samples.startedWorld.
Proof.
  intros H.
  specialize (H _ _ (surjective_pairing
    (P2P.waitForJoin (Samples.sampleEnv None 1) "!r" 0 Samples.startedWorld))).
  vm_compute in H. apply H. reflexivity.
Qed.

Lemma waitForJoin_polls_with_bounded_wait_witness :
  exists w',
    P2P.waitForJoin (Samples.sampleEnv None 1) "!r" 0 Samples.startedWorld
    = (P2P.Thrown (Js.newError "No one joined after 201 tries."), w') /\
    P2P.now w' - P2P.now Samples.startedWorld = 155100.
Proof.
  destruct (waitForJoin_polls_with_bounded_wait (Samples.sampleEnv None 1)
              Samples.startedWorld "!r" (P2P.mkMatrixClient "https://relay-b") eq_refl)
    as (_ & _ & _ & Hwait & _).
  destruct (Hwait _ _ (surjective_pairing
              (P2P.waitForJoin (Samples.sampleEnv None 1) "!r" 0 Samples.startedWorld)))
    as [_ Hthrown].
  destruct (Hthrown (Js.newError "No one joined after 201 tries.")) as [_ Htime].
  - vm_compute. reflexivity.
  - eexists. split; [|exact Htime]. vm_compute. reflexivity.
Defined.

(** C7 (as stated) fails: the type of the descriptor is
    [p2p-pairing-request]. *)
Lemma getPairingRequestInfo_counterexample :
  ~ Spec.pairingRequestAsSpecified (Samples.sampleEnv None 1) (Samples.idleWorld false).
Proof.
  intros (info & w' & Hrun & Htype & _).
  vm_compute in Hrun. injection Hrun as <- _. discriminate Htype.
Qed.

(** The relay server of the descriptor is selected with the empty nonce:
    over the servers [relay-a; relay-b] it is [relay-a], while the server
    that [start] connects to, selected with the nonce [0], is [relay-b]. *)
Example pairing_request_relay_uses_empty_nonce :
  exists info w',
    P2P.getPairingRequestInfo (Samples.sampleEnv None 1) (Samples.idleWorld false)
    = (P2P.Ok info, w') /\
    P2P.info_relayServer info = Some "relay-a" /\
    P2P.getRelayServer (Samples.sampleEnv None 1) (P2P.this (Samples.idleWorld false))
      (Some (P2P.getPublicKeyHash (Samples.sampleEnv None 1)
               (P2P.this (Samples.idleWorld false)))) "0" = Some "relay-b" /\
    exists w'',
      P2P.start (Samples.sampleEnv None 1) (Samples.idleWorld false) = (P2P.Ok tt, w'') /\
      P2P.client (P2P.this w'') = Some (P2P.mkMatrixClient "https://relay-b").
Proof.
  eexists _, _. split; [vm_compute; reflexivity|].
  split; [reflexivity|]. split; [vm_compute; reflexivity|].
  eexists. split; vm_compute; reflexivity.
Qed.

Lemma sample_generateGUID_inj (m n : nat) :
  P2P.generateGUID (Samples.sampleEnv None 1) m = P2P.generateGUID (Samples.sampleEnv None 1) n ->
  m = n.
Proof.
  cbn. intros H. apply (inj pretty). apply (inj (String.app "guid-")). exact H.
Qed.

Lemma getPairingRequestInfo_descriptor_witness :
  exists info1 info2 w2,
    P2P.getPairingRequestInfo (Samples.sampleEnv None 1) (Samples.idleWorld false)
    = (P2P.Ok info1, P2P.drawn (Samples.idleWorld false)) /\
    P2P.getPairingRequestInfo (Samples.sampleEnv None 1) (P2P.drawn (Samples.idleWorld false))
    = (P2P.Ok info2, w2) /\
    P2P.info_type info1 = "p2p-pairing-request" /\
    P2P.info_id info2 <> P2P.info_id info1.
Proof.
  destruct (getPairingRequestInfo_descriptor (Samples.sampleEnv None 1)
              (Samples.idleWorld false))
    as (info1 & Hrun & _ & Hfresh & Htype & _).
  destruct (getPairingRequestInfo_descriptor (Samples.sampleEnv None 1)
              (P2P.drawn (Samples.idleWorld false)))
    as (info2 & Hrun2 & _).
  exists info1, info2, (P2P.drawn (P2P.drawn (Samples.idleWorld false))).
  split; [exact Hrun|]. split; [exact Hrun2|]. split; [exact Htype|].
  exact (Hfresh info2 _ sample_generateGUID_inj Hrun2).
Defined.

(** C8 (as stated) fails: on a client that is no wallet and was never
    started, [prepareStandbyRoom] returns without an error. *)
Lemma not_ready_counterexample :
  P2P.client (P2P.this (Samples.idleWorld false)) = None /\
  ~ Spec.allRaiseNotReady (Samples.sampleEnv None 1) (Samples.idleWorld false).
Proof.
  split; [reflexivity|].
  intros (_ & Hprepare & _). unfold Spec.raisesNotReady in Hprepare.
  vm_compute in Hprepare. discriminate Hprepare.
Qed.

Lemma not_ready_raised_eagerly_witness :
  Spec.raisesNotReady
    (P2P.sendMessage (Samples.sampleEnv None 1) "hi" Samples.samplePeer)
    (Samples.idleWorld true) /\
  Spec.raisesNotReady (P2P.prepareStandbyRoom (Samples.sampleEnv None 1))
    (Samples.idleWorld true).
Proof.
  destruct (not_ready_raised_eagerly (Samples.sampleEnv None 1) (Samples.idleWorld true)
              eq_refl)
    as (_ & _ & _ & _ & Hsend & _ & _ & _ & Hwallet & _).
  split; [apply Hsend|]. exact (proj1 (Hwallet eq_refl)).
Defined.

Lemma getPairingResponseInfo_echoes_id_witness :
  exists roomId w2 info,
    P2P.info_id info = "id-1" /\
    P2P.SendTextMessage roomId
      (P2P.join ":" ["@channel-open"; P2P.recipientOf (Samples.sampleEnv None 2) Samples.samplePeer;
                     P2P.encryptMessageAsymmetric (Samples.sampleEnv None 2)
                       (P2P.info_publicKey Samples.samplePeer)
                       (P2P.stringifyPeerInfo (Samples.sampleEnv None 2) info)
                       (P2P.entropy w2)])
    ∈ P2P.trace (P2P.sendPairingResponse (Samples.sampleEnv None 2) Samples.samplePeer
                   Samples.startedWorld).2.
Proof.
  destruct (getPairingResponseInfo_echoes_id (Samples.sampleEnv None 2) Samples.samplePeer
              Samples.startedWorld) as [_ Hsend].
  destruct (Hsend "2"
              (P2P.sendPairingResponse (Samples.sampleEnv None 2) Samples.samplePeer
                 Samples.startedWorld).2 eq_refl)
    as (roomId & w2 & info & _ & _ & Hid & Hin).
  - vm_compute. reflexivity.
  - exists roomId, w2, info. split; [exact Hid|exact Hin].
Defined.

(* ===================================================================== *)
(** * Further properties of the state store *)
(* ===================================================================== *)

Section RecordFacts.
Import Matrix.

Lemma recordGet_recordSet (rooms : RoomRecord) (key key' : string) (l : loc) :
  recordGet (recordSet rooms key l) key'
  = if String.eqb key key' then Some l else recordGet rooms key'.
Proof.
  induction rooms as [|[k l0] rooms IH]; cbn.
  - destruct (String.eqb key key'); reflexivity.
  - destruct (String.eqb_spec k key) as [->|Hne]; cbn.
    + destruct (String.eqb key key'); reflexivity.
    + rewrite IH. destruct (String.eqb_spec k key') as [->|Hne'].
      * destruct (String.eqb_spec key key') as [->|_]; [congruence|reflexivity].
      * reflexivity.
Qed.

Lemma recordSet_new (rooms : RoomRecord) (key : string) (l : loc) :
  key ∉ rooms.*1 -> recordSet rooms key l = rooms ++ [(key, l)].
Proof.
  induction rooms as [|[k l0] rooms IH]; cbn; intros Hkey; [reflexivity|].
  apply not_elem_of_cons in Hkey as [Hne Hkey].
  destruct (String.eqb_spec k key) as [->|_]; [congruence|].
  rewrite IH by exact Hkey. reflexivity.
Qed.

Lemma recordSet_keys (rooms : RoomRecord) (key : string) (l : loc) :
  (recordSet rooms key l).*1 = if bool_decide (key ∈ rooms.*1) then rooms.*1
                               else rooms.*1 ++ [key].
Proof.
  induction rooms as [|[k l0] rooms IH]; cbn; [reflexivity|].
  destruct (String.eqb_spec k key) as [->|Hne]; cbn.
  - rewrite bool_decide_eq_true_2 by (apply elem_of_cons; left; reflexivity). reflexivity.
  - rewrite IH. destruct (bool_decide (key ∈ rooms.*1)) eqn:Hin.
    + apply bool_decide_eq_true in Hin.
      rewrite bool_decide_eq_true_2 by (apply elem_of_cons; right; exact Hin). reflexivity.
    + apply bool_decide_eq_false in Hin.
      rewrite bool_decide_eq_false_2; [reflexivity|].
      intros Hin'. apply elem_of_cons in Hin' as [->|Hin']; [congruence|contradiction].
Qed.

Lemma recordSet_NoDup (rooms : RoomRecord) (key : string) (l : loc) :
  NoDup rooms.*1 -> NoDup (recordSet rooms key l).*1.
Proof.
  intros Hnd. rewrite recordSet_keys.
  destruct (bool_decide (key ∈ rooms.*1)) eqn:Hin; [exact Hnd|].
  apply bool_decide_eq_false in Hin.
  apply NoDup_app. split; [exact Hnd|]. split.
  - intros k Hk Hk'. apply list_elem_of_singleton in Hk'. subst k. contradiction.
  - apply NoDup_singleton.
Qed.

Lemma recordSet_Forall_keyed (P : string * loc -> Prop) (rooms : RoomRecord) key l :
  P (key, l) -> Forall P rooms -> Forall P (recordSet rooms key l).
Proof.
  intros Hnew. induction 1 as [|[k l0] rooms Hx Hrest IH]; cbn.
  - constructor; [exact Hnew|constructor].
  - destruct (String.eqb_spec k key) as [->|_]; constructor; auto.
Qed.

Lemma recordGet_Some_key (rooms : RoomRecord) (key : string) (l : loc) :
  recordGet rooms key = Some l -> (key, l) ∈ rooms.
Proof.
  induction rooms as [|[k l0] rooms IH]; cbn; [discriminate|].
  destruct (String.eqb_spec k key) as [->|_].
  - intros [= ->]. apply elem_of_cons. left. reflexivity.
  - intros H. apply elem_of_cons. right. apply IH. exact H.
Qed.

Lemma wellFormed_grow (h extra : Heap) (rooms : RoomRecord) :
  StoreShape.wellFormed h rooms -> StoreShape.wellFormed (h ++ extra) rooms.
Proof.
  intros [Hnd Hall]. split; [exact Hnd|].
  eapply Forall_impl; [exact Hall|]. intros [k l] (r & Hl & Hid).
  exists r. split; [apply lookup_app_l_Some; exact Hl|exact Hid].
Qed.

End RecordFacts.

Section StoreMore.
Import Matrix MatrixClientStore.

Variable merge : MatrixRoom -> option MatrixRoom -> MatrixRoom.

(** Merging rooms only appends objects to the heap. *)
Lemma mergeRoom_fold_grows (old : RoomRecord) : forall (ls : list loc) (h : Heap) merged,
  exists extra, (foldl (mergeRoom merge old) (h, merged) ls).1 = h ++ extra.
Proof.
  induction ls as [|l ls IH]; intros h merged; cbn [foldl].
  - exists []. rewrite app_nil_r. reflexivity.
  - unfold mergeRoom at 2. destruct (h !! l) as [r|]; [|apply IH]. cbn.
    destruct (IH (h ++ [merge r (recordGet old (id r) ≫= (fun l0 => h !! l0))])
                 (recordSet merged (id r) (length h))) as [extra Hextra].
    exists ([merge r (recordGet old (id r) ≫= (fun l0 => h !! l0))] ++ extra).
    rewrite Hextra, <- app_assoc. reflexivity.
Qed.

Lemma mergeRooms_grows (old : RoomRecord) (arg : option RoomsArg) (h : Heap) :
  exists extra, (mergeRooms merge old arg h).1 = h ++ extra.
Proof.
  unfold mergeRooms. destruct arg as [arg|]; [apply mergeRoom_fold_grows|].
  exists []. rewrite app_nil_r. reflexivity.
Qed.

Lemma setState_heap_rooms (p : PartialState) (w : t) :
  heap (setState merge p w) = (mergeRooms merge (rooms (state w)) (p_rooms p) (heap w)).1 /\
  rooms (state (setState merge p w))
  = (mergeRooms merge (rooms (state w)) (p_rooms p) (heap w)).2.
Proof.
  unfold setState. destruct (mergeRooms merge (rooms (state w)) (p_rooms p) (heap w)).
  split; reflexivity.
Qed.

(** The heap at the end of an update extends the heap at its start. *)
Lemma update_heap_grows (p : PartialState) (w : t) :
  exists extra, heap (update merge p w) = heap w ++ extra.
Proof.
  rewrite update_heap, updateStorage_spec.
  destruct (setState_heap_rooms p w) as [Hheap _].
  destruct (mergeRooms_grows (rooms (state w)) (p_rooms p) (heap w)) as [extra Hextra].
  destruct (Spec.updatesPreservedField p); cbn; rewrite Hheap, Hextra.
  - eexists. rewrite <- app_assoc. reflexivity.
  - eexists. reflexivity.
Qed.

Lemma update_rooms (p : PartialState) (w : t) :
  rooms (state (update merge p w))
  = (mergeRooms merge (rooms (state w)) (p_rooms p) (heap w)).2.
Proof. rewrite update_state. apply setState_heap_rooms. Qed.

Lemma mergeRooms_as_fold (old : RoomRecord) (p : PartialState) (h : Heap) :
  mergeRooms merge old (p_rooms p) h
  = match p_rooms p with
    | None => (h, old)
    | Some _ => foldl (mergeRoom merge old) (h, old) (StoreShape.updateRooms p)
    end.
Proof.
  unfold mergeRooms, StoreShape.updateRooms.
  destruct (p_rooms p) as [[rs|rs]|]; reflexivity.
Qed.

Lemma mergeRoom_fold_wellFormed (old : RoomRecord) :
  (forall r previous, id (merge r previous) = id r) ->
  forall (ls : list loc) (h : Heap) merged,
    StoreShape.wellFormed h merged ->
    StoreShape.wellFormed (foldl (mergeRoom merge old) (h, merged) ls).1
                          (foldl (mergeRoom merge old) (h, merged) ls).2.
Proof.
  intros Hid ls. induction ls as [|l ls IH]; intros h merged Hwf; cbn [foldl].
  - exact Hwf.
  - unfold mergeRoom at 2 4. destruct (h !! l) as [r|]; [|apply IH; exact Hwf]. cbn.
    apply IH. destruct (wellFormed_grow h [merge r (recordGet old (id r) ≫= (fun l0 => h !! l0))]
                          merged Hwf) as [Hnd Hall].
    split; [apply recordSet_NoDup; exact Hnd|].
    apply recordSet_Forall_keyed; [|exact Hall].
    eexists. split.
    + cbn. rewrite lookup_app_r by lia.
      replace (length h - length h)%nat with 0%nat by lia. reflexivity.
    + apply Hid.
Qed.

Lemma setState_wellFormed (p : PartialState) (w : t) :
  (forall r previous, id (merge r previous) = id r) ->
  StoreShape.wellFormed (heap w) (rooms (state w)) ->
  StoreShape.wellFormed (heap (setState merge p w)) (rooms (state (setState merge p w))).
Proof.
  intros Hid Hwf. destruct (setState_heap_rooms p w) as [-> ->].
  rewrite mergeRooms_as_fold. destruct (p_rooms p); [|exact Hwf].
  apply mergeRoom_fold_wellFormed; assumption.
Qed.

(** X1: when [MatrixRoom.merge] keeps the id of the new room, the rooms of
    the state are always well formed: after the creation of a store from
    any storage, and after every update of a well-formed store, no room id
    occurs twice and every entry refers to a room object that carries the
    id it is filed under. *)
Theorem store_rooms_well_formed :
  (forall r previous, id (merge r previous) = id r) ->
  (forall h0 s,
     StoreShape.wellFormed (heap (create merge h0 s)) (rooms (state (create merge h0 s)))) /\
  (forall p w,
     StoreShape.wellFormed (heap w) (rooms (state w)) ->
     StoreShape.wellFormed (heap (update merge p w)) (rooms (state (update merge p w)))).
Proof.
  intros Hid. split.
  - intros h0 s. unfold create, initFromStorage. cbn [storage heap].
    destruct (Storage.MATRIX_PRESERVED_STATE s) as [preserved|].
    + destruct (JSON_parse h0 preserved) as [h1 parsed].
      apply setState_wellFormed; [exact Hid|]. split; constructor.
    + apply setState_wellFormed; [exact Hid|]. split; constructor.
  - intros p w Hwf. rewrite update_state, update_heap, updateStorage_spec.
    pose proof (setState_wellFormed p w Hid Hwf) as Hset.
    destruct (Spec.updatesPreservedField p); cbn; [|exact Hset].
    apply wellFormed_grow. exact Hset.
Qed.

Lemma mergeRoom_fold_keeps_keys (old : RoomRecord) (key : string) :
  forall (ls : list loc) (h : Heap) merged,
    is_Some (recordGet merged key) ->
    is_Some (recordGet (foldl (mergeRoom merge old) (h, merged) ls).2 key).
Proof.
  induction ls as [|l ls IH]; intros h merged Hkey; cbn [foldl]; [exact Hkey|].
  unfold mergeRoom at 2. destruct (h !! l) as [r|]; [|apply IH; exact Hkey]. cbn.
  apply IH. rewrite recordGet_recordSet.
  destruct (String.eqb (id r) key); [eexists; reflexivity|exact Hkey].
Qed.

(** While the rooms of an update are merged, a room id that the update
    does not mention keeps its entry. *)
Lemma mergeRoom_fold_untouched (old : RoomRecord) (key : string) (h : Heap) :
  forall (ls : list loc) (extra : Heap) merged,
    Forall (fun l => is_Some (h !! l)) ls ->
    key ∉ omap (fun l => id <$> h !! l) ls ->
    recordGet (foldl (mergeRoom merge old) (h ++ extra, merged) ls).2 key
    = recordGet merged key.
Proof.
  induction ls as [|l ls IH]; intros extra merged Hvalid Hkey; cbn [foldl]; [reflexivity|].
  apply Forall_cons in Hvalid as [[r Hl] Hvalid].
  cbn in Hkey. rewrite Hl in Hkey. cbn in Hkey.
  apply not_elem_of_cons in Hkey as [Hne Hkey].
  unfold mergeRoom at 2. rewrite (lookup_app_l_Some _ _ _ _ Hl). cbn.
  rewrite <- app_assoc. rewrite IH by assumption.
  rewrite recordGet_recordSet.
  destruct (String.eqb_spec (id r) key) as [Heq|_]; [congruence|reflexivity].
Qed.

(** X2: [update] never removes a room: every room id of the state is still
    there after the update; and a room that the update does not mention,
    the references of the update being valid, keeps the very same room
    object, unchanged. *)
Theorem update_never_drops_rooms (p : PartialState) (w : t) (key : string) (l : loc) :
  recordGet (rooms (state w)) key = Some l ->
  is_Some (recordGet (rooms (state (update merge p w))) key) /\
  (StoreShape.refsValid (heap w) p ->
   key ∉ StoreShape.mentioned (heap w) p ->
   recordGet (rooms (state (update merge p w))) key = Some l /\
   forall r, heap w !! l = Some r -> heap (update merge p w) !! l = Some r).
Proof.
  intros Hkey. rewrite update_rooms, mergeRooms_as_fold. split.
  - destruct (p_rooms p); [|cbn; rewrite Hkey; eexists; reflexivity].
    apply mergeRoom_fold_keeps_keys. rewrite Hkey. eexists. reflexivity.
  - intros Hvalid Hfree. split.
    + destruct (p_rooms p); [|exact Hkey].
      pose proof (mergeRoom_fold_untouched (rooms (state w)) key (heap w)
                    (StoreShape.updateRooms p) [] (rooms (state w)) Hvalid Hfree) as H.
      rewrite app_nil_r in H. rewrite H. exact Hkey.
    + intros r Hl. destruct (update_heap_grows p w) as [extra ->].
      apply lookup_app_l_Some. exact Hl.
Qed.

Lemma wellFormed_lookup (h : Heap) (rooms : RoomRecord) (key : string) (l : loc) :
  StoreShape.wellFormed h rooms -> recordGet rooms key = Some l ->
  exists r, h !! l = Some r /\ id r = key.
Proof.
  intros [_ Hall] Hget. apply recordGet_Some_key in Hget.
  exact (proj1 (Forall_forall _ _) Hall _ Hget).
Qed.

(** X3: when an update lists a room, the state afterwards files under the
    id of that room a new object, the merge of the listed room with the
    room the state had under that id before the update (or with nothing);
    when the update lists the same id several times, the last occurrence
    is the one that is merged and kept. *)
Theorem update_merges_last_occurrence (p : PartialState) (w : t)
    (before after : list loc) (l : loc) (r : MatrixRoom) :
  StoreShape.wellFormed (heap w) (rooms (state w)) ->
  StoreShape.refsValid (heap w) p ->
  is_Some (p_rooms p) ->
  StoreShape.updateRooms p = before ++ l :: after ->
  heap w !! l = Some r ->
  id r ∉ omap (fun l0 => id <$> heap w !! l0) after ->
  exists l',
    recordGet (rooms (state (update merge p w))) (id r) = Some l' /\
    heap (update merge p w) !! l'
    = Some (merge r (recordGet (rooms (state w)) (id r) ≫= (fun l0 => heap w !! l0))).
Proof.
  intros Hwf Hvalid [arg Harg] Hsplit Hl Hlast.
  rewrite update_rooms, mergeRooms_as_fold, Harg, Hsplit, foldl_app. cbn [foldl].
  unfold StoreShape.refsValid in Hvalid. rewrite Hsplit in Hvalid.
  apply Forall_app in Hvalid as [_ Hvalid]. apply Forall_cons in Hvalid as [_ Hafter].
  destruct (foldl (mergeRoom merge (rooms (state w))) (heap w, rooms (state w)) before)
    as [h1 m1] eqn:Hfold.
  destruct (mergeRoom_fold_grows (rooms (state w)) before (heap w) (rooms (state w)))
    as [e1 He1].
  rewrite Hfold in He1. cbn in He1. subst h1.
  assert (Hprev : recordGet (rooms (state w)) (id r) ≫= (fun l0 => (heap w ++ e1) !! l0)
                  = recordGet (rooms (state w)) (id r) ≫= (fun l0 => heap w !! l0)).
  { destruct (recordGet (rooms (state w)) (id r)) as [lo|] eqn:Hold; [|reflexivity]. cbn.
    destruct (wellFormed_lookup _ _ _ _ Hwf Hold) as (ro & Hlo & _).
    rewrite Hlo. apply lookup_app_l_Some. exact Hlo. }
  unfold mergeRoom at 2. rewrite (lookup_app_l_Some _ _ _ _ Hl). cbn. rewrite Hprev.
  set (merged := merge r (recordGet (rooms (state w)) (id r) ≫= (fun l0 => heap w !! l0))).
  exists (length (heap w ++ e1)). split.
  - rewrite <- app_assoc.
    rewrite (mergeRoom_fold_untouched (rooms (state w)) (id r) (heap w) after
               (e1 ++ [merged]) _ Hafter Hlast).
    rewrite recordGet_recordSet, String.eqb_refl. reflexivity.
  - assert (Hset : exists e2, heap (setState merge p w) = (heap w ++ e1) ++ [merged] ++ e2).
    { destruct (setState_heap_rooms p w) as [-> _].
      rewrite mergeRooms_as_fold, Harg, Hsplit, foldl_app, Hfold. cbn [foldl].
      unfold mergeRoom at 2. rewrite (lookup_app_l_Some _ _ _ _ Hl). cbn. rewrite Hprev.
      fold merged.
      destruct (mergeRoom_fold_grows (rooms (state w)) after ((heap w ++ e1) ++ [merged])
                  (recordSet m1 (id r) (length (heap w ++ e1)))) as [e2 He2].
      exists e2. rewrite He2, <- app_assoc. reflexivity. }
    destruct Hset as [e2 Hset].
    apply updateStorage_heap_frame. rewrite Hset.
    rewrite lookup_app_r by lia.
    replace (length (heap w ++ e1) - length (heap w ++ e1))%nat with 0%nat by lia.
    reflexivity.
Qed.

Lemma recordGet_None (rooms : RoomRecord) (key : string) :
  recordGet rooms key = None -> key ∉ rooms.*1.
Proof.
  induction rooms as [|[k l] rooms IH]; cbn; intros Hget.
  - apply not_elem_of_nil.
  - destruct (String.eqb_spec k key) as [->|Hne]; [discriminate|].
    apply not_elem_of_cons. split; [congruence|apply IH; exact Hget].
Qed.

(** In a well-formed state every room is found, under its own id. *)
Lemma roomValues_wellFormed (h : Heap) (rooms : RoomRecord) :
  StoreShape.wellFormed h rooms ->
  id <$> (Spec.roomValues h rooms).*2 = rooms.*1.
Proof.
  intros [_ Hall]. induction Hall as [|[k l] rooms (r & Hl & Hid) _ IH]; [reflexivity|].
  unfold Spec.roomValues in *. cbn in *. rewrite Hl. cbn. rewrite IH, Hid. reflexivity.
Qed.

Lemma roomValues_elem (h : Heap) (rooms : RoomRecord) (key : string) (l : loc) (r : MatrixRoom) :
  recordGet rooms key = Some l -> h !! l = Some r -> r ∈ (Spec.roomValues h rooms).*2.
Proof.
  intros Hget Hl. apply recordGet_Some_key in Hget.
  apply list_elem_of_fmap. exists (key, r). split; [reflexivity|].
  apply list_elem_of_omap. exists (key, l). split; [exact Hget|].
  cbn. rewrite Hl. reflexivity.
Qed.

(** What [JSON.parse] makes of the blob that [updateStorage] writes: one
    new object per room of the state, with the messages cleared. *)
Lemma parse_preservedBlob_rooms (h0 h : Heap) (st : MatrixStateStore) :
  let news := clearMessages <$> (Spec.roomValues h (rooms st)).*2 in
  exists rec parsed,
    rec.*2 = seq (length h0) (length news) /\
    JSON_parse h0 (Spec.preservedBlob h st) = (h0 ++ news, parsed) /\
    p_rooms (asPartial parsed) = Some (RoomsRecord rec).
Proof.
  cbv zeta.
  set (R := (fun kr : string * MatrixRoom => (kr.1, clearMessages kr.2))
              <$> Spec.roomValues h (rooms st)).
  assert (HR : R.*2 = clearMessages <$> (Spec.roomValues h (rooms st)).*2).
  { subst R. rewrite <- !list_fmap_compose. reflexivity. }
  rewrite <- HR.
  exists (zip R.*1 (seq (length h0) (length R))). 
  unfold Spec.preservedBlob. fold R.
  destruct (syncToken st) as [token|]; cbn; rewrite allocRecord_spec;
    eexists; (split; [|split; reflexivity]);
    rewrite length_fmap; apply snd_zip; rewrite length_seq, length_fmap; lia.
Qed.

(** Merging freshly parsed rooms into the empty state: every parsed room
    is merged with nothing and filed under its id. *)
Lemma hydrate_fold : forall (R : list MatrixRoom) (pre extra : Heap) (merged : RoomRecord),
  NoDup (id <$> R) ->
  (forall key, key ∉ id <$> R ->
     recordGet (foldl (mergeRoom merge []) (pre ++ R ++ extra, merged)
                  (seq (length pre) (length R))).2 key
     = recordGet merged key) /\
  (forall r, r ∈ R ->
     exists l',
       recordGet (foldl (mergeRoom merge []) (pre ++ R ++ extra, merged)
                    (seq (length pre) (length R))).2 (id r) = Some l' /\
       (foldl (mergeRoom merge []) (pre ++ R ++ extra, merged)
          (seq (length pre) (length R))).1 !! l' = Some (merge r None)).
Proof.
  induction R as [|r R IH]; intros pre extra merged Hnd.
  - split; [reflexivity|]. intros r Hr. apply elem_of_nil in Hr. contradiction.
  - cbn in Hnd. apply NoDup_cons in Hnd as [Hfresh Hnd].
    cbn [length seq foldl]. unfold mergeRoom at 2 4 6.
    assert (Hl : (pre ++ (r :: R) ++ extra) !! length pre = Some r).
    { rewrite lookup_app_r by lia.
      replace (length pre - length pre)%nat with 0%nat by lia. reflexivity. }
    rewrite Hl. cbn [recordGet mbind option_bind alloc].
    set (l0 := length (pre ++ (r :: R) ++ extra)).
    assert (Hheap : (pre ++ (r :: R) ++ extra) ++ [merge r None]
                    = (pre ++ [r]) ++ R ++ (extra ++ [merge r None])).
    { rewrite <- !app_assoc. reflexivity. }
    assert (Hlen : S (length pre) = length (pre ++ [r])).
    { rewrite length_app. cbn. lia. }
    rewrite Hheap, Hlen.
    destruct (IH (pre ++ [r]) (extra ++ [merge r None]) (recordSet merged (id r) l0) Hnd)
      as [Hother Hmember].
    split.
    + intros key Hkey. cbn in Hkey. apply not_elem_of_cons in Hkey as [Hne Hkey].
      rewrite (Hother key Hkey), recordGet_recordSet.
      destruct (String.eqb_spec (id r) key) as [Heq|_]; [congruence|reflexivity].
    + intros r0 Hr0. apply elem_of_cons in Hr0 as [->|Hr0]; [|apply Hmember; exact Hr0].
      exists l0. split.
      * rewrite (Hother (id r) Hfresh), recordGet_recordSet, String.eqb_refl. reflexivity.
      * destruct (mergeRoom_fold_grows [] (seq (length (pre ++ [r])) (length R))
                    ((pre ++ [r]) ++ R ++ extra ++ [merge r None])
                    (recordSet merged (id r) l0)) as [e ->].
        apply lookup_app_l_Some. rewrite <- Hheap.
        subst l0. rewrite lookup_app_r by lia.
        replace (length (pre ++ (r :: R) ++ extra) - length (pre ++ (r :: R) ++ extra))%nat
          with 0%nat by lia.
        reflexivity.
Qed.

(** What a new store reads back from the blob of a well-formed state:
    under every room id the room of that state with its messages cleared,
    merged with nothing; and no other room. *)
Lemma create_reloads_rooms (h0 h : Heap) (st : MatrixStateStore) (s : Storage.t)
    (key : string) :
  StoreShape.wellFormed h (rooms st) ->
  Storage.MATRIX_PRESERVED_STATE s = Some (Spec.preservedBlob h st) ->
  recordGet (rooms (state (create merge h0 s))) key
    ≫= (fun l => heap (create merge h0 s) !! l)
  = (fun r => merge (clearMessages r) None) <$> (recordGet (rooms st) key ≫= (fun l => h !! l)).
Proof.
  intros Hwf Hstored. unfold create, initFromStorage. cbn [storage heap].
  rewrite Hstored.
  destruct (parse_preservedBlob_rooms h0 h st) as (rec & parsed & Hrec & Hparse & Hrooms).
  cbv zeta in Hrec, Hparse. rewrite Hparse.
  set (news := clearMessages <$> (Spec.roomValues h (rooms st)).*2) in *.
  destruct (setState_heap_rooms (asPartial parsed)
              (withHeap (h0 ++ news) (mkStore h0 initialState ∅ s [] [])))
    as [-> ->].
  rewrite Hrooms. cbn [mergeRooms withHeap heap state initialState rooms].
  unfold recordValues. rewrite Hrec.
  assert (Hnews : id <$> news = (rooms st).*1).
  { subst news. rewrite <- list_fmap_compose.
    rewrite <- (roomValues_wellFormed _ _ Hwf). reflexivity. }
  assert (Hnd : NoDup (id <$> news)) by (rewrite Hnews; apply Hwf).
  pose proof (hydrate_fold news h0 [] [] Hnd) as [Hother Hmember].
  rewrite app_nil_r in Hother, Hmember.
  destruct (recordGet (rooms st) key) as [lo|] eqn:Hget.
  - destruct (wellFormed_lookup _ _ _ _ Hwf Hget) as (r & Hlo & Hkey).
    cbn [mbind option_bind]. rewrite Hlo. cbn [fmap option_fmap option_map].
    assert (Hin : clearMessages r ∈ news).
    { subst news. apply list_elem_of_fmap. exists r. split; [reflexivity|].
      eapply roomValues_elem; eassumption. }
    destruct (Hmember _ Hin) as (l' & Hl' & Hheap').
    cbn [clearMessages id] in Hl'. rewrite Hkey in Hl'. rewrite Hl'. exact Hheap'.
  - apply recordGet_None in Hget. rewrite <- Hnews in Hget.
    rewrite (Hother key Hget). reflexivity.
Qed.

(** The lookups of the state that [setState] built give the same rooms at
    the end of the update. *)
Lemma update_lookup_frame (p : PartialState) (w : t) (key : string) :
  StoreShape.wellFormed (heap (setState merge p w)) (rooms (state (setState merge p w))) ->
  recordGet (rooms (state (update merge p w))) key ≫= (fun l => heap (update merge p w) !! l)
  = recordGet (rooms (state (setState merge p w))) key
      ≫= (fun l => heap (setState merge p w) !! l).
Proof.
  intros Hwf. rewrite update_state.
  destruct (recordGet (rooms (state (setState merge p w))) key) as [lo|] eqn:Hget;
    [|reflexivity].
  destruct (wellFormed_lookup _ _ _ _ Hwf Hget) as (r & Hlo & _).
  cbn [mbind option_bind]. rewrite Hlo. apply updateStorage_heap_frame. exact Hlo.
Qed.

(** X4: what [update] writes, a new store reads back.  When an update
    with a truthy [syncToken] or [rooms] has run on a well-formed store, a
    store that is then created over the same storage has the sync token of
    the updated state (unless it is the empty string) and, under every
    room id, the room of the updated state with its messages cleared,
    merged with nothing; it has no other room. *)
Theorem storage_round_trip (p : PartialState) (w : t) (h0 : Heap) (key : string) :
  (forall r previous, id (merge r previous) = id r) ->
  StoreShape.wellFormed (heap w) (rooms (state w)) ->
  Spec.updatesPreservedField p = true ->
  let w' := update merge p w in
  let created := create merge h0 (storage w') in
  syncToken (state created) = Js.orString (syncToken (state w')) None /\
  recordGet (rooms (state created)) key ≫= (fun l => heap created !! l)
  = (fun r => merge (clearMessages r) None)
      <$> (recordGet (rooms (state w')) key ≫= (fun l => heap w' !! l)).
Proof.
  intros Hid Hwf Hp w' created.
  pose proof (update_storage_spec merge p w) as Hstored. cbv zeta in Hstored.
  rewrite Hp in Hstored. destruct Hstored as [_ Hstored]. fold w' in Hstored.
  set (w1 := setState merge p w) in *.
  assert (Hwf1 : StoreShape.wellFormed (heap w1) (rooms (state w1)))
    by (apply setState_wellFormed; assumption).
  assert (Hstate : state w' = state w1) by apply update_state.
  split.
  - rewrite Hstate.
    apply (create_from_preservedBlob merge h0 (heap w1) (state w1) (storage w') Hstored).
  - subst created w'. rewrite (update_lookup_frame p w key Hwf1).
    apply (create_reloads_rooms h0 (heap w1) (state w1) _ key Hwf1 Hstored).
Qed.

Lemma mergeRoom_fold_mentions (old : RoomRecord) (l : loc) (r : MatrixRoom) :
  forall (ls : list loc) (h : Heap) merged,
    l ∈ ls -> h !! l = Some r ->
    is_Some (recordGet (foldl (mergeRoom merge old) (h, merged) ls).2 (id r)).
Proof.
  induction ls as [|l0 ls IH]; intros h merged Hin Hl; [apply elem_of_nil in Hin; contradiction|].
  cbn [foldl]. apply elem_of_cons in Hin as [<-|Hin].
  - unfold mergeRoom at 2. rewrite Hl. cbn.
    apply mergeRoom_fold_keeps_keys. rewrite recordGet_recordSet, String.eqb_refl.
    eexists. reflexivity.
  - unfold mergeRoom at 2. destruct (h !! l0) as [r0|]; [|apply IH; assumption]. cbn.
    apply IH; [exact Hin|]. apply lookup_app_l_Some. exact Hl.
Qed.

(** C6: a room that an update lists is held by the state under its id,
    and the blob that this update writes to storage holds that room with
    its messages cleared, as it holds every room without messages; a store
    created from that storage holds under the id a room without messages,
    and none of its rooms has messages; the state in memory is not
    affected: the room object that [setState] built is unchanged at the end
    of the update, as is every object of that heap, which is the heap the
    listeners run in, and the listeners get the state that [setState]
    built. *)
Theorem update_clears_messages_in_storage_only (p : PartialState) (w : t)
    (l : loc) (r : MatrixRoom) :
  (forall r0 previous, id (merge r0 previous) = id r0) ->
  (forall r0, messages (merge r0 None) = messages r0) ->
  StoreShape.wellFormed (heap w) (rooms (state w)) ->
  l ∈ StoreShape.updateRooms p ->
  heap w !! l = Some r ->
  let w1 := setState merge p w in
  let w' := update merge p w in
  exists blob l' kept,
    written w' = written w ++ [blob] /\
    Storage.MATRIX_PRESERVED_STATE (storage w') = Some blob /\
    blob = Spec.preservedBlob (heap w1) (state w1) /\
    Forall (fun r0 => messages r0 = []) (jsonRooms blob) /\
    recordGet (rooms (state w')) (id r) = Some l' /\
    heap w1 !! l' = Some kept /\
    heap w' !! l' = Some kept /\
    id kept = id r /\
    clearMessages kept ∈ jsonRooms blob /\
    (forall h0,
       let created := create merge h0 (storage w') in
       (exists reloaded,
          recordGet (rooms (state created)) (id r) ≫= (fun l0 => heap created !! l0)
          = Some reloaded /\
          reloaded = merge (clearMessages kept) None /\
          id reloaded = id r /\
          messages reloaded = []) /\
       Spec.noMessages (heap created) (rooms (state created))) /\
    state w' = state w1 /\
    (forall l0 r0, heap w1 !! l0 = Some r0 -> heap w' !! l0 = Some r0) /\
    (forall n, n ∈ notified w' ->
       n ∈ notified w \/
       (newState n = state w1 /\
        forall l0 r0, heap w1 !! l0 = Some r0 -> heapSeen n !! l0 = Some r0)).
Proof.
  intros Hid Hmerge Hwf Hin Hl w1 w'.
  assert (Hrooms : is_Some (p_rooms p)).
  { unfold StoreShape.updateRooms in Hin. destruct (p_rooms p); [eexists; reflexivity|].
    apply elem_of_nil in Hin. contradiction. }
  assert (Htrigger : Spec.updatesPreservedField p = true).
  { unfold Spec.updatesPreservedField. rewrite (bool_decide_eq_true_2 _ Hrooms).
    apply orb_true_r. }
  pose proof (update_storage_spec merge p w) as Hspec. cbv zeta in Hspec.
  rewrite Htrigger in Hspec. destruct Hspec as [Hwritten Hstored].
  assert (Hwf1 : StoreShape.wellFormed (heap w1) (rooms (state w1)))
    by (apply setState_wellFormed; assumption).
  assert (Hheld : is_Some (recordGet (rooms (state w1)) (id r))).
  { subst w1. destruct (setState_heap_rooms p w) as [_ ->].
    rewrite mergeRooms_as_fold. destruct Hrooms as [arg ->].
    apply (mergeRoom_fold_mentions _ l r); assumption. }
  destruct Hheld as [l' Hl'].
  destruct (wellFormed_lookup _ _ _ _ Hwf1 Hl') as (kept & Hkept & Hkeptid).
  assert (Hframe : forall l0 r0, heap w1 !! l0 = Some r0 -> heap w' !! l0 = Some r0).
  { intros l0 r0 Hl0. apply updateStorage_heap_frame. exact Hl0. }
  exists (Spec.preservedBlob (heap w1) (state w1)), l', kept.
  split; [exact Hwritten|]. split; [exact Hstored|]. split; [reflexivity|].
  split; [rewrite jsonRooms_preservedBlob; apply Forall_fmap, Forall_true; reflexivity|].
  split; [subst w'; rewrite update_state; exact Hl'|].
  split; [exact Hkept|]. split; [apply Hframe; exact Hkept|]. split; [exact Hkeptid|].
  split.
  { rewrite jsonRooms_preservedBlob. apply list_elem_of_fmap. exists kept.
    split; [reflexivity|]. eapply roomValues_elem; eassumption. }
  split.
  { intros h0 created. split.
    - exists (merge (clearMessages kept) None).
      split.
      + pose proof (create_reloads_rooms h0 (heap w1) (state w1) (storage w') (id r)
                      Hwf1 Hstored) as Hreload.
        rewrite Hl' in Hreload. cbn [mbind option_bind] in Hreload.
        rewrite Hkept in Hreload. exact Hreload.
      + split; [reflexivity|]. split; [rewrite Hid; exact Hkeptid|].
        rewrite Hmerge. reflexivity.
    - destruct (create_from_preservedBlob merge h0 _ _ _ Hstored)
        as (_ & _ & _ & _ & _ & _ & _ & _ & H).
      exact (H Hmerge). }
  split; [apply update_state|]. split; [exact Hframe|].
  intros n Hn. destruct (update_notifications merge p w n Hn) as [Hold|[Hnew Hheap]].
  - left. exact Hold.
  - right. split; [exact Hnew|]. intros l0 r0 Hl0. rewrite Hheap. apply Hframe. exact Hl0.
Qed.


Lemma setState_listeners (p : PartialState) (w : t) :
  onStateChangedListeners (setState merge p w) = onStateChangedListeners w.
Proof. unfold setState. destruct (mergeRooms _ _ _ _). reflexivity. Qed.

Lemma updateStorage_listeners (p : PartialState) (w : t) :
  onStateChangedListeners (updateStorage p w) = onStateChangedListeners w.
Proof. rewrite updateStorage_spec. destruct (Spec.updatesPreservedField p); reflexivity. Qed.

(** The listener calls of one update: the listener for ['all'] first, then
    one call for every defined key of the update that has a listener. *)
Lemma newCalls_spec (p : PartialState) (w : t) :
  let call l := mkNotification l (state w) (state (update merge p w)) p
                  (heap (update merge p w)) in
  StoreShape.newCalls merge p w
  = match onStateChangedListeners w !! "all" with Some l => [call l] | None => [] end
    ++ omap (fun key => call <$> onStateChangedListeners w !! key) (StoreShape.definedKeys p).
Proof.
  cbv zeta. unfold StoreShape.newCalls, StoreShape.definedKeys.
  rewrite update_state.
  unfold update at 1. unfold notifyListeners. cbn [notified withNotified].
  rewrite updateStorage_notified, setState_notified, drop_app_length.
  rewrite updateStorage_listeners, setState_listeners, state_updateStorage.
  reflexivity.
Qed.

Lemma definedKeys_known (p : PartialState) (key : string) :
  key ∈ StoreShape.definedKeys p ->
  key ∈ ["isRunning"; "userId"; "deviceId"; "txnNo"; "accessToken"; "syncToken";
         "pollingTimeout"; "pollingRetries"; "rooms"].
Proof.
  unfold StoreShape.definedKeys, entries. intros Hkey.
  apply list_elem_of_fmap in Hkey as ([k v] & -> & Hin).
  apply list_elem_of_omap in Hin as (x & Hx & Hsome). cbn in Hsome. subst x.
  unfold prop in Hx.
  repeat (apply elem_of_cons in Hx as [Hx|Hx];
          [symmetry in Hx; apply fmap_Some in Hx as (? & _ & [= -> _]); cbn;
           repeat (first [apply list_elem_of_here | apply list_elem_of_further])|]).
  apply elem_of_nil in Hx. contradiction.
Qed.

Lemma foldl_subscribe (l : nat) (subscribed : list string) :
  forall (m : gmap string nat) (key : string),
    foldl (fun m0 k => <[k := l]> m0) m subscribed !! key
    = if decide (key ∈ subscribed) then Some l else m !! key.
Proof.
  induction subscribed as [|k subscribed IH]; intros m key; cbn [foldl].
  - destruct (decide (key ∈ [])) as [Hin|_]; [apply elem_of_nil in Hin; contradiction|reflexivity].
  - rewrite IH.
    destruct (decide (key ∈ subscribed)) as [Hin|Hout].
    + rewrite decide_True by (apply elem_of_cons; right; exact Hin). reflexivity.
    + destruct (decide (key = k)) as [->|Hne].
      * rewrite decide_True by (apply elem_of_cons; left; reflexivity).
        apply lookup_insert_eq.
      * rewrite decide_False by (intros [?|?]%elem_of_cons; contradiction).
        apply lookup_insert_ne. congruence.
Qed.

Lemma filter_never {A} (xs : list A) : filter (fun _ => False) xs = [].
Proof.
  induction xs as [|x xs IH]; [reflexivity|].
  rewrite filter_cons, decide_False by tauto. exact IH.
Qed.

(** The listener of a key after [onStateChanged]. *)
Lemma onStateChanged_listeners (l : nat) (subscribed : list string) (w : t) (key : string) :
  onStateChangedListeners (onStateChanged l subscribed w) !! key
  = match subscribed with
    | [] => if decide (key = "all") then Some l else onStateChangedListeners w !! key
    | _ :: _ => if decide (key ∈ subscribed) then Some l else onStateChangedListeners w !! key
    end.
Proof.
  destruct subscribed as [|k0 subscribed]; unfold onStateChanged.
  - cbn. destruct (decide (key = "all")) as [->|Hne].
    + apply lookup_insert_eq.
    + apply lookup_insert_ne. congruence.
  - replace (0 <? Z.of_nat (length (k0 :: subscribed))) with true
      by (symmetry; apply Z.ltb_lt; cbn [length]; lia).
    apply foldl_subscribe.
Qed.

(** The calls that go to one listener, when the listeners of the keys
    that satisfy [P] are that listener and no other key has it. *)
Lemma calls_of_listener (call : nat -> Notification) (l : nat)
    (P : string -> Prop) `{forall k, Decision (P k)}
    (m m' : gmap string nat) (keys : list string) :
  (forall l0, listener (call l0) = l0) ->
  (forall k, k ∈ keys -> m' !! k = if decide (P k) then Some l else m !! k) ->
  (forall k l0, m !! k = Some l0 -> l0 <> l) ->
  filter (fun n => listener n = l) (omap (fun key => call <$> m' !! key) keys)
  = (fun _ => call l) <$> filter P keys.
Proof.
  intros Hcall Hlookup Hfresh. induction keys as [|k keys IH]; [reflexivity|].
  cbn [omap list_omap]. rewrite (Hlookup k) by (apply elem_of_cons; left; reflexivity).
  assert (IH' := IH (fun k0 Hk0 => Hlookup k0 (proj2 (elem_of_cons _ _ _) (or_intror Hk0)))).
  rewrite filter_cons. destruct (decide (P k)) as [HP|HP].
  - cbn [fmap option_fmap option_map]. rewrite filter_cons, decide_True by apply Hcall.
    rewrite fmap_cons, IH'. reflexivity.
  - destruct (m !! k) as [l0|] eqn:Hk; cbn [fmap option_fmap option_map]; [|exact IH'].
    rewrite filter_cons, decide_False; [exact IH'|].
    rewrite Hcall. exact (Hfresh _ _ Hk).
Qed.

(** X5: how often an update calls a listener.  A listener that was
    registered without keys is called exactly once by every update,
    whatever the update contains; a listener that was registered for keys
    is called once for every one of its keys that the update defines, so
    several times when the update defines several of them; every call gets
    the same three arguments: the state before, the state after and the
    update. *)
Theorem listener_called_once_per_key (l : nat) (subscribed : list string)
    (p : PartialState) (w : t) :
  "all" ∉ subscribed ->
  (forall k l0, onStateChangedListeners w !! k = Some l0 -> l0 <> l) ->
  let w1 := onStateChanged l subscribed w in
  let call := mkNotification l (state w) (state (update merge p w1)) p
                (heap (update merge p w1)) in
  filter (fun n => listener n = l) (StoreShape.newCalls merge p w1)
  = match subscribed with
    | [] => [call]
    | _ :: _ => (fun _ => call) <$> filter (fun k => k ∈ subscribed) (StoreShape.definedKeys p)
    end.
Proof.
  intros Hall Hfresh w1 call. rewrite newCalls_spec. cbv zeta. rewrite filter_app.
  assert (Hstate : state w1 = state w).
  { subst w1. unfold onStateChanged. destruct (0 <? _); reflexivity. }
  rewrite Hstate. fold call.
  set (mk := fun l0 => mkNotification l0 (state w) (state (update merge p w1)) p
                         (heap (update merge p w1))).
  destruct subscribed as [|k0 subscribed].
  - assert (Hm : onStateChangedListeners w1 = <["all" := l]> (onStateChangedListeners w))
      by reflexivity.
    rewrite Hm, lookup_insert_eq. rewrite filter_cons, decide_True by reflexivity.
    rewrite filter_nil.
    rewrite (calls_of_listener mk l (fun _ => False) (onStateChangedListeners w)
               (<["all" := l]> (onStateChangedListeners w)) (StoreShape.definedKeys p)).
    + rewrite filter_never. reflexivity.
    + reflexivity.
    + intros k Hk. rewrite decide_False by tauto. apply lookup_insert_ne.
      intros <-. apply definedKeys_known in Hk.
      repeat (apply elem_of_cons in Hk as [Hk|Hk]; [discriminate|]).
      apply elem_of_nil in Hk. contradiction.
    + exact Hfresh.
  - assert (Hm : onStateChangedListeners w1
                 = foldl (fun m0 k => <[k := l]> m0) (onStateChangedListeners w)
                     (k0 :: subscribed)) by reflexivity.
    rewrite Hm, foldl_subscribe, decide_False by exact Hall.
    match goal with |- filter ?P ?forAll ++ _ = _ => assert (Hnone : filter P forAll = []) end.
    { destruct (onStateChangedListeners w !! "all") as [l0|] eqn:Hl0; [|reflexivity].
      rewrite filter_cons, decide_False; [reflexivity|]. exact (Hfresh _ _ Hl0). }
    rewrite Hnone. cbn [app].
    apply (calls_of_listener mk l (fun k => k ∈ k0 :: subscribed) (onStateChangedListeners w)).
    + reflexivity.
    + intros k _. apply foldl_subscribe.
    + exact Hfresh.
Qed.

(** X6: one listener per key.  When a second listener is registered with
    the arguments of a first one, the first one is replaced: no update
    calls it any more. *)
Theorem listener_replaced (l1 l2 : nat) (subscribed : list string)
    (p : PartialState) (w : t) :
  l1 <> l2 ->
  (forall k l0, onStateChangedListeners w !! k = Some l0 -> l0 <> l1) ->
  filter (fun n => listener n = l1)
    (StoreShape.newCalls merge p (onStateChanged l2 subscribed (onStateChanged l1 subscribed w)))
  = [].
Proof.
  intros Hne Hfresh.
  set (w2 := onStateChanged l2 subscribed (onStateChanged l1 subscribed w)).
  assert (Hm : forall k l0, onStateChangedListeners w2 !! k = Some l0 -> l0 <> l1).
  { intros k l0. subst w2. rewrite !onStateChanged_listeners.
    destruct subscribed as [|k0 subscribed].
    - destruct (decide (k = "all")); [intros [= <-]; congruence|apply Hfresh].
    - destruct (decide (k ∈ k0 :: subscribed)); [intros [= <-]; congruence|apply Hfresh]. }
  rewrite newCalls_spec. cbv zeta. rewrite filter_app.
  set (mk := fun l0 => mkNotification l0 (state w2) (state (update merge p w2)) p
                         (heap (update merge p w2))).
  rewrite (calls_of_listener mk l1 (fun _ => False) (onStateChangedListeners w2)
             (onStateChangedListeners w2) (StoreShape.definedKeys p)).
  - destruct (onStateChangedListeners w2 !! "all") as [l0|] eqn:Hl0.
    + rewrite filter_cons, decide_False by exact (Hm _ _ Hl0).
      rewrite filter_never. reflexivity.
    + rewrite filter_never. reflexivity.
  - reflexivity.
  - intros k _. rewrite decide_False by tauto. reflexivity.
  - exact Hm.
Qed.

Section GetRoom.

(** [new MatrixRoom(id, status)] *)
Variable construct : string -> MatrixRoomStatus -> MatrixRoom.


End GetRoom.

End StoreMore.


(** ** The store properties on concrete stores *)

Section StoreExamples.
Import Matrix MatrixClientStore StoreSamples.

Lemma merge_keeps_id (r : MatrixRoom) (previous : option MatrixRoom) :
  id (MatrixRoomModel.merge r previous) = id r.
Proof. destruct previous; reflexivity. Qed.

Lemma seenStore_wellFormed :
  StoreShape.wellFormed (heap seenStore)
    (rooms (state seenStore)).
Proof.
  split.
  - apply NoDup_singleton.
  - repeat constructor. eexists. split; reflexivity.
Qed.

Lemma store_rooms_well_formed_witness :
  StoreShape.wellFormed
    (heap
       (update MatrixRoomModel.merge repeatedUpdate
          seenStore))
    (rooms
       (state
          (update MatrixRoomModel.merge repeatedUpdate
             seenStore))).
Proof.
  exact (proj2 (store_rooms_well_formed MatrixRoomModel.merge merge_keeps_id)
           repeatedUpdate seenStore seenStore_wellFormed).
Defined.

Lemma update_never_drops_rooms_witness :
  recordGet
    (rooms
       (state
          (update MatrixRoomModel.merge otherUpdate
             seenStore))) "!r"
  = Some 2%nat /\
  heap
    (update MatrixRoomModel.merge otherUpdate
       seenStore) !! 2%nat
  = Some Samples.sampleRoom.
Proof.
  destruct (update_never_drops_rooms MatrixRoomModel.merge otherUpdate
              seenStore "!r" 2%nat eq_refl) as [_ Hsame].
  destruct Hsame as [Hget Hheap].
  - repeat constructor. eexists. reflexivity.
  - intros Hin. apply list_elem_of_singleton in Hin. discriminate.
  - split; [exact Hget|]. apply Hheap. reflexivity.
Defined.

Lemma update_clears_messages_in_storage_only_witness :
  exists reloaded,
    recordGet
      (rooms (state (create MatrixRoomModel.merge []
                       (storage (update MatrixRoomModel.merge Samples.roomUpdate
                                   Samples.storeWithRoomObject))))) "!r"
      ≫= (fun l => heap (create MatrixRoomModel.merge []
                           (storage (update MatrixRoomModel.merge Samples.roomUpdate
                                       Samples.storeWithRoomObject))) !! l)
    = Some reloaded /\
    messages reloaded = [] /\
    heap (update MatrixRoomModel.merge Samples.roomUpdate Samples.storeWithRoomObject)
      !! 1%nat = Some Samples.sampleRoom /\
    messages Samples.sampleRoom = [Samples.sampleMessage] /\
    jsonRooms
      (default [] (Storage.MATRIX_PRESERVED_STATE
                     (storage (update MatrixRoomModel.merge Samples.roomUpdate
                                 Samples.storeWithRoomObject))))
    = [clearMessages Samples.sampleRoom].
Proof.
  destruct (update_clears_messages_in_storage_only MatrixRoomModel.merge Samples.roomUpdate
              Samples.storeWithRoomObject 0%nat Samples.sampleRoom merge_keeps_id
              (fun r0 => eq_refl) (conj (NoDup_nil_2 : NoDup []) (Forall_nil_2 _))
              (list_elem_of_here _ _) eq_refl)
    as (blob & l' & kept & _ & Hstored & _ & _ & _ & _ & _ & _ & _ & Hreload & _).
  destruct (Hreload []) as [(reloaded & Hget & _ & _ & Hnone) _].
  exists reloaded. split; [exact Hget|]. split; [exact Hnone|].
  split; [reflexivity|]. split; [reflexivity|]. reflexivity.
Defined.

Lemma update_merges_last_occurrence_witness :
  exists l',
    recordGet (rooms (state (update MatrixRoomModel.merge repeatedUpdate seenStore))) "!r"
    = Some l' /\
    heap (update MatrixRoomModel.merge repeatedUpdate seenStore) !! l'
    = Some (MatrixRoomModel.merge Samples.sampleRoom (Some Samples.sampleRoom)).
Proof.
  apply (update_merges_last_occurrence MatrixRoomModel.merge repeatedUpdate seenStore
           [0%nat; 1%nat] [] 0%nat Samples.sampleRoom).
  - exact seenStore_wellFormed.
  - repeat constructor; eexists; reflexivity.
  - eexists. reflexivity.
  - reflexivity.
  - reflexivity.
  - apply not_elem_of_nil.
Defined.

Lemma storage_round_trip_witness :
  let created := create MatrixRoomModel.merge []
                   (storage (update MatrixRoomModel.merge syncUpdate seenStore)) in
  syncToken (state created) = Some "s2" /\
  recordGet (rooms (state created)) "!r" ≫= (fun l => heap created !! l)
  = Some (clearMessages
            (MatrixRoomModel.merge Samples.sampleRoom (Some Samples.sampleRoom))).
Proof.
  exact (storage_round_trip MatrixRoomModel.merge syncUpdate seenStore [] "!r"
           merge_keeps_id seenStore_wellFormed eq_refl).
Defined.

Lemma all_not_subscribed : "all" ∉ ["rooms"; "syncToken"; "userId"].
Proof.
  intros Hin. repeat (apply elem_of_cons in Hin as [Hin|Hin]; [discriminate|]).
  apply elem_of_nil in Hin. exact Hin.
Qed.

Lemma seenStore_no_listener (k : string) (l0 l : nat) :
  onStateChangedListeners seenStore !! k = Some l0 -> l0 <> l.
Proof.
  change (onStateChangedListeners seenStore) with (∅ : gmap string nat).
  rewrite lookup_empty. discriminate.
Qed.

Lemma listener_called_once_per_key_witness :
  length (filter (fun n => listener n = 7%nat)
            (StoreShape.newCalls MatrixRoomModel.merge syncUpdate
               (onStateChanged 7%nat ["rooms"; "syncToken"; "userId"] seenStore)))
  = 2%nat.
Proof.
  rewrite (listener_called_once_per_key MatrixRoomModel.merge 7%nat
             ["rooms"; "syncToken"; "userId"] syncUpdate seenStore all_not_subscribed
             (fun k l0 => seenStore_no_listener k l0 7%nat)).
  reflexivity.
Defined.

Lemma listener_replaced_witness :
  filter (fun n => listener n = 7%nat)
    (StoreShape.newCalls MatrixRoomModel.merge syncUpdate
       (onStateChanged 8%nat ["rooms"] (onStateChanged 7%nat ["rooms"] seenStore)))
  = [].
Proof.
  apply (listener_replaced MatrixRoomModel.merge 7%nat 8%nat ["rooms"] syncUpdate seenStore).
  - discriminate.
  - intros k l0. apply seenStore_no_listener.
Defined.


End StoreExamples.


(* ===================================================================== *)
(** * More properties of the communication client *)
(* ===================================================================== *)

Section ClientMore.
Import Matrix P2P.
Local Open Scope p2p_scope.

Variable env : Env.

(** X8: a client that the constructor built always finds a relay server,
    whatever the hashes are: one of the given nodes, or the default server
    [matrix.papers.tech] when no node was given. *)
Theorem new_client_has_relay (name : string) (keyPair : KeyPair) (replicationCount : Z)
    (matrixNodes : list string) (iconUrl appUrl : option string) (isWallet : bool)
    (publicKeyHash : option string) (nonce : string) :
  let c := new name keyPair replicationCount matrixNodes iconUrl appUrl isWallet in
  client c = None /\
  exists server,
    getRelayServer env c publicKeyHash nonce = Some server /\
    match matrixNodes with
    | [] => server = "matrix.papers.tech"
    | _ :: _ => server ∈ matrixNodes
    end.
Proof.
  intros c. split; [reflexivity|].
  assert (Hservers : KNOWN_RELAY_SERVERS c
                     = match matrixNodes with [] => DEFAULT_RELAY_SERVERS | _ => matrixNodes end).
  { subst c. unfold new. cbn [KNOWN_RELAY_SERVERS]. destruct matrixNodes; [reflexivity|].
    replace (0 <? Z.of_nat (length (s :: matrixNodes))) with true
      by (symmetry; apply Z.ltb_lt; cbn [length]; lia).
    reflexivity. }
  destruct (getRelayServer_in_list env c publicKeyHash nonce) as (server & Hget & Hin).
  { rewrite Hservers. destruct matrixNodes; discriminate. }
  exists server. split; [exact Hget|].
  rewrite Hservers in Hin. destruct matrixNodes; [|exact Hin].
  apply list_elem_of_singleton in Hin. exact Hin.
Qed.

Lemma detached_returns (m : M unit) (w : World) :
  exists w', detached m w = (Ok tt, w').
Proof.
  unfold detached, catch. destruct (m w) as [[[]|e] w1]; eexists; reflexivity.
Qed.

(** X10: [stop] never throws and never touches the instance: the chat
    client stays set, so that the operations of a stopped client do not
    raise the error of a client that was not started; an error of
    [client.stop] is logged only. *)
Theorem stop_keeps_client (w : World) :
  exists w',
    stop env w = (Ok tt, w') /\
    this w' = this w /\ storage w' = storage w /\
    (client (this w) = None -> w' = w) /\
    (is_Some (client (this w)) -> exists es, trace w' = trace w ++ ClientStop :: es).
Proof.
  unfold stop, bind, gets, detached, catch, call, logError, emit, modifyWorld, ret.
  destruct (client (this w)) as [c|].
  - destruct (clientStop env (trace w)) as [error|]; eexists;
      (split; [reflexivity|]); (split; [reflexivity|]); (split; [reflexivity|]);
      (split; [discriminate|]); intros _; eexists; cbn; rewrite <- ?app_assoc; reflexivity.
  - eexists. split; [reflexivity|]. split; [reflexivity|]. split; [reflexivity|].
    split; [reflexivity|]. intros [? [=]].
Qed.

Lemma quiet_standby_replenish :
  quiet (detached (catch (prepareStandbyRoom env) (standbyRoomFailed))).
Proof.
  apply quiet_detached, quiet_catch; [apply quiet_prepareStandbyRoom|].
  intros e. unfold standbyRoomFailed, logError. apply quiet_emit. reflexivity.
Qed.

(** X11: [start] never throws: a login that the server rejects, a join of
    the pending invites that fails and a standby room that cannot be
    created are logged only.  Afterwards the chat client is set, with the
    base URL of the relay server selected for the client's own key hash
    with nonce [0] (the text [undefined] when there is no server), the
    initial listener is kept, both listeners were subscribed before the
    login was sent, and no text message was sent. *)
Theorem start_always_connects (w : World) :
  let c := this w in
  let relayServer := getRelayServer env c (Some (getPublicKeyHash env c)) "0" in
  exists w' before after,
    start env w = (Ok tt, w') /\
    client (this w') = Some {| baseUrl := "https://" +:+ template relayServer |} /\
    initialListener (this w') = Some InitialListener /\
    activeListeners (this w') = activeListeners c /\
    trace w' = trace w ++ before ++ ClientShape.login env c (now w) :: after /\
    Subscribe MESSAGE InitialListener ∈ before /\
    Subscribe INVITE InviteListener ∈ before /\
    sentMessages (before ++ after) = [].
Proof.
  intros c relayServer.
  set (w1 := record (Log ["start"; "login"; getPublicKeyHash env c; "on"; template relayServer] None)
              (record (Subscribe INVITE InviteListener)
                 (record (Subscribe MESSAGE InitialListener)
                    (setThis (withInitialListener (Some InitialListener))
                       (setThis (withClient
                                   (Some {| baseUrl := "https://" +:+ template relayServer |}))
                          (record (Log ["start"; "connecting to server"] None)
                             (record (Log ["start"; "starting client"] None) w))))))).
  set (w2 := match clientStart env (trace w1) with
             | Some error => record (Log [] (Some error))
                               (record (ClientShape.login env c (now w)) w1)
             | None => record (ClientShape.login env c (now w)) w1
             end).
  set (invited := invitedRooms env (trace w2)).
  set (w3 := match joinRooms env (trace w2) invited with
             | Some error => record (Log [] (Some error)) (record (JoinRooms invited) w2)
             | None => record (JoinRooms invited) w2
             end).
  assert (Hrun : start env w
                 = detached (catch (prepareStandbyRoom env) standbyRoomFailed) w3).
  { unfold start, bind, log, logError, emit, modifyWorld, gets, catch, call.
    cbv beta iota.
    change (this (record _ w)) with c.
    change (now (record _ w)) with (now w).
    fold relayServer. fold w1.
    change (ClientStart _ _ _) with (ClientShape.login env c (now w)).
    destruct (clientStart env (trace w1)) as [error|] eqn:Hstart;
      subst w3 invited w2; rewrite ?Hstart;
      destruct (joinRooms env _ _) as [error2|]; reflexivity. }
  destruct (detached_returns (catch (prepareStandbyRoom env) standbyRoomFailed) w3)
    as [w' Hw'].
  destruct (quiet_standby_replenish _ _ _ Hw') as (Hthis & es & Htrace & Hsent).
  exists w'.
  exists [Log ["start"; "starting client"] None; Log ["start"; "connecting to server"] None;
          Subscribe MESSAGE InitialListener; Subscribe INVITE InviteListener;
          Log ["start"; "login"; getPublicKeyHash env c; "on"; template relayServer] None].
  exists (drop (length (trace w1) + 1) (trace w')).
  rewrite Hrun. split; [exact Hw'|].
  assert (H3 : this w3 = this w1 /\
               exists mid, trace w3 = trace w1 ++ ClientShape.login env c (now w) :: mid /\
                           sentMessages mid = []).
  { subst w3 w2. destruct (clientStart env (trace w1)) as [error|];
      destruct (joinRooms env _ invited) as [error2|]; (split; [reflexivity|]);
      eexists; cbn [trace record]; rewrite <- ?app_assoc; (split; reflexivity). }
  destruct H3 as (Hthis3 & mid & Htrace3 & Hsent3).
  rewrite Hthis, Hthis3. split; [reflexivity|]. split; [reflexivity|]. split; [reflexivity|].
  assert (Hafter : drop (length (trace w1) + 1) (trace w') = mid ++ es).
  { rewrite Htrace, Htrace3.
    replace (trace w1 ++ ClientShape.login env c (now w) :: mid)
      with ((trace w1 ++ [ClientShape.login env c (now w)]) ++ mid)
      by (rewrite <- app_assoc; reflexivity).
    rewrite <- app_assoc.
    replace (length (trace w1) + 1)%nat
      with (length (trace w1 ++ [ClientShape.login env c (now w)]))
      by (rewrite length_app; reflexivity).
    apply drop_app_length. }
  rewrite Hafter. split.
  { rewrite Htrace, Htrace3. subst w1. cbn [trace record setThis].
    rewrite <- !app_assoc. reflexivity. }
  split; [repeat (first [apply list_elem_of_here | apply list_elem_of_further])|].
  split; [repeat (first [apply list_elem_of_here | apply list_elem_of_further])|].
  rewrite !sentMessages_app, Hsent3, Hsent. reflexivity.
Qed.

Lemma tryJoinRooms_unfold (roomId : string) (retry : Z) (w : World) (c : MatrixClient) :
  client (this w) = Some c ->
  tryJoinRooms env roomId retry w
  = match joinRooms env (trace w) [roomId] with
    | None => (Ok tt, record (JoinRooms [roomId]) w)
    | Some error =>
        if (retry <=? 10) && Js.hasErrcode error "M_FORBIDDEN"
        then detached (tryJoinRooms env roomId (retry + 1))
               (elapse 200
                  (record (SetTimeout 200)
                     (record (Log ["Retrying to join..."] (Some error))
                        (record (JoinRooms [roomId]) w))))
        else (Ok tt,
              record (Log ["Failed to join after " +:+ pretty retry +:+ " tries."]
                        (Some error))
                     (record (JoinRooms [roomId]) w))
    end.
Proof.
  intros Hc. rewrite tryJoinRooms_equation_1.
  unfold bind at 1. rewrite (requireClient_defined w c Hc).
  unfold catch, call. destruct (joinRooms env (trace w) [roomId]) as [error|]; [|reflexivity].
  destruct (Z_le_gt_dec retry 10) as [Hle|Hgt].
  - replace (retry <=? 10) with true by (symmetry; apply Z.leb_le; exact Hle).
    destruct (Js.hasErrcode error "M_FORBIDDEN"); reflexivity.
  - replace (retry <=? 10) with false by (symmetry; apply Z.leb_gt; lia).
    destruct (Js.hasErrcode error "M_FORBIDDEN"); reflexivity.
Qed.

Lemma tryJoinRooms_bounded (roomId : string) (c : MatrixClient) :
  forall (n : nat) (retry : Z) (w : World),
    Z.to_nat (11 - retry) = n ->
    client (this w) = Some c ->
    exists w' errors final,
      tryJoinRooms env roomId retry w = (Ok tt, w') /\
      this w' = this w /\ storage w' = storage w /\
      trace w'
      = trace w ++ concat (ClientShape.retriedAttempt roomId <$> errors)
          ++ JoinRooms [roomId] :: final /\
      Forall (fun error => Js.hasErrcode error "M_FORBIDDEN" = true) errors /\
      Z.of_nat (length errors) <= Z.max 0 (11 - retry) /\
      (final = [] \/
       exists error,
         final = [Log ["Failed to join after "
                       +:+ pretty (retry + Z.of_nat (length errors)) +:+ " tries."]
                      (Some error)]) /\
      now w' - now w = 200 * Z.of_nat (length errors).
Proof.
  induction n as [|n IH]; intros retry w Hn Hc; rewrite (tryJoinRooms_unfold _ _ _ _ Hc).
  - destruct (joinRooms env (trace w) [roomId]) as [error|].
    + replace (retry <=? 10) with false by (symmetry; apply Z.leb_gt; lia).
      cbn [andb]. eexists. exists []. eexists. split; [reflexivity|].
      cbn [this storage trace now record fmap list_fmap concat app length].
      rewrite <- app_assoc, Z.add_0_r.
      split; [reflexivity|]. split; [reflexivity|]. split; [reflexivity|].
      split; [constructor|]. split; [cbn; lia|].
      split; [right; eexists; reflexivity|cbn; lia].
    + eexists. exists [], []. split; [reflexivity|].
      cbn [this storage trace now record fmap list_fmap concat app length].
      split; [reflexivity|]. split; [reflexivity|]. split; [reflexivity|].
      split; [constructor|]. split; [cbn; lia|]. split; [left; reflexivity|cbn; lia].
  - destruct (joinRooms env (trace w) [roomId]) as [error|].
    + replace (retry <=? 10) with true by (symmetry; apply Z.leb_le; lia).
      cbn [andb]. destruct (Js.hasErrcode error "M_FORBIDDEN") eqn:Hforbidden.
      * set (w1 := elapse 200 _).
        destruct (IH (retry + 1) w1 ltac:(lia) Hc)
          as (w' & errors & final & Hrun & Hthis & Hstorage & Htrace & Hall & Hcount
              & Hfinal & Htime).
        exists w', (error :: errors), final. unfold detached, catch. rewrite Hrun.
        split; [reflexivity|]. split; [exact Hthis|]. split; [exact Hstorage|].
        split.
        { rewrite Htrace. subst w1. cbn [trace elapse record fmap list_fmap concat].
          unfold ClientShape.retriedAttempt at 2. rewrite <- !app_assoc. reflexivity. }
        split; [constructor; assumption|].
        split; [cbn [length]; lia|].
        split.
        { destruct Hfinal as [->|[error' ->]]; [left; reflexivity|right].
          exists error'. cbn [length].
          replace (retry + Z.of_nat (S (length errors)))
            with (retry + 1 + Z.of_nat (length errors)) by lia.
          reflexivity. }
        subst w1. cbn [now elapse record length] in Htime |- *. lia.
      * eexists. exists []. eexists. split; [reflexivity|].
        cbn [this storage trace now record fmap list_fmap concat app length].
        rewrite <- app_assoc, Z.add_0_r.
        split; [reflexivity|]. split; [reflexivity|]. split; [reflexivity|].
        split; [constructor|]. split; [cbn; lia|].
        split; [right; eexists; reflexivity|cbn; lia].
    + eexists. exists [], []. split; [reflexivity|].
      cbn [this storage trace now record fmap list_fmap concat app length].
      split; [reflexivity|]. split; [reflexivity|]. split; [reflexivity|].
      split; [constructor|]. split; [cbn; lia|]. split; [left; reflexivity|cbn; lia].
Qed.

Lemma retriedAttempts_shape (roomId : string) (errors : list Js.Error) :
  ClientShape.joinAttempts (concat (ClientShape.retriedAttempt roomId <$> errors))
  = replicate (length errors) [roomId] /\
  ClientShape.timers (concat (ClientShape.retriedAttempt roomId <$> errors))
  = replicate (length errors) 200 /\
  sentMessages (concat (ClientShape.retriedAttempt roomId <$> errors)) = [].
Proof.
  induction errors as [|error errors (IHjoin & IHtimers & IHsent)]; [repeat split|].
  cbn [fmap list_fmap concat length replicate].
  unfold ClientShape.retriedAttempt at 1 3 5. cbn [app].
  cbn [ClientShape.joinAttempts ClientShape.timers sentMessages omap list_omap].
  fold (ClientShape.joinAttempts (concat (ClientShape.retriedAttempt roomId <$> errors))).
  fold (ClientShape.timers (concat (ClientShape.retriedAttempt roomId <$> errors))).
  fold (sentMessages (concat (ClientShape.retriedAttempt roomId <$> errors))).
  rewrite IHjoin, IHtimers, IHsent. repeat split.
Qed.

(** X12: joining a room on an invite always ends, without an error for
    the caller: on a started client [tryJoinRooms(roomId)] asks the server
    to join that room at least once and at most 11 times, sends no text
    message and leaves the instance and the storage as they are.  Every
    attempt but the last was rejected with [M_FORBIDDEN], was logged and
    set a timer of 200 ms, and the next attempt follows that timer: the
    time that passes is 200 ms for each retry, at most 2 seconds.  After
    the last attempt nothing follows but, when it failed, one log line. *)
Theorem tryJoinRooms_gives_up (roomId : string) (w : World) :
  is_Some (client (this w)) ->
  exists w' attempts errors final,
    tryJoinRooms env roomId 1 w = (Ok tt, w') /\
    this w' = this w /\ storage w' = storage w /\
    ClientShape.joinAttempts (ClientShape.since w w') = replicate attempts [roomId] /\
    (1 <= attempts <= 11)%nat /\
    sentMessages (ClientShape.since w w') = [] /\
    0 <= now w' - now w <= 200 * (Z.of_nat attempts - 1) /\
    attempts = S (length errors) /\
    Forall (fun error => Js.hasErrcode error "M_FORBIDDEN" = true) errors /\
    ClientShape.since w w'
    = concat (ClientShape.retriedAttempt roomId <$> errors) ++ JoinRooms [roomId] :: final /\
    (final = [] \/ exists error, final = [Log ["Failed to join after "
                                               +:+ pretty (Z.of_nat attempts) +:+ " tries."]
                                              (Some error)]) /\
    ClientShape.timers (ClientShape.since w w') = replicate (attempts - 1) 200 /\
    now w' - now w = 200 * (Z.of_nat attempts - 1).
Proof.
  intros [c Hc].
  destruct (tryJoinRooms_bounded roomId c (Z.to_nat (11 - 1)) 1 w eq_refl Hc)
    as (w' & errors & final & Hrun & Hthis & Hstorage & Htrace & Hall & Hcount & Hfinal
        & Htime).
  assert (Hsince : ClientShape.since w w'
                   = concat (ClientShape.retriedAttempt roomId <$> errors)
                       ++ JoinRooms [roomId] :: final).
  { unfold ClientShape.since. rewrite Htrace. apply drop_app_length. }
  destruct (retriedAttempts_shape roomId errors) as (Hjoin & Htimers & Hsent).
  assert (Hquiet : ClientShape.joinAttempts final = [] /\ ClientShape.timers final = [] /\
                   sentMessages final = [])
    by (destruct Hfinal as [->|[error ->]]; repeat split).
  destruct Hquiet as (Hjoin' & Htimers' & Hsent').
  exists w', (S (length errors)), errors, final. rewrite Hsince.
  split; [exact Hrun|]. split; [exact Hthis|]. split; [exact Hstorage|].
  split.
  { unfold ClientShape.joinAttempts. rewrite omap_app. fold (ClientShape.joinAttempts
      (concat (ClientShape.retriedAttempt roomId <$> errors))).
    rewrite Hjoin. cbn [omap list_omap]. fold (ClientShape.joinAttempts final).
    rewrite Hjoin'. clear. induction (length errors) as [|k IH]; [reflexivity|].
    cbn [replicate app]. rewrite IH. reflexivity. }
  split; [lia|].
  split; [rewrite sentMessages_app, Hsent; exact Hsent'|].
  split; [lia|]. split; [reflexivity|]. split; [exact Hall|]. split; [reflexivity|].
  split.
  { destruct Hfinal as [->|[error ->]]; [left; reflexivity|right]. exists error.
    replace (Z.of_nat (S (length errors))) with (1 + Z.of_nat (length errors)) by lia.
    reflexivity. }
  split.
  { unfold ClientShape.timers. rewrite omap_app.
    fold (ClientShape.timers (concat (ClientShape.retriedAttempt roomId <$> errors))).
    rewrite Htimers. cbn [omap list_omap]. fold (ClientShape.timers final).
    rewrite Htimers', app_nil_r. replace (S (length errors) - 1)%nat with (length errors) by lia.
    reflexivity. }
  lia.
Qed.

(** X13: the standby room is handed out once.  On a started wallet with
    a standby room in storage, [getAndRemoveStandbyRoom] returns that room
    and never throws; the room is out of storage before a replacement is
    asked for; afterwards the storage holds the room that the server
    created as a replacement, or no standby room when the creation failed. *)
Theorem getAndRemoveStandbyRoom_hands_out_once (w : World) (room : string) :
  isWallet (this w) = true ->
  is_Some (client (this w)) ->
  Storage.MATRIX_ROOM_STANDBY (storage w) = Some room ->
  Js.truthyString room = true ->
  exists w',
    getAndRemoveStandbyRoom env w = (Ok (Some room), w') /\
    this w' = this w /\
    Storage.MATRIX_PEER_ROOM_IDS (storage w') = Storage.MATRIX_PEER_ROOM_IDS (storage w) /\
    match createTrustedPrivateRoom env (trace w) [] with
    | inr replacement =>
        Storage.MATRIX_ROOM_STANDBY (storage w') = Some replacement /\
        ClientShape.since w w' = [CreateTrustedPrivateRoom []]
    | inl error =>
        Storage.MATRIX_ROOM_STANDBY (storage w') = None /\
        ClientShape.since w w'
        = [CreateTrustedPrivateRoom [];
           Log ["start"; "could not create standby room"] (Some error)]
    end.
Proof.
  intros Hwallet [c Hc] Hstandby Htruthy.
  unfold getAndRemoveStandbyRoom, prepareStandbyRoom, bind, gets, modifyWorld, detached,
    catch, callValue, requireClient, logError, emit, ret.
  repeat first
    [ rewrite Hwallet | rewrite Hc | rewrite Hstandby | rewrite Htruthy
    | progress cbn [negb Js.truthyOptString this storage trace setStorage
                    Storage.setStandby Storage.MATRIX_ROOM_STANDBY]
    | progress cbv beta iota ].
  unfold ClientShape.since.
  destruct (createTrustedPrivateRoom env (trace w) []) as [error|replacement];
    eexists; (split; [reflexivity|]); cbn [this storage trace record setStorage
      Storage.setStandby Storage.MATRIX_ROOM_STANDBY Storage.MATRIX_PEER_ROOM_IDS];
    rewrite <- ?app_assoc, drop_app_length; repeat split; reflexivity.
Qed.

(** X14: the room of a recipient is resolved once.  After
    [getRelevantRoom] has returned a room (with a non-empty id) for a
    recipient, the next call for that recipient returns the same room from
    storage: it asks the chat server nothing and only writes a log line. *)
Theorem getRelevantRoom_caches (recipient roomId : string) (w w1 : World) :
  getRelevantRoom env recipient w = (Ok roomId, w1) ->
  Js.truthyString roomId = true ->
  getRelevantRoom env recipient w1
  = (Ok roomId, record (Log ["getRelevantRoom"; "Using room " +:+ roomId] None) w1).
Proof.
  intros Hrun Htruthy. apply getRelevantRoom_binds in Hrun.
  unfold getRelevantRoom, bind, gets, log, emit, modifyWorld, ret.
  rewrite Hrun. cbn [Js.truthyOptString]. rewrite Htruthy. reflexivity.
Qed.

(** X15: an open channel is reused.  When the recipient is a member of a
    room the client has joined, [getRelevantJoinedRoom] returns the first
    such room; it creates no room, invites nobody, and leaves the standby
    room and the rest of the storage as they are. *)
Theorem getRelevantJoinedRoom_reuses_open_channel (recipient : string) (w : World)
    (room : MatrixRoom) (others : list MatrixRoom) :
  is_Some (client (this w)) ->
  List.filter (fun r => existsb (fun member => String.eqb member recipient) (members r))
              (joinedRooms env (trace w)) = room :: others ->
  exists w',
    getRelevantJoinedRoom env recipient w = (Ok room, w') /\
    this w' = this w /\ storage w' = storage w /\
    recipient ∈ members room /\
    ClientShape.since w w'
    = [Log ["checking joined rooms"; recipient] None;
       Log ["getRelevantJoinedRoom"; "channel already open, reusing room " +:+ id room] None].
Proof.
  intros [c Hc] Hrooms.
  unfold getRelevantJoinedRoom, bind, gets, log, emit, modifyWorld, ret, requireClient.
  rewrite Hc. cbv beta iota. rewrite Hrooms.
  eexists. split; [reflexivity|]. split; [reflexivity|]. split; [reflexivity|]. split.
  - assert (Hin : In room (List.filter
                             (fun r => existsb (fun member => String.eqb member recipient)
                                         (members r))
                             (joinedRooms env (trace w)))) by (rewrite Hrooms; left; reflexivity).
    apply filter_In in Hin as [_ Hmember].
    apply existsb_exists in Hmember as (member & Hin & Heq).
    apply String.eqb_eq in Heq. subst member. apply list_elem_of_In. exact Hin.
  - unfold ClientShape.since. cbn [trace record]. rewrite <- app_assoc.
    apply drop_app_length.
Qed.

Lemma withoutRoom_idempotent (roomId : string) (roomIds : gmap string string) :
  withoutRoom roomId (withoutRoom roomId roomIds) = withoutRoom roomId roomIds.
Proof.
  apply map_eq. intros k. rewrite !withoutRoom_lookup.
  destruct (roomIds !! k) as [v|]; [|reflexivity].
  destruct (decide (v = roomId)) as [Heq|Hne]; [reflexivity|].
  rewrite decide_False by exact Hne. reflexivity.
Qed.

(** X16: [deleteRoomIdFromRooms] never throws and asks the chat server
    nothing; afterwards no recipient is bound to the room, every recipient
    bound to another room keeps it, and a second deletion of the same
    room changes nothing. *)
Theorem deleteRoomIdFromRooms_idempotent (roomId : string) (w : World) :
  exists w1,
    deleteRoomIdFromRooms roomId w = (Ok tt, w1) /\
    deleteRoomIdFromRooms roomId w1 = (Ok tt, w1) /\
    this w1 = this w /\ trace w1 = trace w /\
    forall recipient,
      Storage.MATRIX_PEER_ROOM_IDS (storage w1) !! recipient <> Some roomId /\
      forall other, other <> roomId ->
        Storage.MATRIX_PEER_ROOM_IDS (storage w) !! recipient = Some other ->
        Storage.MATRIX_PEER_ROOM_IDS (storage w1) !! recipient = Some other.
Proof.
  unfold deleteRoomIdFromRooms, bind, gets, modifyWorld.
  eexists. split; [reflexivity|].
  cbn [storage setStorage Storage.setPeerRoomIds Storage.MATRIX_PEER_ROOM_IDS this trace].
  split.
  - rewrite withoutRoom_idempotent. reflexivity.
  - split; [reflexivity|]. split; [reflexivity|]. intros recipient.
    rewrite withoutRoom_lookup. split.
    + destruct (Storage.MATRIX_PEER_ROOM_IDS (storage w) !! recipient) as [v|]; [|discriminate].
      destruct (decide (v = roomId)); [discriminate|congruence].
    + intros other Hne ->. rewrite decide_False by exact Hne. reflexivity.
Qed.

(** The listener of encrypted messages never throws; it calls the message
    callback at most once, with the decrypted text of a text message of
    the sender, and changes nothing else. *)
Lemma encryptedMessageCallback_run (senderPublicKey sharedRx : string) (messageCallback : nat)
    (event : MessageEvent) (w : World) :
  exists es,
    encryptedMessageCallback env senderPublicKey sharedRx messageCallback event w
    = (Ok tt, mkWorld (this w) (storage w) (now w) (entropy w) (trace w ++ es)) /\
    (es = [] \/
     exists decrypted,
       es = [MessageCallback messageCallback decrypted] /\
       isSender env event senderPublicKey = true /\
       decryptCryptoboxPayload env (fromHex env (content (ev_message event))) sharedRx
       = Some decrypted).
Proof.
  unfold encryptedMessageCallback, emit, modifyWorld, ret, record.
  destruct w as [t s n k tr]. cbn [this storage now entropy trace].
  destruct (isTextMessage (ev_message event)); cbn [andb];
    [|exists []; rewrite app_nil_r; split; [reflexivity|left; reflexivity]].
  destruct (isSender env event senderPublicKey) eqn:Hsender;
    [|exists []; rewrite app_nil_r; split; [reflexivity|left; reflexivity]].
  destruct (longEnough _);
    [|exists []; rewrite app_nil_r; split; [reflexivity|left; reflexivity]].
  destruct (decryptCryptoboxPayload env _ sharedRx) as [decrypted|] eqn:Hdecrypt;
    [|exists []; rewrite app_nil_r; split; [reflexivity|left; reflexivity]].
  eexists. split; [reflexivity|]. right. exists decrypted. repeat split.
Qed.

(** What one call of [listenForEncryptedMessage] for a new sender does. *)
Lemma listenForEncryptedMessage_run (senderPublicKey : string) (messageCallback : nat)
    (w : World) :
  is_Some (client (this w)) ->
  activeListeners (this w) !! senderPublicKey = None ->
  let sharedRx := sharedRx (createCryptoBoxServer env senderPublicKey
                              (privateKey (keyPair (this w)))) in
  let l := EncryptedMessageListener senderPublicKey sharedRx messageCallback in
  exists replayed rest,
    listenForEncryptedMessage env senderPublicKey messageCallback w
    = (Ok tt,
       mkWorld
         (withInitialEvent None
            (withInitialListener None
               (withActiveListeners (<[senderPublicKey := l]> (activeListeners (this w)))
                  (this w))))
         (storage w) (now w) (entropy w)
         (trace w ++ Subscribe MESSAGE l :: replayed ++ rest)) /\
    rest = match initialListener (this w) with
           | Some initial => [Unsubscribe MESSAGE (Some initial)]
           | None => []
           end /\
    (ClientShape.messageCallbacks replayed = [] \/
     exists event time decrypted,
       ClientShape.messageCallbacks replayed = [(messageCallback, decrypted)] /\
       initialEvent (this w) = Some event /\
       truthyTimestamp event = Some time /\
       now w - time < 5 * 60 * 1000 /\
       isSender env event senderPublicKey = true /\
       decryptCryptoboxPayload env (fromHex env (content (ev_message event))) sharedRx
       = Some decrypted).
Proof.
  intros [c Hc] Hnew sharedRx l.
  unfold listenForEncryptedMessage.
  unfold bind at 1. rewrite (requireClient_defined w c Hc).
  unfold bind at 1, gets. rewrite Hnew.
  change (bool_decide (is_Some None)) with false. cbv iota.
  fold sharedRx. fold l.
  unfold bind at 1, modifyWorld. unfold bind at 1, emit, modifyWorld.
  unfold bind at 1, gets.
  set (w1 := record (Subscribe MESSAGE l) (setThis _ w)).
  change (now w1) with (now w).
  assert (Hreplay : exists replayed,
    (match initialEvent (this w) with
     | Some event =>
         match Some event ≫= truthyTimestamp with
         | Some timestamp =>
             if now w - timestamp <? 5 * 60 * 1000
             then (log ["listenForEncryptedMessage"; "Handling previous event"] ;;
                   encryptedMessageCallback env senderPublicKey sharedRx messageCallback event)
             else log ["listenForEncryptedMessage"; "No previous event found"]
         | None => log ["listenForEncryptedMessage"; "No previous event found"]
         end
     | None => log ["listenForEncryptedMessage"; "No previous event found"]
     end) w1
    = (Ok tt, mkWorld (this w1) (storage w1) (now w1) (entropy w1) (trace w1 ++ replayed)) /\
    (ClientShape.messageCallbacks replayed = [] \/
     exists event time decrypted,
       ClientShape.messageCallbacks replayed = [(messageCallback, decrypted)] /\
       initialEvent (this w) = Some event /\
       truthyTimestamp event = Some time /\
       now w - time < 5 * 60 * 1000 /\
       isSender env event senderPublicKey = true /\
       decryptCryptoboxPayload env (fromHex env (content (ev_message event))) sharedRx
       = Some decrypted)).
  { destruct (initialEvent (this w)) as [event|] eqn:Hevent;
      [|eexists; split; [reflexivity|left; reflexivity]].
    cbn [mbind option_bind].
    destruct (truthyTimestamp event) as [time|] eqn:Htime;
      [|eexists; split; [reflexivity|left; reflexivity]].
    destruct (now w - time <? 5 * 60 * 1000) eqn:Hyoung;
      [|eexists; split; [reflexivity|left; reflexivity]].
    unfold bind, log, emit, modifyWorld.
    destruct (encryptedMessageCallback_run senderPublicKey sharedRx messageCallback event
                (record (Log ["listenForEncryptedMessage"; "Handling previous event"] None) w1))
      as (es & -> & Hes).
    eexists. split.
    - cbn [this storage now entropy trace record]. rewrite <- app_assoc. reflexivity.
    - destruct Hes as [->|(decrypted & -> & Hsender & Hdecrypt)]; [left; reflexivity|].
      right. exists event, time, decrypted.
      split; [reflexivity|]. split; [reflexivity|]. split; [exact Htime|].
      split; [apply Z.ltb_lt; exact Hyoung|]. split; assumption. }
  destruct Hreplay as (replayed & Hrun & Hreplayed).
  exists replayed. eexists.
  unfold bind at 1. rewrite Hrun.
  split; [|split; [reflexivity|exact Hreplayed]].
  unfold bind, emit, modifyWorld, ret.
  destruct (initialListener (this w)) as [initial|];
    subst w1; unfold setThis, record; cbn [this storage now entropy trace];
    rewrite <- ?app_assoc, ?app_nil_r; reflexivity.
Qed.

(** X17: one listener per sender.  On a started client the first
    [listenForEncryptedMessage] for a sender subscribes a listener and
    files it under the sender's key; it drops the initial listener and the
    event that listener kept; a further call for the same sender, with
    whatever callback, does nothing at all. *)
Theorem listenForEncryptedMessage_registers_once (senderPublicKey : string)
    (messageCallback : nat) (w : World) :
  is_Some (client (this w)) ->
  activeListeners (this w) !! senderPublicKey = None ->
  exists w1 l,
    listenForEncryptedMessage env senderPublicKey messageCallback w = (Ok tt, w1) /\
    activeListeners (this w1) = <[senderPublicKey := l]> (activeListeners (this w)) /\
    Subscribe MESSAGE l ∈ ClientShape.since w w1 /\
    initialListener (this w1) = None /\
    initialEvent (this w1) = None /\
    client (this w1) = client (this w) /\
    storage w1 = storage w /\
    forall otherCallback,
      listenForEncryptedMessage env senderPublicKey otherCallback w1 = (Ok tt, w1).
Proof.
  intros Hc Hnew.
  destruct (listenForEncryptedMessage_run senderPublicKey messageCallback w Hc Hnew)
    as (replayed & rest & Hrun & _ & _).
  cbv zeta in Hrun. eexists. eexists. split; [exact Hrun|].
  cbn [this activeListeners withInitialEvent withInitialListener withActiveListeners
       initialListener initialEvent client storage].
  split; [reflexivity|]. split.
  { unfold ClientShape.since. cbn [trace]. rewrite drop_app_length.
    apply list_elem_of_here. }
  split; [reflexivity|]. split; [reflexivity|]. split; [reflexivity|].
  split; [reflexivity|].
  intros otherCallback. destruct Hc as [c Hc].
  unfold listenForEncryptedMessage, bind, requireClient, gets.
  repeat first
    [ rewrite Hc | rewrite lookup_insert_eq
    | progress cbn [this client withInitialEvent withInitialListener withActiveListeners
                    activeListeners]
    | progress cbv beta iota ].
  reflexivity.
Qed.

(** X18: listening and unsubscribing undo each other on the table of
    listeners: after [listenForEncryptedMessage] for a new sender and
    [unsubscribeFromEncryptedMessage] for that sender the table is as it
    was, and the listener that is unsubscribed is the one that was
    subscribed; the initial listener is not brought back. *)
Theorem listen_then_unsubscribe (senderPublicKey : string) (messageCallback : nat)
    (w : World) :
  is_Some (client (this w)) ->
  activeListeners (this w) !! senderPublicKey = None ->
  exists w1 w2 l between,
    listenForEncryptedMessage env senderPublicKey messageCallback w = (Ok tt, w1) /\
    unsubscribeFromEncryptedMessage senderPublicKey w1 = (Ok tt, w2) /\
    activeListeners (this w2) = activeListeners (this w) /\
    ClientShape.since w w2
    = Subscribe MESSAGE l :: between ++ [Unsubscribe MESSAGE (Some l)] /\
    initialListener (this w2) = None.
Proof.
  intros Hc Hnew.
  destruct (listenForEncryptedMessage_run senderPublicKey messageCallback w Hc Hnew)
    as (replayed & rest & Hrun & _ & _).
  cbv zeta in Hrun. destruct Hc as [c Hc].
  eexists. eexists. eexists. exists (replayed ++ rest).
  split; [exact Hrun|].
  unfold unsubscribeFromEncryptedMessage, bind, requireClient, gets, emit, modifyWorld.
  repeat first
    [ rewrite Hc | rewrite lookup_insert_eq
    | progress cbn [this client withInitialEvent withInitialListener withActiveListeners
                    activeListeners]
    | progress cbv beta iota ].
  split; [reflexivity|].
  unfold setThis, record.
  cbn [this activeListeners withActiveListeners withInitialEvent
       withInitialListener initialListener trace].
  split; [rewrite delete_insert_id by exact Hnew; reflexivity|].
  split; [|reflexivity].
  unfold ClientShape.since. cbn [trace]. rewrite <- app_assoc, drop_app_length.
  cbn [app]. rewrite <- ?app_assoc. reflexivity.
Qed.

(** X19: the event that arrived before anybody listened is handed to the
    first listener only when it is recent.  While
    [listenForEncryptedMessage] runs, the message callback is called at
    most once, and only with the decrypted text of the kept event, when
    that event has a non-zero timestamp less than five minutes old and
    comes from the sender. *)
Theorem early_event_replayed_when_recent (senderPublicKey : string) (messageCallback : nat)
    (w : World) :
  is_Some (client (this w)) ->
  activeListeners (this w) !! senderPublicKey = None ->
  exists w1,
    listenForEncryptedMessage env senderPublicKey messageCallback w = (Ok tt, w1) /\
    (ClientShape.messageCallbacks (ClientShape.since w w1) = [] \/
     exists event time decrypted,
       ClientShape.messageCallbacks (ClientShape.since w w1) = [(messageCallback, decrypted)] /\
       initialEvent (this w) = Some event /\
       ev_timestamp event = Some time /\ time <> 0 /\
       now w - time < 300000 /\
       isSender env event senderPublicKey = true /\
       decryptCryptoboxPayload env (fromHex env (content (ev_message event)))
         (sharedRx (createCryptoBoxServer env senderPublicKey (privateKey (keyPair (this w)))))
       = Some decrypted).
Proof.
  intros Hc Hnew.
  destruct (listenForEncryptedMessage_run senderPublicKey messageCallback w Hc Hnew)
    as (replayed & rest & Hrun & Hrest & Hreplayed).
  cbv zeta in Hrun, Hreplayed. eexists. split; [exact Hrun|].
  assert (Hsince : ClientShape.messageCallbacks
                     (ClientShape.since w
                        (mkWorld
                           (withInitialEvent None
                              (withInitialListener None
                                 (withActiveListeners
                                    (<[senderPublicKey :=
                                         EncryptedMessageListener senderPublicKey
                                           (sharedRx (createCryptoBoxServer env senderPublicKey
                                                        (privateKey (keyPair (this w)))))
                                           messageCallback]> (activeListeners (this w)))
                                    (this w))))
                           (storage w) (now w) (entropy w)
                           (trace w ++ Subscribe MESSAGE
                                         (EncryptedMessageListener senderPublicKey
                                            (sharedRx (createCryptoBoxServer env senderPublicKey
                                                         (privateKey (keyPair (this w)))))
                                            messageCallback) :: replayed ++ rest)))
                   = ClientShape.messageCallbacks replayed).
  { unfold ClientShape.since. cbn [trace]. rewrite drop_app_length.
    unfold ClientShape.messageCallbacks. cbn [omap list_omap]. rewrite omap_app.
    rewrite Hrest. destruct (initialListener (this w)); cbn; rewrite app_nil_r; reflexivity. }
  rewrite Hsince.
  destruct Hreplayed as [Hnone|(event & time & decrypted & Hcalls & Hevent & Htime & Hyoung
                                & Hsender & Hdecrypt)]; [left; exact Hnone|].
  right. exists event, time, decrypted.
  unfold truthyTimestamp in Htime.
  destruct (ev_timestamp event) as [t|] eqn:Hts; [|discriminate].
  destruct (Js.truthyNumber t) eqn:Htruthy; [|discriminate].
  injection Htime as ->.
  split; [exact Hcalls|]. split; [exact Hevent|]. split; [reflexivity|].
  split; [unfold Js.truthyNumber in Htruthy; apply negb_true_iff, Z.eqb_neq in Htruthy;
          exact Htruthy|].
  split; [lia|]. split; assumption.
Qed.

Lemma initialListenerCallback_run (event : MessageEvent) (w : World) :
  exists kept,
    initialListenerCallback event w = (Ok tt, setThis (withInitialEvent (Some kept)) w) /\
    match initialEvent (this w) ≫= truthyTimestamp, truthyTimestamp event with
    | Some previous, Some current =>
        if previous <? current then kept = event else initialEvent (this w) = Some kept
    | _, _ => kept = event
    end.
Proof.
  unfold initialListenerCallback, bind, gets, modifyWorld, ret.
  destruct (initialEvent (this w)) as [old|] eqn:Hold; cbn [mbind option_bind];
    [|exists event; split; reflexivity].
  destruct (truthyTimestamp old) as [previous|]; [|exists event; split; reflexivity].
  destruct (truthyTimestamp event) as [current|]; [|exists event; split; reflexivity].
  destruct (previous <? current); [exists event; split; reflexivity|].
  exists old. split; [|reflexivity].
  destruct w as [t s n k tr]. unfold setThis. cbn [this] in *.
  destruct t. cbn in Hold. subst. reflexivity.
Qed.

(** X20: the initial listener keeps the latest event.  When the events it
    is given all carry a non-zero timestamp, the event it holds at the end
    is one of them and none of them has a later timestamp; it never
    throws and has no effect on the outside.  An event without a timestamp
    (or with timestamp 0) replaces the kept event whatever its age. *)
Theorem initialListener_keeps_latest (events : list MessageEvent) (w : World) :
  events <> [] ->
  initialEvent (this w) = None ->
  exists w',
    ClientShape.deliver initialListenerCallback events w = (Ok tt, w') /\
    trace w' = trace w /\ storage w' = storage w /\
    (forall event, last events = Some event -> truthyTimestamp event = None ->
       initialEvent (this w') = Some event) /\
    (Forall (fun event => is_Some (truthyTimestamp event)) events ->
     exists latest time,
       initialEvent (this w') = Some latest /\
       latest ∈ events /\
       truthyTimestamp latest = Some time /\
       Forall (fun event => forall t, truthyTimestamp event = Some t -> t <= time) events).
Proof.
  intros Hsome Hnone.
  assert (Hgen : forall (evs : list MessageEvent) (w0 : World),
    exists w',
      ClientShape.deliver initialListenerCallback evs w0 = (Ok tt, w') /\
      trace w' = trace w0 /\ storage w' = storage w0 /\
      (evs = [] -> w' = w0) /\
      (forall event, last evs = Some event -> truthyTimestamp event = None ->
         initialEvent (this w') = Some event) /\
      (Forall (fun event => is_Some (truthyTimestamp event)) evs ->
       forall bound,
         (forall old t, initialEvent (this w0) = Some old -> truthyTimestamp old = Some t ->
            t <= bound) ->
         (initialEvent (this w0) = None -> evs <> []) ->
         (forall old, initialEvent (this w0) = Some old -> is_Some (truthyTimestamp old)) ->
         exists latest time,
           initialEvent (this w') = Some latest /\
           (initialEvent (this w0) = Some latest \/ latest ∈ evs) /\
           truthyTimestamp latest = Some time /\
           (forall old t, initialEvent (this w0) = Some old -> truthyTimestamp old = Some t ->
              t <= time) /\
           Forall (fun event => forall t, truthyTimestamp event = Some t -> t <= time) evs)).
  { induction evs as [|event evs IH]; intros w0.
    - exists w0. split; [reflexivity|]. split; [reflexivity|]. split; [reflexivity|].
      split; [reflexivity|]. split; [discriminate|].
      intros _ bound _ Hne Hold.
      destruct (initialEvent (this w0)) as [old|] eqn:Hev; [|exfalso; apply Hne; reflexivity].
      destruct (Hold old eq_refl) as [t Ht].
      exists old, t. split; [reflexivity|]. split; [left; reflexivity|].
      split; [exact Ht|]. split; [|constructor].
      intros old' t' [= <-] Ht'. rewrite Ht in Ht'. injection Ht' as <-. lia.
    - cbn [ClientShape.deliver]. unfold bind.
      destruct (initialListenerCallback_run event w0) as (kept & Hrun & Hkept).
      rewrite Hrun.
      set (w1 := setThis (withInitialEvent (Some kept)) w0) in *.
      destruct (IH w1) as (w' & Hrest & Htrace & Hstorage & Hnil & Hlast & Hmax).
      exists w'. split; [exact Hrest|]. split; [exact Htrace|]. split; [exact Hstorage|].
      split; [discriminate|]. split.
      + intros last_event Hl Hts. destruct evs as [|e2 evs].
        * cbn in Hl. injection Hl as <-. rewrite (Hnil eq_refl).
          rewrite Hts in Hkept.
          assert (kept = event) as ->
            by (destruct (initialEvent (this w0) ≫= truthyTimestamp); exact Hkept).
          reflexivity.
        * apply Hlast; [exact Hl|exact Hts].
      + intros Hall bound Hbound _ Hold.
        apply Forall_cons in Hall as [[current Hcurrent] Hall].
        rewrite Hcurrent in Hkept.
        assert (Hk : exists tk, truthyTimestamp kept = Some tk /\ current <= tk /\
                                (kept = event \/ initialEvent (this w0) = Some kept) /\
                                (forall old t, initialEvent (this w0) = Some old ->
                                   truthyTimestamp old = Some t -> t <= tk)).
        { destruct (initialEvent (this w0)) as [old|] eqn:Hev; cbn [mbind option_bind] in Hkept.
          - destruct (Hold old eq_refl) as [previous Hprevious]. rewrite Hprevious in Hkept.
            destruct (previous <? current) eqn:Hlt.
            + subst kept. exists current. split; [exact Hcurrent|]. split; [lia|].
              split; [left; reflexivity|].
              intros old' t' [= <-] Ht'. rewrite Hprevious in Ht'. injection Ht' as <-.
              apply Z.ltb_lt in Hlt. lia.
            + injection Hkept as <-. exists previous. split; [exact Hprevious|].
              apply Z.ltb_ge in Hlt. split; [exact Hlt|]. split; [right; reflexivity|].
              intros old' t' [= <-] Ht'. rewrite Hprevious in Ht'. injection Ht' as <-. lia.
          - subst kept. exists current. split; [exact Hcurrent|]. split; [lia|].
            split; [left; reflexivity|]. intros old' t' [=]. }
        destruct Hk as (tk & Htk & Hcur & Hwhich & Holds).
        destruct (Hmax Hall tk) as (latest & time & Hfinal & Hfrom & Htime & Hge & Hrest').
        { intros old t [= <-] Ht. rewrite Htk in Ht. injection Ht as <-. lia. }
        { discriminate. }
        { intros old [= <-]. eexists. exact Htk. }
        exists latest, time. split; [exact Hfinal|].
        assert (Htk_le : tk <= time) by (apply (Hge kept tk); [reflexivity|exact Htk]).
        split.
        { destruct Hfrom as [[= <-]|Hin].
          - destruct Hwhich as [->|Hprev]; [right; apply list_elem_of_here|left; exact Hprev].
          - right. apply list_elem_of_further. exact Hin. }
        split; [exact Htime|]. split.
        { intros old t Hev Ht. specialize (Holds old t Hev Ht). lia. }
        constructor; [|exact Hrest'].
        intros t Ht. rewrite Hcurrent in Ht. injection Ht as <-. lia. }
  destruct (Hgen events w) as (w' & Hrun & Htrace & Hstorage & _ & Hlast & Hmax).
  exists w'. split; [exact Hrun|]. split; [exact Htrace|]. split; [exact Hstorage|].
  split; [exact Hlast|].
  intros Hall.
  destruct (Hmax Hall 0) as (latest & time & Hfinal & Hfrom & Htime & _ & Hrest).
  { intros old t Hold. rewrite Hnone in Hold. discriminate. }
  { intros _. exact Hsome. }
  { intros old Hold. rewrite Hnone in Hold. discriminate. }
  exists latest, time. split; [exact Hfinal|]. split.
  - destruct Hfrom as [Hold|Hin]; [rewrite Hnone in Hold; discriminate|exact Hin].
  - split; [exact Htime|exact Hrest].
Qed.

Lemma since_app (w w' : World) (es : Trace) :
  trace w' = trace w ++ es -> ClientShape.since w w' = es.
Proof. intros H. unfold ClientShape.since. rewrite H. apply drop_app_length. Qed.

(** X21: outside of the forbidden case [sendMessage] sends once.  When
    the room of the recipient cannot be resolved, the error reaches the
    caller and nothing is sent.  When it is resolved and the chat server
    accepts the text, or rejects it with an error other than
    [M_FORBIDDEN], [sendMessage] returns without an error, exactly one
    text message was handed to the server (the encrypted message, for the
    resolved room), and the room stays bound to the recipient. *)
Theorem sendMessage_sends_once (message : string) (peer : PeerInfo) (w : World) :
  is_Some (client (this w)) ->
  match getRelevantRoom env (recipientOf env peer) w with
  | (Thrown error, w1) =>
      sendMessage env message peer w = (Thrown error, w1) /\
      sentMessages (ClientShape.since w w1) = []
  | (Ok roomId, w1) =>
      let encrypted := encryptedFor env message peer w w1 in
      (forall error, sendTextMessage env (trace w1) roomId encrypted = Some error ->
                     Js.hasErrcode error "M_FORBIDDEN" = false) ->
      exists w',
        sendMessage env message peer w = (Ok tt, w') /\
        sentMessages (ClientShape.since w w') = [(roomId, encrypted)] /\
        this w' = this w /\
        storage w' = storage w1 /\
        Storage.MATRIX_PEER_ROOM_IDS (storage w') !! recipientOf env peer = Some roomId
  end.
Proof.
  intros [c Hc].
  destruct (getRelevantRoom env (recipientOf env peer) w) as [[roomId|error] w1] eqn:Hroom.
  - intros encrypted Hother.
    destruct (quiet_getRelevantRoom env _ _ _ _ Hroom) as (Hthis & es & Htrace & Hsent).
    rewrite (sendMessage_run env message peer w c roomId w1 Hc Hroom). fold encrypted.
    unfold detached, catch, sendText, call.
    change (trace (drawn w1)) with (trace w1).
    destruct (sendTextMessage env (trace w1) roomId encrypted) as [error|] eqn:Hsend.
    + unfold onSendError. rewrite (Hother error eq_refl).
      unfold logError, emit, modifyWorld. eexists. split; [reflexivity|].
      split.
      { erewrite since_app; [|cbn [trace record drawn]; rewrite Htrace, <- !app_assoc; reflexivity].
        rewrite sentMessages_app, Hsent. reflexivity. }
      split; [exact Hthis|]. split; [reflexivity|].
      exact (getRelevantRoom_binds env _ _ _ _ Hroom).
    + eexists. split; [reflexivity|]. split.
      { erewrite since_app; [|cbn [trace record drawn]; rewrite Htrace, <- !app_assoc; reflexivity].
        rewrite sentMessages_app, Hsent. reflexivity. }
      split; [exact Hthis|]. split; [reflexivity|].
      exact (getRelevantRoom_binds env _ _ _ _ Hroom).
  - destruct (quiet_getRelevantRoom env _ _ _ _ Hroom) as (_ & es & Htrace & Hsent).
    split.
    + unfold sendMessage. unfold bind at 1. rewrite (requireClient_defined w c Hc).
      unfold bind at 1, gets. unfold bind at 1. rewrite Hroom. reflexivity.
    + rewrite (since_app _ _ _ Htrace). exact Hsent.
Qed.

Lemma waitForJoin_storage (roomId : string) : forall (n : nat) (retry : Z) (w : World) r w',
  Z.to_nat (201 - retry) = n ->
  waitForJoin env roomId retry w = (r, w') -> storage w' = storage w.
Proof.
  induction n as [|n IH]; intros retry w r w' Hn Hrun;
    rewrite waitForJoin_equation_1 in Hrun;
    (destruct (client (this w)) as [c|] eqn:Hc;
     [|rewrite (guarded_undefined _ w Hc) in Hrun; injection Hrun as _ <-; reflexivity]);
    unfold bind at 1 in Hrun; rewrite (requireClient_defined w c Hc) in Hrun;
    unfold bind at 1, query in Hrun; unfold bind at 1, log, emit, modifyWorld in Hrun;
    (destruct (2 <=? _); [injection Hrun as _ <-; reflexivity|]);
    (destruct (Z_le_gt_dec retry 200) as [Hle|Hgt];
     [|injection Hrun as _ <-; reflexivity]).
  - lia.
  - unfold bind at 1 in Hrun. unfold bind at 1, sleep in Hrun.
    apply IH in Hrun; [exact Hrun|lia].
Qed.

(** X22: [sendPairingResponse] sends at most one text message.  If it
    throws (no room for the recipient, or nobody joined the room in time)
    nothing was sent.  If it returns, exactly one channel-open message was
    handed to the server, for the resolved room, and an error of that send
    is logged only; for a request without a version the sealed text is the
    responder's public key, not a serialised response. *)
Theorem sendPairingResponse_sends_once (pairingRequest : PeerInfo) (w : World)
    (r : Result unit) (w' : World) :
  is_Some (client (this w)) ->
  sendPairingResponse env pairingRequest w = (r, w') ->
  this w' = this w /\
  match r with
  | Thrown _ => sentMessages (ClientShape.since w w') = []
  | Ok _ =>
      exists roomId sealed,
        sentMessages (ClientShape.since w w')
        = [(roomId, join ":" ["@channel-open"; recipientOf env pairingRequest; sealed])] /\
        Storage.MATRIX_PEER_ROOM_IDS (storage w') !! recipientOf env pairingRequest
        = Some roomId /\
        (info_version pairingRequest = None ->
         exists n, sealed = encryptMessageAsymmetric env (info_publicKey pairingRequest)
                              (getPublicKey env (this w)) n)
  end.
Proof.
  intros [c Hc]. unfold sendPairingResponse.
  unfold bind at 1. rewrite (requireClient_defined w c Hc).
  unfold bind at 1, log, emit, modifyWorld.
  set (w0 := record (Log ["sendPairingResponse"] None) w).
  unfold bind at 1.
  destruct (getRelevantRoom env (recipientOf env pairingRequest) w0)
    as [[roomId|e] w1] eqn:Hroom.
  2:{ intros [= <- <-].
      destruct (quiet_getRelevantRoom env _ _ _ _ Hroom) as (Hthis & es & Htrace & Hsent).
      split; [exact Hthis|].
      erewrite since_app; [|rewrite Htrace; subst w0; cbn [trace record];
                            rewrite <- app_assoc; reflexivity].
      rewrite sentMessages_app, Hsent. reflexivity. }
  destruct (quiet_getRelevantRoom env _ _ _ _ Hroom) as (Hthis1 & es1 & Htrace1 & Hsent1).
  unfold bind at 1.
  destruct (waitForJoin env roomId 0 w1) as [[[]|e] w2] eqn:Hwait.
  2:{ intros [= <- <-].
      destruct (quiet_waitForJoin env roomId _ 0 eq_refl _ _ _ Hwait)
        as (Hthis2 & es2 & Htrace2 & Hsent2).
      split; [rewrite Hthis2; exact Hthis1|].
      erewrite since_app; [|rewrite Htrace2, Htrace1; subst w0; cbn [trace record];
                            rewrite <- !app_assoc; reflexivity].
      rewrite !sentMessages_app, Hsent1, Hsent2. reflexivity. }
  destruct (quiet_waitForJoin env roomId _ 0 eq_refl _ _ _ Hwait)
    as (Hthis2 & es2 & Htrace2 & Hsent2).
  assert (Hstorage2 : Storage.MATRIX_PEER_ROOM_IDS (storage w2) !! recipientOf env pairingRequest
                      = Some roomId).
  { rewrite (waitForJoin_storage roomId _ 0 w1 _ w2 eq_refl Hwait).
    exact (getRelevantRoom_binds env _ _ _ _ Hroom). }
  unfold bind at 1, gets.
  assert (Hmessage : exists message,
    (match info_version pairingRequest with
     | None => ret (getPublicKey env (this w2))
     | Some _ =>
         info <- getPairingResponseInfo env pairingRequest ;;
         ret (stringifyPeerInfo env info)
     end) w2 = (Ok message, w2) /\
    (info_version pairingRequest = None -> message = getPublicKey env (this w))).
  { destruct (info_version pairingRequest) as [version|].
    - destruct (getPairingResponseInfo_fields env pairingRequest w2) as (info & Hrun & _).
      eexists. unfold bind. rewrite Hrun. split; [reflexivity|discriminate].
    - eexists. split; [reflexivity|]. intros _. rewrite Hthis2, Hthis1. reflexivity. }
  destruct Hmessage as (message & Hmessage & Hv1).
  unfold bind at 1. rewrite Hmessage.
  unfold bind at 1, draw.
  rewrite detached_send_logged. intros [= <- <-].
  change (trace (drawn w2)) with (trace w2).
  split.
  { destruct (sendTextMessage env (trace w2) roomId _); cbn [this record drawn];
      rewrite Hthis2; exact Hthis1. }
  exists roomId. eexists. split; [|split].
  - destruct (sendTextMessage env (trace w2) roomId _);
      (erewrite since_app;
       [|cbn [trace record drawn]; rewrite Htrace2, Htrace1; subst w0; cbn [trace record];
         rewrite <- !app_assoc; reflexivity]);
      rewrite !sentMessages_app, Hsent1, Hsent2; reflexivity.
  - destruct (sendTextMessage env (trace w2) roomId _); exact Hstorage2.
  - intros Hversion. exists (entropy w2). rewrite (Hv1 Hversion). reflexivity.
Qed.

Lemma append_assoc (a b c : string) : (a +:+ b) +:+ c = a +:+ (b +:+ c).
Proof.
  induction a as [|x a IH]; [reflexivity|].
  change (String x ((a +:+ b) +:+ c) = String x (a +:+ (b +:+ c))).
  rewrite IH. reflexivity.
Qed.

Lemma append_nil_r (a : string) : a +:+ "" = a.
Proof.
  induction a as [|x a IH]; [reflexivity|].
  change (String x (a +:+ "") = String x a). rewrite IH. reflexivity.
Qed.

Lemma prefix_append (p s : string) : String.prefix p (p +:+ s) = true.
Proof.
  induction p as [|x p IH]; simpl; [destruct s; reflexivity|].
  destruct (ascii_dec x x) as [_|Hne]; [exact IH|contradiction].
Qed.

Lemma lastSegment_colonFree (s : string) : forall acc,
  ClientShape.colonFree s = true -> lastSegment acc s = acc +:+ s.
Proof.
  induction s as [|c s IH]; intros acc Hfree; cbn.
  - symmetry. apply append_nil_r.
  - cbn in Hfree. apply andb_true_iff in Hfree as [Hc Hfree].
    apply negb_true_iff in Hc. rewrite Hc, IH by exact Hfree.
    apply append_assoc.
Qed.

Lemma lastSegment_after_colon (s : string) : forall before acc,
  ClientShape.colonFree s = true ->
  lastSegment acc (before +:+ ":" +:+ s) = s.
Proof.
  induction before as [|c before IH]; intros acc Hfree.
  - apply (lastSegment_colonFree s "" Hfree).
  - change (String c before +:+ ":" +:+ s) with (String c (before +:+ ":" +:+ s)).
    cbn [lastSegment]. destruct (Ascii.eqb c ":"); apply IH; exact Hfree.
Qed.

(** X23: the channel-open message that [sendPairingResponse] builds is
    read back by [listenForChannelOpening].  For a request that carries the
    public key of a client, the text [@channel-open:<recipient>:<sealed>]
    passes that client's test for channel-open messages, and what the
    listener takes as payload, the part after the last colon, is the sealed
    text, whatever the relay server of the request is (a colon in a host
    with a port included), as long as the sealed text has no colon. *)
Theorem channel_open_read_back (c : Client) (pairingRequest : PeerInfo)
    (sealed senderAddress : string) (time : Z) :
  info_publicKey pairingRequest = getPublicKey env c ->
  ClientShape.colonFree sealed = true ->
  let text := join ":" ["@channel-open"; recipientOf env pairingRequest; sealed] in
  let received := mkMessage TEXT senderAddress text time in
  isTextMessage received && isChannelOpenMessage env c received = true /\
  lastSegment "" (content received) = sealed.
Proof.
  intros Hkey Hfree text received. split.
  - unfold isChannelOpenMessage. cbn [isTextMessage msgType received content andb].
    subst text. unfold recipientOf, recipientString. rewrite Hkey.
    cbn [join].
    set (hash := getHexHash env (fromHex env (getPublicKey env c))).
    replace ("@channel-open" +:+ ":" +:+ ("@" +:+ hash +:+ ":" +:+
               template (info_relayServer pairingRequest)) +:+ ":" +:+ sealed)
      with (("@channel-open:@" +:+ hash) +:+ ":" +:+
              template (info_relayServer pairingRequest) +:+ ":" +:+ sealed).
    + apply prefix_append.
    + rewrite !append_assoc. reflexivity.
  - cbn [content received]. subst text. cbn [join].
    replace ("@channel-open" +:+ ":" +:+ recipientOf env pairingRequest +:+ ":" +:+ sealed)
      with (("@channel-open" +:+ ":" +:+ recipientOf env pairingRequest) +:+ ":" +:+ sealed)
      by (rewrite !append_assoc; reflexivity).
    apply lastSegment_after_colon. exact Hfree.
Qed.

(** X24: [unsubscribeFromEncryptedMessages] empties the table of
    listeners with one unsubscription of all message listeners of the chat
    client; after it, [listenForEncryptedMessage] subscribes again for
    every sender, also for one that had a listener before. *)
Theorem unsubscribe_all_then_listen (senderPublicKey : string) (messageCallback : nat)
    (w : World) :
  is_Some (client (this w)) ->
  exists w1 w2 l,
    unsubscribeFromEncryptedMessages w = (Ok tt, w1) /\
    activeListeners (this w1) = ∅ /\
    ClientShape.since w w1 = [Unsubscribe MESSAGE None] /\
    storage w1 = storage w /\
    listenForEncryptedMessage env senderPublicKey messageCallback w1 = (Ok tt, w2) /\
    activeListeners (this w2) = {[ senderPublicKey := l ]} /\
    Subscribe MESSAGE l ∈ ClientShape.since w1 w2.
Proof.
  intros [c Hc].
  set (w1 := setThis (withActiveListeners ∅) (record (Unsubscribe MESSAGE None) w)).
  assert (Hrun1 : unsubscribeFromEncryptedMessages w = (Ok tt, w1)).
  { unfold unsubscribeFromEncryptedMessages, bind, emit, modifyWorld.
    rewrite (requireClient_defined w c Hc). reflexivity. }
  assert (Hc1 : is_Some (client (this w1))) by (exists c; exact Hc).
  assert (Hnew : activeListeners (this w1) !! senderPublicKey = None) by apply lookup_empty.
  destruct (listenForEncryptedMessage_run senderPublicKey messageCallback w1 Hc1 Hnew)
    as (replayed & rest & Hrun & _ & _).
  cbv zeta in Hrun. exists w1. eexists. eexists.
  split; [exact Hrun1|]. split; [reflexivity|].
  split; [apply since_app; reflexivity|]. split; [reflexivity|].
  split; [exact Hrun|].
  split; [reflexivity|].
  unfold ClientShape.since. cbn [trace]. rewrite drop_app_length. apply list_elem_of_here.
Qed.

End ClientMore.


(** ** The client properties on concrete clients *)

(** The run of [tryJoinRooms] against a chat server that rejects three
    joins: the fourth attempt succeeds. *)
Lemma reluctant_join :
  exists w',
    P2P.tryJoinRooms ClientSamples.reluctantEnv "!invited" 1 Samples.startedWorld
    = (P2P.Ok tt, w') /\
    ClientShape.joinAttempts (ClientShape.since Samples.startedWorld w')
    = replicate 4 ["!invited"].
Proof.
  eexists. split.
  - do 3 (rewrite (tryJoinRooms_unfold ClientSamples.reluctantEnv _ _ _
                     (P2P.mkMatrixClient "https://relay-b")) by reflexivity;
          match goal with
          | |- context [P2P.joinRooms ?e ?t ?r] =>
              let v := eval vm_compute in (P2P.joinRooms e t r) in
              change (P2P.joinRooms e t r) with v
          end;
          cbv beta iota;
          match goal with
          | |- context [(?a <=? 10) && ?b] =>
              let v := eval vm_compute in ((a <=? 10) && b) in
              change ((a <=? 10) && b) with v
          end;
          cbv iota; unfold P2P.detached, P2P.catch).
    rewrite (tryJoinRooms_unfold ClientSamples.reluctantEnv _ _ _
               (P2P.mkMatrixClient "https://relay-b")) by reflexivity.
    match goal with
    | |- context [P2P.joinRooms ?e ?t ?r] =>
        let v := eval vm_compute in (P2P.joinRooms e t r) in
        change (P2P.joinRooms e t r) with v
    end.
    reflexivity.
  - reflexivity.
Qed.

Section ClientExamples.
Import Matrix P2P Samples ClientSamples.

Lemma startedWorld_ready : is_Some (client (this startedWorld)).
Proof. eexists. reflexivity. Qed.

Lemma tryJoinRooms_gives_up_witness :
  exists w',
    tryJoinRooms reluctantEnv "!invited" 1 startedWorld = (Ok tt, w') /\
    ClientShape.joinAttempts (ClientShape.since startedWorld w')
    = replicate 4 ["!invited"] /\
    ClientShape.timers (ClientShape.since startedWorld w') = [200; 200; 200] /\
    now w' - now startedWorld = 600.
Proof.
  destruct (tryJoinRooms_gives_up reluctantEnv "!invited" startedWorld startedWorld_ready)
    as (w' & attempts & errors & final & Hrun & _ & _ & Hjoin & _ & _ & _ & _ & _ & _ & _
        & Htimers & Htime).
  destruct reluctant_join as (w0 & Hrun0 & Hattempts).
  rewrite Hrun in Hrun0. injection Hrun0 as <-.
  assert (Hfour : attempts = 4%nat).
  { apply (f_equal length) in Hjoin. rewrite Hattempts, !length_replicate in Hjoin.
    symmetry. exact Hjoin. }
  subst attempts. exists w'. split; [exact Hrun|]. split; [exact Hjoin|].
  split; [exact Htimers|exact Htime].
Defined.

Lemma getAndRemoveStandbyRoom_hands_out_once_witness :
  exists w',
    getAndRemoveStandbyRoom openEnv walletWorld = (Ok (Some "!standby"), w') /\
    Storage.MATRIX_ROOM_STANDBY (storage w') = Some "!new" /\
    ClientShape.since walletWorld w' = [CreateTrustedPrivateRoom []].
Proof.
  destruct (getAndRemoveStandbyRoom_hands_out_once openEnv walletWorld "!standby"
              eq_refl (ex_intro _ _ eq_refl) eq_refl eq_refl)
    as (w' & Hrun & _ & _ & Hstandby & Hsince).
  exists w'. split; [exact Hrun|]. split; [exact Hstandby|exact Hsince].
Defined.

Lemma getRelevantRoom_caches_witness :
  getRelevantRoom openEnv "@ff:relay-a"
    (getRelevantRoom openEnv "@ff:relay-a" startedWorld).2
  = (Ok "!open",
     record (Log ["getRelevantRoom"; "Using room !open"] None)
       (getRelevantRoom openEnv "@ff:relay-a" startedWorld).2).
Proof.
  exact (getRelevantRoom_caches openEnv "@ff:relay-a" "!open" startedWorld
           (getRelevantRoom openEnv "@ff:relay-a" startedWorld).2 eq_refl eq_refl).
Defined.

Lemma getRelevantJoinedRoom_reuses_open_channel_witness :
  exists w',
    getRelevantJoinedRoom openEnv "@ff:relay-a" walletWorld
    = (Ok (mkRoom "!open" JOINED ["@me"; "@ff:relay-a"] []), w') /\
    storage w' = storage walletWorld.
Proof.
  destruct (getRelevantJoinedRoom_reuses_open_channel openEnv "@ff:relay-a" walletWorld
              (mkRoom "!open" JOINED ["@me"; "@ff:relay-a"] []) []
              (ex_intro _ _ eq_refl) eq_refl)
    as (w' & Hrun & _ & Hstorage & _).
  exists w'. split; [exact Hrun|exact Hstorage].
Defined.

Lemma listenForEncryptedMessage_registers_once_witness :
  exists w1 l,
    listenForEncryptedMessage openEnv "peer" 1%nat earlyWorld = (Ok tt, w1) /\
    activeListeners (this w1) = <["peer" := l]> (activeListeners (this earlyWorld)) /\
    initialListener (this w1) = None /\
    listenForEncryptedMessage openEnv "peer" 2%nat w1 = (Ok tt, w1).
Proof.
  destruct (listenForEncryptedMessage_registers_once openEnv "peer" 1%nat earlyWorld
              (ex_intro _ _ eq_refl) eq_refl)
    as (w1 & l & Hrun & Hactive & _ & Hinitial & _ & _ & _ & Hagain).
  exists w1, l. split; [exact Hrun|]. split; [exact Hactive|]. split; [exact Hinitial|].
  apply Hagain.
Defined.

Lemma listen_then_unsubscribe_witness :
  exists w1 w2,
    listenForEncryptedMessage openEnv "peer" 1%nat earlyWorld = (Ok tt, w1) /\
    unsubscribeFromEncryptedMessage "peer" w1 = (Ok tt, w2) /\
    activeListeners (this w2) = activeListeners (this earlyWorld).
Proof.
  destruct (listen_then_unsubscribe openEnv "peer" 1%nat earlyWorld
              (ex_intro _ _ eq_refl) eq_refl)
    as (w1 & w2 & l & between & Hrun & Hunsubscribe & Hactive & _).
  exists w1, w2. split; [exact Hrun|]. split; [exact Hunsubscribe|exact Hactive].
Defined.

Lemma early_event_replayed_when_recent_witness :
  exists w1,
    listenForEncryptedMessage openEnv "peer" 1%nat earlyWorld = (Ok tt, w1) /\
    ClientShape.messageCallbacks (ClientShape.since earlyWorld w1)
    = [(1%nat, content earlyMessage)].
Proof.
  destruct (early_event_replayed_when_recent openEnv "peer" 1%nat earlyWorld
              (ex_intro _ _ eq_refl) eq_refl) as (w1 & Hrun & _).
  exists w1. split; [exact Hrun|].
  injection Hrun as <-. reflexivity.
Defined.

Lemma unsubscribe_all_then_listen_witness :
  exists w1 w2 l,
    unsubscribeFromEncryptedMessages earlyWorld = (Ok tt, w1) /\
    listenForEncryptedMessage openEnv "peer" 1%nat w1 = (Ok tt, w2) /\
    activeListeners (this w2) = {[ "peer" := l ]}.
Proof.
  destruct (unsubscribe_all_then_listen openEnv "peer" 1%nat earlyWorld (ex_intro _ _ eq_refl))
    as (w1 & w2 & l & Hrun1 & _ & _ & _ & Hrun2 & Hactive & _).
  exists w1, w2, l. split; [exact Hrun1|]. split; [exact Hrun2|exact Hactive].
Defined.

Lemma initialListener_keeps_latest_witness :
  exists w',
    ClientShape.deliver initialListenerCallback
      [earlyEvent 3000; earlyEvent 5000; earlyEvent 4000] startedWorld = (Ok tt, w') /\
    initialEvent (this w') = Some (earlyEvent 5000).
Proof.
  destruct (initialListener_keeps_latest
              [earlyEvent 3000; earlyEvent 5000; earlyEvent 4000] startedWorld
              ltac:(discriminate) eq_refl) as (w' & Hrun & _).
  exists w'. split; [exact Hrun|].
  injection Hrun as <-. reflexivity.
Defined.

Lemma sendMessage_sends_once_witness :
  exists w',
    sendMessage openEnv "hi" samplePeer routedWorld = (Ok tt, w') /\
    sentMessages (ClientShape.since routedWorld w') = [("!old", "tx|hi")] /\
    Storage.MATRIX_PEER_ROOM_IDS (storage w') !! "@ff:relay-a" = Some "!old".
Proof.
  pose proof (sendMessage_sends_once openEnv "hi" samplePeer routedWorld
                (ex_intro _ _ eq_refl)) as H.
  destruct (getRelevantRoom openEnv (recipientOf openEnv samplePeer) routedWorld)
    as [[roomId|error] w1] eqn:Hroom; [|discriminate].
  injection Hroom as <- <-.
  destruct H as (w' & Hrun & Hsent & _ & _ & Hbound); [discriminate|].
  exists w'. split; [exact Hrun|]. split; [exact Hsent|exact Hbound].
Defined.

Lemma sendPairingResponse_sends_once_witness :
  this (sendPairingResponse openEnv oldRequest routedWorld).2 = this routedWorld /\
  match (sendPairingResponse openEnv oldRequest routedWorld).1 with
  | Thrown _ =>
      sentMessages
        (ClientShape.since routedWorld (sendPairingResponse openEnv oldRequest routedWorld).2)
      = []
  | Ok _ =>
      exists roomId sealed,
        sentMessages
          (ClientShape.since routedWorld (sendPairingResponse openEnv oldRequest routedWorld).2)
        = [(roomId, join ":" ["@channel-open"; recipientOf openEnv oldRequest; sealed])] /\
        Storage.MATRIX_PEER_ROOM_IDS
          (storage (sendPairingResponse openEnv oldRequest routedWorld).2)
          !! recipientOf openEnv oldRequest = Some roomId /\
        (info_version oldRequest = None ->
         exists n, sealed = encryptMessageAsymmetric openEnv (info_publicKey oldRequest)
                              (getPublicKey openEnv (this routedWorld)) n)
  end.
Proof.
  apply (sendPairingResponse_sends_once openEnv oldRequest routedWorld).
  - eexists. reflexivity.
  - apply surjective_pairing.
Defined.

Lemma channel_open_read_back_witness :
  isChannelOpenMessage openEnv (sampleClient false)
    (mkMessage TEXT "@peer:relay-a"
       (join ":" ["@channel-open"; recipientOf openEnv oldRequest; "c0ffee"]) 7) = true /\
  lastSegment "" (join ":" ["@channel-open"; recipientOf openEnv oldRequest; "c0ffee"])
  = "c0ffee".
Proof.
  exact (channel_open_read_back openEnv (sampleClient false) oldRequest "c0ffee"
           "@peer:relay-a" 7 eq_refl eq_refl).
Defined.

End ClientExamples.


(* ===================================================================== *)
(** * Properties of the client with replicas *)
(* ===================================================================== *)

Section ReplicatedFacts.
Import Matrix Replicated.
Local Open Scope replicated_scope.

Variable env : Env.

(** X25: the two revisions of the client select the same relay server:
    for the same server list and key pair, [getRelayServer] of the client
    with replicas returns what [getRelayServer] of the current client
    returns; only the default server lists differ (two servers here). *)
Theorem getRelayServer_same_in_both_revisions (c : Client) (current : P2P.Client)
    (publicKeyHash : option string) (nonce : string) :
  KNOWN_RELAY_SERVERS c = P2P.KNOWN_RELAY_SERVERS current ->
  keyPair c = P2P.keyPair current ->
  getRelayServer env c publicKeyHash nonce
  = P2P.getRelayServer (crypto env) current publicKeyHash nonce.
Proof.
  intros Hservers Hkey. unfold getRelayServer, P2P.getRelayServer.
  rewrite Hservers, Hkey. reflexivity.
Qed.

Lemma silent_ret {A} (a : A) : silent (ret a).
Proof.
  intros w r w' [= <- <-]. split; [reflexivity|]. exists []. rewrite app_nil_r.
  repeat split.
Qed.

Lemma silent_gets {A} (f : World -> A) : silent (gets f).
Proof.
  intros w r w' [= <- <-]. split; [reflexivity|]. exists []. rewrite app_nil_r.
  repeat split.
Qed.

Lemma replica_sentMessages_app (a b : Trace) :
  sentMessages (a ++ b) = sentMessages a ++ sentMessages b.
Proof. apply omap_app. Qed.

Lemma replica_subscriptions_app (a b : Trace) :
  subscriptions (a ++ b) = subscriptions a ++ subscriptions b.
Proof. apply omap_app. Qed.

Lemma silent_bind {A B} (m : M A) (k : A -> M B) :
  silent m -> (forall a, silent (k a)) -> silent (bind m k).
Proof.
  intros Hm Hk w r w' Hrun. unfold bind in Hrun.
  destruct (m w) as [[a|e] w1] eqn:Hmw.
  - destruct (Hm _ _ _ Hmw) as (Hthis1 & es1 & Htrace1 & Hsent1 & Hsub1).
    destruct (Hk a _ _ _ Hrun) as (Hthis2 & es2 & Htrace2 & Hsent2 & Hsub2).
    split; [congruence|]. exists (es1 ++ es2).
    rewrite Htrace2, Htrace1, <- app_assoc, replica_sentMessages_app, replica_subscriptions_app,
      Hsent1, Hsent2, Hsub1, Hsub2.
    repeat split.
  - injection Hrun as <- <-. exact (Hm _ _ _ Hmw).
Qed.

Lemma silent_emit (e : Effect) :
  sentMessages [e] = [] -> subscriptions [e] = [] -> silent (emit e).
Proof.
  intros Hsent Hsub w r w' [= <- <-]. split; [reflexivity|]. exists [e].
  repeat split; assumption.
Qed.

Lemma silent_log (args : list string) : silent (log args).
Proof.
  unfold log. apply silent_bind; [apply silent_gets|]. intros c.
  destruct (debug c); [apply silent_emit; reflexivity|apply silent_ret].
Qed.

Lemma silent_logError (error : Js.Error) : silent (logError error).
Proof.
  unfold logError. apply silent_bind; [apply silent_gets|]. intros c.
  destruct (debug c); [apply silent_emit; reflexivity|apply silent_ret].
Qed.

Lemma silent_caught (e : Effect) (answer : Trace -> option Js.Error) :
  sentMessages [e] = [] -> subscriptions [e] = [] ->
  silent (catch (call e answer) logError).
Proof.
  intros Hsent Hsub w r w' Hrun. unfold catch, call in Hrun.
  destruct (answer (trace w)) as [error|].
  - destruct (silent_logError error _ _ _ Hrun) as (Hthis & es & Htrace & Hsent' & Hsub').
    split; [exact Hthis|]. exists (e :: es).
    rewrite Htrace. cbn [trace record]. rewrite <- app_assoc.
    split; [reflexivity|].
    change (e :: es) with ([e] ++ es).
    rewrite replica_sentMessages_app, replica_subscriptions_app, Hsent, Hsub, Hsent', Hsub'. split; reflexivity.
  - injection Hrun as <- <-. split; [reflexivity|]. exists [e]. repeat split; assumption.
Qed.

(** Logging and a caught call always return. *)
Lemma log_returns (args : list string) (w : World) : exists w', log args w = (P2P.Ok tt, w').
Proof. unfold log, bind, gets, emit, modifyWorld, ret. destruct (debug (this w)); eexists; reflexivity. Qed.

Lemma logError_returns (error : Js.Error) (w : World) :
  exists w', logError error w = (P2P.Ok tt, w').
Proof.
  unfold logError, bind, gets, emit, modifyWorld, ret.
  destruct (debug (this w)); eexists; reflexivity.
Qed.

Lemma caught_returns (e : Effect) (answer : Trace -> option Js.Error) (w : World) :
  exists w', catch (call e answer) logError w = (P2P.Ok tt, w').
Proof.
  unfold catch, call. destruct (answer (trace w)) as [error|].
  - apply logError_returns.
  - eexists. reflexivity.
Qed.

Lemma connect_run (time i : Z) (w : World) :
  exists w' es,
    connect env time i w = (P2P.Ok tt, w') /\
    this w' = withClients (clients (this w) ++ [replica env (this w) i]) (this w) /\
    trace w' = trace w ++ es /\
    sentMessages es = [] /\
    subscriptions es = [(length (clients (this w)), P2P.InviteListener)].
Proof.
  unfold connect. unfold bind at 1, gets.
  set (c := this w). set (k := length (clients c)).
  unfold bind at 1, emit, modifyWorld.
  set (w0 := record (At k (P2P.Subscribe P2P.INVITE P2P.InviteListener)) w).
  destruct (log_returns ["login"; getPublicKeyHash env c; "on";
              P2P.template (getRelayServer env c (Some (getPublicKeyHash env c)) (pretty i))]
              w0) as [wa Ha].
  destruct (log_returns ["pubkey"; getPublicKey env c] wa) as [wb Hb].
  destruct (log_returns ["pubkeyHash"; getPublicKeyHash env c] wb) as [wc Hc].
  destruct (caught_returns (login env c time k) (clientStart env k) wc) as [wd Hd].
  destruct (log_returns ["Invited to " +:+ pretty (length (invitedRooms env k (trace wd)))
                         +:+ " rooms. Attempting to join"] wd) as [we He].
  destruct (caught_returns (At k (P2P.JoinRooms (invitedRooms env k (trace wd))))
              (fun t => joinRooms env k t (invitedRooms env k (trace wd))) we) as [wf Hf].
  destruct (silent_log _ _ _ _ Ha) as (Ta & ea & Tra & Sa & Ua).
  destruct (silent_log _ _ _ _ Hb) as (Tb & eb & Trb & Sb & Ub).
  destruct (silent_log _ _ _ _ Hc) as (Tc & ec & Trc & Sc & Uc).
  destruct (silent_caught (login env c time k) (clientStart env k) eq_refl eq_refl _ _ _ Hd)
    as (Td & ed & Trd & Sd & Ud).
  destruct (silent_log _ _ _ _ He) as (Te & ee & Tre & Se & Ue).
  destruct (silent_caught (At k (P2P.JoinRooms (invitedRooms env k (trace wd))))
              (fun t => joinRooms env k t (invitedRooms env k (trace wd)))
              eq_refl eq_refl _ _ _ Hf) as (Tf & ef & Trf & Sf & Uf).
  exists (setThis (fun t => withClients (clients t ++ [replica env c i]) t) wf).
  exists (At k (P2P.Subscribe P2P.INVITE P2P.InviteListener)
          :: ea ++ eb ++ ec ++ ed ++ ee ++ ef).
  split.
  { unfold bind. rewrite Ha, Hb, Hc, Hd. unfold gets. rewrite He, Hf. reflexivity. }
  assert (Hthis : this wf = c) by (rewrite Tf, Te, Td, Tc, Tb, Ta; reflexivity).
  split; [cbn [this setThis]; rewrite Hthis; reflexivity|].
  split.
  { cbn [trace setThis]. rewrite Trf, Tre, Trd, Trc, Trb, Tra. subst w0.
    cbn [trace record]. rewrite <- !app_assoc. reflexivity. }
  change (At k (P2P.Subscribe P2P.INVITE P2P.InviteListener)
          :: ea ++ eb ++ ec ++ ed ++ ee ++ ef)
    with ([At k (P2P.Subscribe P2P.INVITE P2P.InviteListener)]
          ++ ea ++ eb ++ ec ++ ed ++ ee ++ ef).
  rewrite !replica_sentMessages_app, !replica_subscriptions_app, Sa, Sb, Sc, Sd, Se, Sf,
    Ua, Ub, Uc, Ud, Ue, Uf.
  split; reflexivity.
Qed.

Lemma connect_all (time : Z) : forall (rounds : list Z) (w : World),
  exists w' es,
    forEach rounds (connect env time) w = (P2P.Ok tt, w') /\
    this w' = withClients (clients (this w) ++ (replica env (this w) <$> rounds)) (this w) /\
    trace w' = trace w ++ es /\
    sentMessages es = [] /\
    subscriptions es
    = (fun k => (k, P2P.InviteListener)) <$> seq (length (clients (this w))) (length rounds).
Proof.
  induction rounds as [|i rounds IH]; intros w.
  - exists w, []. split; [reflexivity|].
    split; [destruct w as [[] ? ? ?]; cbn; rewrite app_nil_r; reflexivity|].
    split; [rewrite app_nil_r; reflexivity|]. split; reflexivity.
  - destruct (connect_run time i w) as (w1 & es1 & Hrun1 & Hthis1 & Htrace1 & Hsent1 & Hsub1).
    destruct (IH w1) as (w' & es & Hrun & Hthis & Htrace & Hsent & Hsub).
    exists w', (es1 ++ es). cbn [forEach]. unfold bind. rewrite Hrun1.
    split; [exact Hrun|].
    split.
    { rewrite Hthis, Hthis1. cbn [clients withClients fmap list_fmap]. unfold withClients.
      cbn [name keyPair replicationCount KNOWN_RELAY_SERVERS debug clients activeListeners].
      rewrite <- app_assoc. reflexivity. }
    split; [rewrite Htrace, Htrace1, <- app_assoc; reflexivity|].
    rewrite replica_sentMessages_app, replica_subscriptions_app, Hsent1, Hsent, Hsub1, Hsub.
    split; [reflexivity|].
    rewrite Hthis1. cbn [clients withClients length seq fmap list_fmap app].
    rewrite length_app. cbn [length].
    replace (length (clients (this w)) + 1)%nat with (S (length (clients (this w)))) by lia.
    reflexivity.
Qed.

(** X26: [start] of the client with replicas never throws (a rejected
    login and a failed join are logged only) and adds one chat client per
    round, [replicationCount] of them, after those it already has: the one
    of round [i] talks to the relay server selected for the client's own
    key hash with nonce [i].  On each of them the invite listener is
    subscribed, and no text message is sent.  Nothing else of the instance
    changes, so a second [start] adds the same chat clients once more. *)
Theorem start_adds_replicas (w : World) :
  exists w',
    start env w = (P2P.Ok tt, w') /\
    this w'
    = withClients (clients (this w)
                   ++ (replica env (this w) <$> upTo (replicationCount (this w))))
        (this w) /\
    length (clients (this w'))
    = (length (clients (this w)) + Z.to_nat (replicationCount (this w)))%nat /\
    sentMessages (since w w') = [] /\
    subscriptions (since w w')
    = (fun k => (k, P2P.InviteListener))
        <$> seq (length (clients (this w))) (Z.to_nat (replicationCount (this w))).
Proof.
  unfold start.
  destruct (log_returns ["starting client"] w) as [wa Ha].
  destruct (silent_log _ _ _ _ Ha) as (Ta & ea & Tra & Sa & Ua).
  destruct (log_returns ["connecting to " +:+ pretty (replicationCount (this wa))
                         +:+ " servers"] wa) as [wb Hb].
  destruct (silent_log _ _ _ _ Hb) as (Tb & eb & Trb & Sb & Ub).
  destruct (connect_all (now wa) (upTo (replicationCount (this wa))) wb)
    as (w' & es & Hrun & Hthis & Htrace & Hsent & Hsub).
  exists w'. split.
  { unfold bind at 1. rewrite Ha. unfold bind at 1, gets. unfold bind at 1.
    unfold bind at 1. rewrite Hb. exact Hrun. }
  rewrite Tb, Ta in Hthis, Hsub.
  split; [exact Hthis|].
  split.
  { rewrite Hthis. cbn [clients withClients]. rewrite length_app, length_fmap.
    unfold upTo. rewrite length_fmap, length_seq. reflexivity. }
  assert (Hsince : since w w' = ea ++ eb ++ es).
  { unfold since. rewrite Htrace, Trb, Tra, <- !app_assoc. apply drop_app_length. }
  rewrite Hsince, !replica_sentMessages_app, !replica_subscriptions_app, Sa, Sb, Ua, Ub,
    Hsent, Hsub.
  split; [reflexivity|].
  unfold upTo. rewrite length_fmap, length_seq. reflexivity.
Qed.

Section ServerCreatesRooms.

(** The chat servers create every room they are asked for. *)
Hypothesis creates : forall k t invitees, exists roomId,
  createTrustedPrivateRoom env k t invitees = inr roomId.

Lemma getRelevantRoom_run (k : nat) (recipient : string) (w : World) :
  exists room w' es,
    getRelevantRoom env k recipient w = (P2P.Ok room, w') /\
    this w' = this w /\ trace w' = trace w ++ es /\
    sentMessages es = [] /\ subscriptions es = [].
Proof.
  unfold getRelevantRoom. unfold bind at 1, gets.
  destruct (log_returns ["joined rooms"] w) as [wa Ha].
  destruct (silent_log _ _ _ _ Ha) as (Ta & ea & Tra & Sa & Ua).
  unfold bind at 1. rewrite Ha.
  destruct (List.filter _ (joinedRooms env k (trace w))) as [|room rooms].
  - destruct (log_returns ["no relevant rooms found"] wa) as [wb Hb].
    destruct (silent_log _ _ _ _ Hb) as (Tb & eb & Trb & Sb & Ub).
    unfold bind at 1. rewrite Hb. unfold bind, callValue, query.
    destruct (creates k (trace wb) [recipient]) as [roomId ->].
    eexists. eexists.
    exists (ea ++ eb ++ [At k (P2P.CreateTrustedPrivateRoom [recipient]);
                         At k (P2P.GetRoomById roomId)]).
    split; [reflexivity|]. cbn [this trace record].
    split; [congruence|].
    split; [rewrite Trb, Tra, <- !app_assoc; reflexivity|].
    rewrite !replica_sentMessages_app, !replica_subscriptions_app, Sa, Sb, Ua, Ub.
    split; reflexivity.
  - destruct (log_returns ["channel already open, reusing room " +:+ id room] wa) as [wb Hb].
    destruct (silent_log _ _ _ _ Hb) as (Tb & eb & Trb & Sb & Ub).
    unfold bind, ret. rewrite Hb.
    exists room, wb, (ea ++ eb).
    split; [reflexivity|]. split; [congruence|].
    split; [rewrite Trb, Tra, <- !app_assoc; reflexivity|].
    rewrite !replica_sentMessages_app, !replica_subscriptions_app, Sa, Sb, Ua, Ub.
    split; reflexivity.
Qed.

(** A send whose error is logged: one text message, no error. *)
Lemma detached_send (k : nat) (roomId text : string) (w : World) :
  exists w' es,
    detached (catch (call (At k (P2P.SendTextMessage roomId text))
                          (fun t => sendTextMessage env k t roomId text))
                    logError) w = (P2P.Ok tt, w') /\
    this w' = this w /\ trace w' = trace w ++ es /\
    sentMessages es = [(k, roomId, text)].
Proof.
  unfold detached, catch, call.
  destruct (sendTextMessage env k (trace w) roomId text) as [error|].
  - destruct (logError_returns error (record (At k (P2P.SendTextMessage roomId text)) w))
      as [w' Hw'].
    destruct (silent_logError _ _ _ _ Hw') as (Hthis & es & Htrace & Hsent & _).
    rewrite Hw'. exists w', (At k (P2P.SendTextMessage roomId text) :: es).
    split; [reflexivity|]. split; [exact Hthis|].
    split; [rewrite Htrace; cbn [trace record]; rewrite <- app_assoc; reflexivity|].
    change (At k (P2P.SendTextMessage roomId text) :: es)
      with ([At k (P2P.SendTextMessage roomId text)] ++ es).
    rewrite replica_sentMessages_app, Hsent. reflexivity.
  - eexists. exists [At k (P2P.SendTextMessage roomId text)].
    split; [reflexivity|]. repeat split.
Qed.

(** A loop whose rounds each return, keep the instance and send the
    messages of one round. *)
Lemma forEach_sends {A} (body : A -> M unit) (Q : A -> list (nat * string * string) -> Prop) :
  (forall x w, exists w' es,
      body x w = (P2P.Ok tt, w') /\ this w' = this w /\ trace w' = trace w ++ es /\
      Q x (sentMessages es)) ->
  forall (xs : list A) (w : World),
    exists w' es rounds,
      forEach xs body w = (P2P.Ok tt, w') /\ this w' = this w /\
      trace w' = trace w ++ es /\
      sentMessages es = concat rounds /\ Forall2 Q xs rounds.
Proof.
  intros Hbody xs. induction xs as [|x xs IH]; intros w.
  - exists w, [], []. split; [reflexivity|]. split; [reflexivity|].
    split; [rewrite app_nil_r; reflexivity|]. split; [reflexivity|constructor].
  - destruct (Hbody x w) as (w1 & es1 & Hrun1 & Hthis1 & Htrace1 & HQ).
    destruct (IH w1) as (w' & es & rounds & Hrun & Hthis & Htrace & Hsent & Hall).
    exists w', (es1 ++ es), (sentMessages es1 :: rounds).
    cbn [forEach]. unfold bind. rewrite Hrun1.
    split; [exact Hrun|]. split; [congruence|].
    split; [rewrite Htrace, Htrace1, <- app_assoc; reflexivity|].
    split; [rewrite replica_sentMessages_app, Hsent; reflexivity|].
    constructor; assumption.
Qed.

Lemma sendOn_run (message sharedTx recipient : string) (k : nat) (w : World) :
  exists w' es,
    sendOn env message sharedTx recipient k w = (P2P.Ok tt, w') /\
    this w' = this w /\ trace w' = trace w ++ es /\
    exists roomId text, sentMessages es = [(k, roomId, text)].
Proof.
  unfold sendOn.
  destruct (getRelevantRoom_run k recipient w) as (room & wa & ea & Ha & Ta & Tra & Sa & _).
  unfold bind at 1. rewrite Ha.
  destruct (log_returns ["found relevant room"; id room] wa) as [wb Hb].
  destruct (silent_log _ _ _ _ Hb) as (Tb & eb & Trb & Sb & _).
  unfold bind at 1. rewrite Hb. unfold bind at 1, draw.
  set (text := P2P.encryptCryptoboxPayload (crypto env) message sharedTx (entropy wb)).
  destruct (log_returns ["sending"; text] (drawn wb)) as [wc Hc].
  destruct (silent_log _ _ _ _ Hc) as (Tc & ec & Trc & Sc & _).
  unfold bind at 1. rewrite Hc.
  destruct (detached_send k (id room) text wc) as (w' & ed & Hd & Td & Trd & Sd).
  exists w', (ea ++ eb ++ ec ++ ed). split; [exact Hd|].
  split; [rewrite Td, Tc; cbn [this drawn]; congruence|].
  split; [rewrite Trd, Trc; cbn [trace drawn]; rewrite Trb, Tra, <- !app_assoc; reflexivity|].
  exists (id room), text.
  rewrite !replica_sentMessages_app, Sa, Sb, Sc, Sd. reflexivity.
Qed.

Lemma eachClient_sends (body : nat -> M unit)
    (Q : nat -> list (nat * string * string) -> Prop) (w : World) :
  (forall k w0, exists w' es,
      body k w0 = (P2P.Ok tt, w') /\ this w' = this w0 /\ trace w' = trace w0 ++ es /\
      Q k (sentMessages es)) ->
  exists w' es rounds,
    eachClient body w = (P2P.Ok tt, w') /\ this w' = this w /\
    trace w' = trace w ++ es /\
    sentMessages es = concat rounds /\
    Forall2 Q (seq 0 (length (clients (this w)))) rounds.
Proof.
  intros Hbody. unfold eachClient, bind, gets.
  apply (forEach_sends body Q Hbody).
Qed.

Lemma concat_singletons {A B} (P : A -> B -> Prop) (xs : list A) (rounds : list (list B)) :
  Forall2 (fun x round => exists y, round = [y] /\ P x y) xs rounds ->
  exists ys, concat rounds = ys /\ Forall2 P xs ys.
Proof.
  induction 1 as [|x round xs rounds (y & -> & Hy) _ (ys & <- & IH)].
  - exists []. split; [reflexivity|constructor].
  - exists (y :: concat rounds). split; [reflexivity|]. constructor; assumption.
Qed.

(** X27: the fan-out of [sendMessage] in the client with replicas.  With
    chat servers that create the rooms they are asked for, [sendMessage]
    never throws (an error of a send is logged only) and leaves the
    instance as it is; in each of its [replicationCount] rounds it hands
    one text message to every chat client, in the order of
    [this.clients]: [replicationCount] times the number of chat clients in
    all, each encrypted on its own. *)
Theorem sendMessage_fans_out (recipientPublicKey message : string) (w : World) :
  exists w' rounds,
    sendMessage env recipientPublicKey message w = (P2P.Ok tt, w') /\
    this w' = this w /\
    sentMessages (since w w') = concat rounds /\
    length rounds = Z.to_nat (replicationCount (this w)) /\
    Forall (fun round => round.*1.*1 = seq 0 (length (clients (this w)))) rounds /\
    length (sentMessages (since w w'))
    = (Z.to_nat (replicationCount (this w)) * length (clients (this w)))%nat.
Proof.
  unfold sendMessage. unfold bind at 1, gets.
  set (c := this w).
  set (sharedTx := P2P.sharedTx _).
  set (Q := fun (_ : Z) (round : list (nat * string * string)) =>
              round.*1.*1 = seq 0 (length (clients c))).
  assert (Hround : forall (i : Z) (w0 : World), this w0 = c ->
    exists w' es,
      (log ["sending to:"; recipientOf env c recipientPublicKey] ;;
       eachClient (sendOn env message sharedTx (recipientOf env c recipientPublicKey))) w0
      = (P2P.Ok tt, w') /\
      this w' = this w0 /\ trace w' = trace w0 ++ es /\ Q i (sentMessages es)).
  { intros i w0 Hw0.
    destruct (log_returns ["sending to:"; recipientOf env c recipientPublicKey] w0) as [wa Ha].
    destruct (silent_log _ _ _ _ Ha) as (Ta & ea & Tra & Sa & _).
    destruct (eachClient_sends (sendOn env message sharedTx
                                  (recipientOf env c recipientPublicKey))
                (fun k round => exists y, round = [y] /\ y.1.1 = k) wa)
      as (w' & es & rounds & Hrun & Hthis & Htrace & Hsent & Hall).
    { intros k w1.
      destruct (sendOn_run message sharedTx (recipientOf env c recipientPublicKey) k w1)
        as (w2 & es2 & Hrun2 & Hthis2 & Htrace2 & roomId & text & Hsent2).
      exists w2, es2. split; [exact Hrun2|]. split; [exact Hthis2|].
      split; [exact Htrace2|]. rewrite Hsent2. eexists. split; reflexivity. }
    exists w', (ea ++ es). unfold bind. rewrite Ha.
    split; [exact Hrun|]. split; [congruence|].
    split; [rewrite Htrace, Tra, <- app_assoc; reflexivity|].
    unfold Q. rewrite replica_sentMessages_app, Sa, Hsent. cbn [app].
    destruct (concat_singletons (fun k y => y.1.1 = k) _ _ Hall) as (ys & -> & Hys).
    rewrite Ta, Hw0 in Hys. clear -Hys.
    induction Hys as [|k y ks ys Hy _ IH]; [reflexivity|].
    cbn [fmap list_fmap]. rewrite Hy. f_equal. exact IH. }
  assert (Hloop : forall (indices : list Z) (w0 : World), this w0 = c ->
    exists w' es rounds,
      forEach indices (fun _ =>
        log ["sending to:"; recipientOf env c recipientPublicKey] ;;
        eachClient (sendOn env message sharedTx (recipientOf env c recipientPublicKey))) w0
      = (P2P.Ok tt, w') /\
      this w' = c /\ trace w' = trace w0 ++ es /\
      sentMessages es = concat rounds /\ Forall2 Q indices rounds).
  { induction indices as [|i indices IH]; intros w0 Hw0.
    - exists w0, [], []. split; [reflexivity|]. split; [exact Hw0|].
      split; [rewrite app_nil_r; reflexivity|]. split; [reflexivity|constructor].
    - destruct (Hround i w0 Hw0) as (w1 & es1 & Hrun1 & Hthis1 & Htrace1 & HQ).
      destruct (IH w1 ltac:(congruence)) as (w' & es & rounds & Hrun & Hthis & Htrace
                                              & Hsent & Hall).
      exists w', (es1 ++ es), (sentMessages es1 :: rounds).
      cbn [forEach]. unfold bind at 1. rewrite Hrun1.
      split; [exact Hrun|]. split; [exact Hthis|].
      split; [rewrite Htrace, Htrace1, <- app_assoc; reflexivity|].
      split; [rewrite replica_sentMessages_app, Hsent; reflexivity|].
      constructor; assumption. }
  destruct (Hloop (upTo (replicationCount c)) w eq_refl)
    as (w' & es & rounds & Hrun & Hthis & Htrace & Hsent & Hall).
  exists w', rounds. split; [exact Hrun|]. split; [exact Hthis|].
  assert (Hsince : since w w' = es) by (unfold since; rewrite Htrace; apply drop_app_length).
  rewrite Hsince, Hsent.
  assert (Hlen : length rounds = Z.to_nat (replicationCount c)).
  { rewrite <- (Forall2_length _ _ _ Hall). unfold upTo. rewrite length_fmap, length_seq.
    reflexivity. }
  assert (Hforall : Forall (fun round => round.*1.*1 = seq 0 (length (clients c))) rounds).
  { clear -Hall. induction Hall; constructor; assumption. }
  split; [reflexivity|]. split; [exact Hlen|]. split; [exact Hforall|].
  rewrite <- Hlen. clear -Hforall.
  induction Hforall as [|round rounds Hround _ IH]; [reflexivity|].
  cbn [concat length]. rewrite length_app, IH.
  assert (Hl : length round = length (clients c)).
  { transitivity (length (seq 0 (length (clients c)))); [|apply length_seq].
    rewrite <- Hround, !length_fmap. reflexivity. }
  rewrite Hl. reflexivity.
Qed.

(** X28: [sendPairingResponse] of the client with replicas never throws
    when the chat servers create the rooms they are asked for; it hands
    exactly one channel-open message to every chat client, in the order of
    [this.clients], without waiting for anybody to join; each seals the
    handshake info of the instance for the public key of the recipient. *)
Theorem sendPairingResponse_answers_on_every_client (recipientPublicKey relayServer : string)
    (w : World) :
  let recipient :=
    P2P.recipientString
      (P2P.getHexHash (crypto env) (P2P.fromHex (crypto env) recipientPublicKey))
      relayServer in
  exists w' sent,
    sendPairingResponse env recipientPublicKey relayServer w = (P2P.Ok tt, w') /\
    this w' = this w /\
    sentMessages (since w w') = sent /\
    Forall2 (fun k message =>
               message.1.1 = k /\
               exists n,
                 message.2
                 = P2P.join ":" ["@channel-open"; recipient;
                                 sealCryptobox env
                                   (stringifyHandshakeInfo env (getHandshakeInfo env (this w)))
                                   (P2P.fromHex (crypto env) recipientPublicKey) n])
            (seq 0 (length (clients (this w)))) sent.
Proof.
  intros recipient. unfold sendPairingResponse.
  destruct (log_returns ["open channel"] w) as [wa Ha].
  destruct (silent_log _ _ _ _ Ha) as (Ta & ea & Tra & Sa & _).
  unfold bind at 1. rewrite Ha. unfold bind at 1, gets.
  destruct (log_returns ["currently there are " +:+ pretty (length (clients (this wa)))
                         +:+ " clients open"] wa) as [wb Hb].
  destruct (silent_log _ _ _ _ Hb) as (Tb & eb & Trb & Sb & _).
  unfold bind at 1. rewrite Hb. fold recipient.
  set (P := fun (k : nat) (y : nat * string * string) =>
              y.1.1 = k /\
              exists n,
                y.2 = P2P.join ":" ["@channel-open"; recipient;
                                    sealCryptobox env
                                      (stringifyHandshakeInfo env (getHandshakeInfo env (this w)))
                                      (P2P.fromHex (crypto env) recipientPublicKey) n]).
  assert (Hbody : forall k w0, this w0 = this w ->
    exists w' es,
      respondOn env recipientPublicKey recipient k w0 = (P2P.Ok tt, w') /\
      this w' = this w0 /\ trace w' = trace w0 ++ es /\
      exists y, sentMessages es = [y] /\ P k y).
  { intros k w0 Hw0. unfold respondOn.
    destruct (getRelevantRoom_run k recipient w0) as (room & w1 & e1 & H1 & T1 & Tr1 & S1 & _).
    unfold bind at 1. rewrite H1. unfold bind at 1, gets. unfold bind at 1, draw.
    match goal with
    | |- context [detached (catch (call (At k (P2P.SendTextMessage ?r ?t)) _) _) ?w2] =>
        destruct (detached_send k r t w2) as (w' & e2 & H2 & T2 & Tr2 & S2)
    end.
    exists w', (e1 ++ e2). split; [exact H2|].
    split; [rewrite T2; cbn [this drawn]; exact T1|].
    split; [rewrite Tr2; cbn [trace drawn]; rewrite Tr1, <- app_assoc; reflexivity|].
    eexists. rewrite replica_sentMessages_app, S1, S2. split; [reflexivity|].
    split; [reflexivity|]. exists (entropy w1). cbn [snd]. rewrite T1, Hw0. reflexivity. }
  assert (Hloop : forall (ks : list nat) (w0 : World), this w0 = this w ->
    exists w' es ys,
      forEach ks (respondOn env recipientPublicKey recipient) w0 = (P2P.Ok tt, w') /\
      this w' = this w /\ trace w' = trace w0 ++ es /\
      sentMessages es = ys /\ Forall2 P ks ys).
  { induction ks as [|k ks IH]; intros w0 Hw0.
    - exists w0, [], []. split; [reflexivity|]. split; [exact Hw0|].
      split; [rewrite app_nil_r; reflexivity|]. split; [reflexivity|constructor].
    - destruct (Hbody k w0 Hw0) as (w1 & es1 & Hrun1 & Hthis1 & Htrace1 & y & Hy & HP).
      destruct (IH w1 ltac:(congruence)) as (w' & es & ys & Hrun & Hthis & Htrace & Hsent
                                              & Hall).
      exists w', (es1 ++ es), (y :: ys). cbn [forEach]. unfold bind at 1. rewrite Hrun1.
      split; [exact Hrun|]. split; [exact Hthis|].
      split; [rewrite Htrace, Htrace1, <- app_assoc; reflexivity|].
      split; [rewrite replica_sentMessages_app, Hy, Hsent; reflexivity|].
      constructor; assumption. }
  assert (Hwb : this wb = this w) by congruence.
  destruct (Hloop (seq 0 (length (clients (this wb)))) wb Hwb)
    as (w' & es & ys & Hrun & Hthis & Htrace & Hsent & Hall).
  exists w', ys. split; [exact Hrun|]. split; [exact Hthis|].
  assert (Hsince : since w w' = ea ++ eb ++ es).
  { unfold since. rewrite Htrace, Trb, Tra, <- !app_assoc. apply drop_app_length. }
  rewrite Hsince, !replica_sentMessages_app, Sa, Sb, Hsent.
  split; [reflexivity|]. rewrite Hwb in Hall. exact Hall.
Qed.

End ServerCreatesRooms.

(** X29: a listener that is registered before [start] is never
    subscribed.  Without chat clients [listenForEncryptedMessage] files
    the listener under the sender's key and subscribes it nowhere; [start]
    subscribes only its invite listeners; and every later
    [listenForEncryptedMessage] for that sender does nothing, because the
    key is taken. *)
Theorem listener_before_start_is_never_subscribed (senderPublicKey : string)
    (messageCallback : nat) (w : World) :
  clients (this w) = [] ->
  activeListeners (this w) !! senderPublicKey = None ->
  exists w1 w2,
    listenForEncryptedMessage env senderPublicKey messageCallback w = (P2P.Ok tt, w1) /\
    trace w1 = trace w /\
    is_Some (activeListeners (this w1) !! senderPublicKey) /\
    start env w1 = (P2P.Ok tt, w2) /\
    Forall (fun subscription => subscription.2 = P2P.InviteListener)
           (subscriptions (since w1 w2)) /\
    forall otherCallback,
      listenForEncryptedMessage env senderPublicKey otherCallback w2 = (P2P.Ok tt, w2).
Proof.
  intros Hnone Hnew.
  set (l := P2P.EncryptedMessageListener senderPublicKey
              (P2P.sharedRx (P2P.createCryptoBoxServer (crypto env) senderPublicKey
                               (P2P.privateKey (keyPair (this w)))))
              messageCallback).
  set (w1 := setThis (fun t =>
               withActiveListeners (<[senderPublicKey := l]> (activeListeners t)) t) w).
  assert (Hrun1 : listenForEncryptedMessage env senderPublicKey messageCallback w
                  = (P2P.Ok tt, w1)).
  { unfold listenForEncryptedMessage, bind, gets, modifyWorld, eachClient.
    rewrite Hnew. change (bool_decide (is_Some None)) with false. cbv iota.
    fold l. unfold bind, gets. fold w1.
    change (clients (this w1)) with (clients (this w)). rewrite Hnone. reflexivity. }
  destruct (start_adds_replicas w1) as (w2 & Hrun2 & Hthis2 & _ & _ & Hsub).
  exists w1, w2. split; [exact Hrun1|]. split; [reflexivity|].
  split; [exists l; apply lookup_insert_eq|]. split; [exact Hrun2|].
  split.
  - rewrite Hsub. apply Forall_fmap, Forall_forall. intros k _. reflexivity.
  - intros otherCallback. unfold listenForEncryptedMessage, bind, gets.
    rewrite Hthis2. cbn [activeListeners withClients].
    change (activeListeners (this w1))
      with (<[senderPublicKey := l]> (activeListeners (this w))).
    rewrite lookup_insert_eq. reflexivity.
Qed.

End ReplicatedFacts.


(** ** The properties of the client with replicas on a concrete client *)

Section ReplicatedExamples.
Import Matrix Replicated ReplicatedSamples.

Lemma getRelayServer_same_in_both_revisions_witness :
  getRelayServer sampleEnv (this freshWorld) None "0"
  = P2P.getRelayServer (crypto sampleEnv) (Samples.sampleClient false) None "0".
Proof.
  exact (getRelayServer_same_in_both_revisions sampleEnv (this freshWorld)
           (Samples.sampleClient false) None "0" eq_refl eq_refl).
Defined.

Lemma sampleEnv_creates (k : nat) (t : Trace) (invitees : list string) :
  exists roomId, createTrustedPrivateRoom sampleEnv k t invitees = inr roomId.
Proof. eexists. reflexivity. Qed.

Lemma sendMessage_fans_out_witness :
  exists w' rounds,
    sendMessage sampleEnv "peer" "hi" startedWorld = (P2P.Ok tt, w') /\
    this w' = this startedWorld /\
    sentMessages (since startedWorld w') = concat rounds /\
    length rounds = 2%nat /\
    Forall (fun round => round.*1.*1 = [0%nat; 1%nat]) rounds /\
    length (sentMessages (since startedWorld w')) = 4%nat.
Proof.
  exact (sendMessage_fans_out sampleEnv sampleEnv_creates "peer" "hi" startedWorld).
Defined.

Lemma sendPairingResponse_answers_on_every_client_witness :
  exists w' sent,
    sendPairingResponse sampleEnv "peer" "relay-a" startedWorld = (P2P.Ok tt, w') /\
    sentMessages (since startedWorld w') = sent /\
    length sent = 2%nat.
Proof.
  destruct (sendPairingResponse_answers_on_every_client sampleEnv sampleEnv_creates
              "peer" "relay-a" startedWorld) as (w' & sent & Hrun & _ & Hsent & Hall).
  exists w', sent. split; [exact Hrun|]. split; [exact Hsent|].
  rewrite <- (Forall2_length _ _ _ Hall). reflexivity.
Defined.

Lemma listener_before_start_is_never_subscribed_witness :
  exists w1 w2,
    listenForEncryptedMessage sampleEnv "peer" 1%nat freshWorld = (P2P.Ok tt, w1) /\
    trace w1 = trace freshWorld /\
    start sampleEnv w1 = (P2P.Ok tt, w2) /\
    listenForEncryptedMessage sampleEnv "peer" 2%nat w2 = (P2P.Ok tt, w2).
Proof.
  destruct (listener_before_start_is_never_subscribed sampleEnv "peer" 1%nat freshWorld
              eq_refl eq_refl) as (w1 & w2 & Hrun1 & Htrace & _ & Hrun2 & _ & Hagain).
  exists w1, w2. split; [exact Hrun1|]. split; [exact Htrace|]. split; [exact Hrun2|].
  apply Hagain.
Defined.

End ReplicatedExamples.

